(** * Orbidi venue ranking: scoring, ranking pipeline and cache-aside layer

    A shallow embedding of [app/services/calculator.py],
    [app/services/business_logic.py], [app/core/redis.py],
    [app/schemas/business.py], [app/schemas/iae.py] and, of [app/main.py],
    the two business endpoints, the typology endpoint and the seeding.

    Numbers.  Python [float] and [int] values are modelled by the real
    number they denote; arithmetic is exact, rounding is not modelled.  The
    places where Python arithmetic raises instead of returning are kept:
    true division by zero ([ZeroDivisionError]), a true division of ints or
    a [math.exp] whose result leaves the range of a double
    ([OverflowError]) and [math.sqrt] of a negative number ([ValueError]).
    Where a double rounds across a threshold the code can differ from the
    exact value: [1 - a] can round below zero under [math.sqrt], and two
    metrics can round to the same double.  The properties of the searches
    are therefore stated of the searches that return, and the bounds on
    metrics without strictness.

    Data.  The dict-shaped records of the pipeline are finite maps from
    field names to Python values; the typology dict is a finite map, the
    set of sector codes a finite set.  The tables of the database are the
    lists of their rows.

    Effects.  The services are functions of the database that return a
    value or raise.  The handlers run in a state monad over the world of a
    request: the database, the Redis client with the server behind it (each
    key with its JSON text and the instant at which it expires), the instant
    of the request, and a counter of the handlers' trips to the database.
    The rendering of a float inside an f-string is a parameter of the
    handlers. *)

From Stdlib Require Import Reals Lra Lia ZArith Ascii.
From stdpp Require Import base list gmap strings pretty sorting.

#[local] Set Warnings "-register-all".

(** ** Python results and values *)

Module Py.

(** The exceptions the modelled code can end in. *)
Inductive exn :=
| ZeroDivisionError
| OverflowError
| ValueError
| TypeError
| KeyError
| MultipleResultsFound
| ResponseValidationError.

(** A computation returns a value or raises. *)
Inductive result (A : Type) :=
| Ok (a : A)
| Raise (e : exn).
Arguments Ok {A} a.
Arguments Raise {A} e.

#[export] Instance result_ret : MRet result := fun A a => Ok a.

#[export] Instance result_bind : MBind result := fun A B k m =>
  match m with
  | Ok a => k a
  | Raise e => Raise e
  end.

#[export] Instance result_fmap : FMap result := fun A B f m =>
  match m with
  | Ok a => Ok (f a)
  | Raise e => Raise e
  end.

(** Values that flow through the dict-shaped records and the JSON cache. *)
Inductive pyval :=
| VNone
| VStr (s : string)
| VNum (r : R)
| VList (l : list pyval)
| VDict (d : gmap string pyval).

(** Truth value of [if v:]. *)
Definition truthy (v : pyval) : bool :=
  match v with
  | VNone => false
  | VStr s => match s with EmptyString => false | _ => true end
  | VNum r => if Req_dec_T r 0 then false else true
  | VList l => match l with [] => false | _ => true end
  | VDict d => match map_to_list d with [] => false | _ => true end
  end.

(** [d[k]]. *)
Definition getitem (d : gmap string pyval) (k : string) : result pyval :=
  match d !! k with
  | Some v => Ok v
  | None => Raise KeyError
  end.

(** A value used as a number: arithmetic on anything else is a [TypeError]. *)
Definition as_num (v : pyval) : result R :=
  match v with
  | VNum r => Ok r
  | _ => Raise TypeError
  end.

(** The largest finite double. *)
Definition float_max : R := ((2 - / 2 ^ 52) * 2 ^ 1023)%R.

(** The least magnitude that rounds to an infinity: half a unit in the last
    place beyond [float_max]. *)
Definition float_overflow : R := ((2 - / 2 ^ 53) * 2 ^ 1023)%R.

(** [x / y] on numbers.  A quotient whose magnitude rounds to an infinity
    has no double.  In the divisions of this program the operands that
    reach it are ints (a float is at most [float_max], and the divisors are
    [100], [1000] and numbers of magnitude 2^-53 or more), and true
    division of ints then raises [OverflowError]. *)
Definition truediv (x y : R) : result R :=
  if Req_dec_T y 0 then Raise ZeroDivisionError
  else if Rlt_dec (Rabs (x / y)) float_overflow then Ok (x / y)%R
  else Raise OverflowError.

(** [math.exp]: raises when the result is out of range. *)
Definition math_exp (x : R) : result R :=
  if Rle_dec (exp x) float_max then Ok (exp x) else Raise OverflowError.

(** [math.sqrt]: raises on a negative argument. *)
Definition math_sqrt (x : R) : result R :=
  if Rlt_dec x 0 then Raise ValueError else Ok (sqrt x).

(** [math.radians]. *)
Definition math_radians (x : R) : R := (x * PI / 180)%R.

(** [math.atan2 y x], the angle of the point (x, y) in (-pi, pi]. *)
Definition math_atan2 (y x : R) : R :=
  if Rlt_dec 0 x then atan (y / x)
  else if Rlt_dec x 0 then
    (if Rle_dec 0 y then atan (y / x) + PI else atan (y / x) - PI)%R
  else if Rlt_dec 0 y then (PI / 2)%R
  else if Rlt_dec y 0 then (- (PI / 2))%R
  else 0%R.

(** Nearest integer, ties to the even one. *)
Definition round_half_even (x : R) : Z :=
  let f := Int_part x in
  let d := frac_part x in
  if Rlt_dec d (1 / 2) then f
  else if Rlt_dec (1 / 2) d then (f + 1)%Z
  else if Z.even f then f else (f + 1)%Z.

(** [round(x, ndigits)]. *)
Definition round (x : R) (ndigits : nat) : R :=
  (IZR (round_half_even (x * 10 ^ ndigits)) / 10 ^ ndigits)%R.

(** [sorted(l, key=key, reverse=True)]: the keys are computed first, one per
    element, then the elements are arranged by a stable sort, so that
    elements with equal keys keep their order.  [insert_desc] puts an
    element in front of the first one whose key is not larger. *)
Fixpoint insert_desc {A} (k : R) (x : A) (l : list (R * A)) : list (R * A) :=
  match l with
  | [] => [(k, x)]
  | (k', y) :: l' =>
      if Rlt_dec k k' then (k', y) :: insert_desc k x l'
      else (k, x) :: (k', y) :: l'
  end.

(** Insertion of the elements from the last to the first. *)
Definition sort_desc {A} (l : list (R * A)) : list (R * A) :=
  foldr (fun kx acc => insert_desc kx.1 kx.2 acc) [] l.

(** The sort itself, with the keys computed up front. *)
Definition sorted_reverse {A} (key : A -> result R) (l : list A) : result (list A) :=
  keyed ← mapM (fun x => k ← key x; mret (k, x)) l;
  mret (sort_desc keyed).*2.

End Py.

Import Py.

Abbreviation dict := (gmap string pyval).

(** ** app/services/calculator.py *)

Module MetricCalculator.
#[local] Open Scope R_scope.

Definition sigmoid (x : R) : result R :=
  let x := Rmax (Rmin x 100) (-100) in
  e ← math_exp (- x);
  truediv 1 (1 + e).

Definition calculate_conversion_metric
    (rentability typology_val distance_m : R) : result R :=
  r ← truediv rentability 100;
  t ← truediv typology_val 1000;
  p ← truediv 1 (1 + distance_m);
  let x := (0.2 * r) + (0.4 * t) + (0.4 * p) in
  sigmoid x.

End MetricCalculator.

Import MetricCalculator.

(** ** app/models *)

(** A row of [businesses].  The two columns the table leaves nullable,
    [rentability] and [proximity_to_urban_center_m], hold a number in
    every row considered here. *)
Module Business.
Record t := mk {
  id : string;
  name : string;
  iae_code : string;
  rentability : R;
  proximity_to_urban_center_m : R;
  latitude : R;
  longitude : R
}.
End Business.

Module IAECategory.
Record t := mk {
  id : Z;
  iae_code : string;
  valor_tipologia : Z
}.
End IAECategory.

(** The two tables, each in the order in which a [select] returns its rows. *)
Record Database := {
  businesses : list Business.t;
  iae_categories : list IAECategory.t
}.

(** [result.scalar_one_or_none()]. *)
Definition scalar_one_or_none {A} (rows : list A) : result (option A) :=
  match rows with
  | [] => Ok None
  | [row] => Ok (Some row)
  | _ => Raise MultipleResultsFound
  end.

(** SQL [LIKE] without an escape character: in the pattern, [%] matches any
    sequence of characters and [_] any one character; every other
    character matches itself. *)
Fixpoint sql_like (pattern : string) : string -> bool :=
  match pattern with
  | EmptyString => fun s => match s with EmptyString => true | _ => false end
  | String c pattern' =>
      if Ascii.eqb c "%"%char then
        fix any (s : string) : bool :=
          sql_like pattern' s
          || match s with EmptyString => false | String _ s' => any s' end
      else
        fun s =>
          match s with
          | EmptyString => false
          | String d s' =>
              (Ascii.eqb c "_"%char || Ascii.eqb c d) && sql_like pattern' s'
          end
  end.

(** [column.startswith(prefix)] in a [where] clause:
    [column LIKE prefix || '%'], the prefix taken as it is, so that a [%]
    or [_] in it is a wildcard. *)
Definition startswith (column prefix : string) : bool :=
  sql_like (prefix +:+ "%") column.

(** The rows [seed_database] inserts into an empty database. *)
Definition seed_iae_categories : list IAECategory.t :=
  [ IAECategory.mk 1 "E471.1" 800;
    IAECategory.mk 2 "G651.2" 450;
    IAECategory.mk 3 "G651.3" 470;
    IAECategory.mk 4 "G651.4" 490 ].

Definition biz_001 : Business.t :=
  Business.mk "biz_001" "Madrid Central Grill" "E471.1" 85.0 100.0 40.4167 (-3.7037).
Definition biz_002 : Business.t :=
  Business.mk "biz_002" "Retiro Coffee" "G651.2" 65.0 200.0 40.4150 (-3.6850).
Definition biz_003 : Business.t :=
  Business.mk "biz_003" "Madrid Central Coffee" "G651.3" 68.0 190.0 40.4130 (-3.6810).
Definition biz_004 : Business.t :=
  Business.mk "biz_004" "Sol Coffee" "G651.4" 62.0 90.0 40.4230 (-3.6110).

Definition seed_database : Database :=
  {| businesses := [biz_001; biz_002; biz_003; biz_004];
     iae_categories := seed_iae_categories |}.

(** ** app/services/business_logic.py *)

Module BusinessLogic.

Definition haversine_distance (lat1 lon1 lat2 lon2 : R) : result R :=
  let R := 6371000%R in
  let phi1 := math_radians lat1 in
  let phi2 := math_radians lat2 in
  let dphi := math_radians (lat2 - lat1) in
  let dlambda := math_radians (lon2 - lon1) in
  let a := (sin (dphi / 2) ^ 2 + cos phi1 * cos phi2 * sin (dlambda / 2) ^ 2)%R in
  sa ← math_sqrt a;
  sb ← math_sqrt (1 - a);
  let c := (2 * math_atan2 sa sb)%R in
  mret (R * c)%R.

(** The dict built for a venue inside the radius. *)
Definition biz_data (b : Business.t) (dist : R) : dict :=
  {[ "id" := VStr (Business.id b);
     "name" := VStr (Business.name b);
     "iae_code" := VStr (Business.iae_code b);
     "rentability" := VNum (Business.rentability b);
     "proximity_to_urban_center_m" := VNum (Business.proximity_to_urban_center_m b);
     "distance_from_search_m" := VNum (round dist 2);
     "coordinates" := VDict {[ "lat" := VNum (Business.latitude b);
                               "lon" := VNum (Business.longitude b) ]} ]}.

(** First loop: keep the venues within [radius] of the query point,
    appending to [nearby] and collecting the sector codes. *)
Fixpoint nearby_loop (rows : list Business.t) (lat lon : R) (radius : Z)
    (nearby : list dict) (iae_codes : gset string)
    : result (list dict * gset string) :=
  match rows with
  | [] => Ok (nearby, iae_codes)
  | b :: rows =>
      dist ← haversine_distance lat lon (Business.latitude b) (Business.longitude b);
      if Rle_dec dist (IZR radius)
      then nearby_loop rows lat lon radius
             (nearby ++ [biz_data b dist]) (iae_codes ∪ {[ Business.iae_code b ]})
      else nearby_loop rows lat lon radius nearby iae_codes
  end.

(** [select(IAECategory).where(IAECategory.iae_code.in_(iae_codes))]
    followed by the dict comprehension: a later row replaces an earlier
    one with the same code. *)
Definition iae_map_of (rows : list IAECategory.t) (iae_codes : gset string)
    : gmap string Z :=
  foldl (fun m row => <[ IAECategory.iae_code row := IAECategory.valor_tipologia row ]> m)
        ∅
        (filter (fun row => IAECategory.iae_code row ∈ iae_codes) rows).

(** Body of the second loop: [biz["metric"] = calculator...]. *)
Definition score (iae_map : gmap string Z) (biz : dict) : result dict :=
  code ← getitem biz "iae_code";
  let t_val := match code with
               | VStr c => default 0%Z (iae_map !! c)
               | _ => 0%Z
               end in
  rentability ← getitem biz "rentability" ≫= as_num;
  distance_m ← getitem biz "proximity_to_urban_center_m" ≫= as_num;
  metric ← calculate_conversion_metric rentability (IZR t_val) distance_m;
  mret (<[ "metric" := VNum metric ]> biz).

Definition metric_key (x : dict) : result R :=
  getitem x "metric" ≫= as_num.

(** What both functions do once the candidate rows are fetched. *)
Definition rank (db : Database) (rows : list Business.t) (lat lon : R) (radius : Z)
    : result (list dict) :=
  '(nearby, iae_codes) ← nearby_loop rows lat lon radius [] ∅;
  match nearby with
  | [] => Ok []
  | _ =>
      let iae_map := iae_map_of (iae_categories db) iae_codes in
      scored ← mapM (score iae_map) nearby;
      sorted_reverse metric_key scored
  end.

Definition get_processed_businesses (db : Database) (lat lon : R) (radius : Z)
    : result (list dict) :=
  let db_businesses := businesses db in
  rank db db_businesses lat lon radius.

Definition get_processed_businesses_by_id (db : Database) (business_id : string)
    (lat lon : R) (radius : Z) : result (option (list dict)) :=
  target_biz ← scalar_one_or_none
    (filter (fun b => Business.id b = business_id) (businesses db));
  match target_biz with
  | None => Ok None
  | Some target_biz =>
      let sector_prefix := String.substring 0 2 (Business.iae_code target_biz) in
      let db_candidates :=
        filter (fun b => startswith (Business.iae_code b) sector_prefix = true
                         ∧ Business.id b ≠ business_id)
               (businesses db) in
      ranked ← rank db db_candidates lat lon radius;
      mret (Some ranked)
  end.

End BusinessLogic.

Import BusinessLogic.

(** ** JSON and response models *)

(** A JSON text, represented by the value it encodes: [json.loads] gives
    back what [json.dumps] was given. *)
Inductive json := JSON (v : pyval).

Definition json_dumps (v : pyval) : json := JSON v.
Definition json_loads (data : json) : pyval := let 'JSON v := data in v.

(** app/schemas/business.py: the pydantic models, as the fields they declare. *)
Inductive schema :=
| SStr
| SInt
| SFloat
| SList (item : schema)
| SModel (fields : list (string * schema)).

Definition Coordinates : schema :=
  SModel [("lat", SFloat); ("lon", SFloat)].

Definition BusinessBase : list (string * schema) :=
  [("id", SStr); ("name", SStr); ("iae_code", SStr); ("rentability", SInt);
   ("proximity_to_urban_center_m", SFloat); ("coordinates", Coordinates)].

Definition BusinessResponse : schema :=
  SModel (BusinessBase ++ [("metric", SFloat)]).

Definition BusinessList : schema :=
  SModel [("count", SInt); ("businesses", SList BusinessResponse)].

Definition CompetitorList : schema :=
  SModel [("count", SInt); ("competitors", SList BusinessResponse)].

(** What [response_model=...] does to the value a handler returns: each
    declared field is required and checked, anything undeclared is left
    out of the response. *)
Fixpoint serialize (s : schema) (v : pyval) : result pyval :=
  match s, v with
  | SStr, VStr x => Ok (VStr x)
  | SInt, VNum r =>
      if Req_dec_T (frac_part r) 0 then Ok (VNum r) else Raise ResponseValidationError
  | SFloat, VNum r => Ok (VNum r)
  | SList item, VList l => VList <$> mapM (serialize item) l
  | SModel fields, VDict d =>
      VDict <$>
      (fix go (fields : list (string * schema)) : result dict :=
         match fields with
         | [] => Ok ∅
         | (k, s) :: fields =>
             match d !! k with
             | None => Raise ResponseValidationError
             | Some v =>
                 v' ← serialize s v;
                 out ← go fields;
                 mret (<[ k := v' ]> out)
             end
         end) fields
  | _, _ => Raise ResponseValidationError
  end.

(** ** app/core/redis.py *)

Module RedisClient.

(** The server behind the connection: under each key a JSON text and the
    instant (in seconds) at which the key expires. *)
Abbreviation server := (gmap string (json * Z)).

Record t := mk { client : option server }.

(** [RedisClient()] and [init()]. *)
Definition new : t := mk None.
Definition init (srv : server) (self : t) : t := mk (Some srv).

(** [GET key] at instant [now]. *)
Definition redis_get (srv : server) (now : Z) (key : string) : option json :=
  match srv !! key with
  | Some (data, deadline) => if bool_decide (now < deadline)%Z then Some data else None
  | None => None
  end.

(** [SET key data EX ex] at instant [now]. *)
Definition redis_set (srv : server) (now : Z) (key : string) (data : json) (ex : Z)
    : server :=
  <[ key := (data, (now + ex)%Z) ]> srv.

Definition get_cache (self : t) (now : Z) (key : string) : pyval :=
  match client self with
  | None => VNone
  | Some srv =>
      match redis_get srv now key with
      | Some data => json_loads data
      | None => VNone
      end
  end.

Definition set_cache (self : t) (now : Z) (key : string) (value : pyval) (expire : Z) : t :=
  match client self with
  | Some srv => mk (Some (redis_set srv now key (json_dumps value) expire))
  | None => self
  end.

End RedisClient.

(** ** app/main.py *)

(** What a request runs against: the database behind [db], the singleton
    [redis_client], the instant of the request, and the number of times a
    handler has gone to the database so far. *)
Record World := mkWorld {
  db : Database;
  redis_client : RedisClient.t;
  now : Z;
  db_reads : nat
}.

Definition IO (A : Type) : Type := World -> result A * World.

#[export] Instance IO_ret : MRet IO := fun A a w => (Ok a, w).

#[export] Instance IO_bind : MBind IO := fun A B k m w =>
  match m w with
  | (Ok a, w') => k a w'
  | (Raise e, w') => (Raise e, w')
  end.

Definition lift {A} (r : result A) : IO A := fun w => (r, w).

Definition get_cache (key : string) : IO pyval := fun w =>
  (Ok (RedisClient.get_cache (redis_client w) (now w) key), w).

Definition set_cache (key : string) (value : pyval) (expire : Z) : IO unit := fun w =>
  (Ok tt,
   mkWorld (db w) (RedisClient.set_cache (redis_client w) (now w) key value expire)
           (now w) (db_reads w)).

(** A call of a service function on the session [db]. *)
Definition with_db {A} (service : Database -> result A) : IO A := fun w =>
  (service (db w), mkWorld (db w) (redis_client w) (now w) (S (db_reads w))).

(** [len(x)]. *)
Definition len (x : pyval) : result nat :=
  match x with
  | VList l => Ok (length l)
  | VStr s => Ok (String.length s)
  | VDict d => Ok (size d)
  | VNone | VNum _ => Raise TypeError
  end.

Section Main.

(** [f"{x}"] for a float [x]. *)
Variable format_float : R -> string.

(** [f"search:{lat}:{lon}:{radius}"]. *)
Definition search_cache_key (lat lon : R) (radius : Z) : string :=
  "search:" +:+ format_float lat +:+ ":" +:+ format_float lon +:+ ":" +:+ pretty radius.

(** [f"search:{business_id}:{lat}:{lon}:{radius}"]. *)
Definition competitors_cache_key (business_id : string) (lat lon : R) (radius : Z)
    : string :=
  "search:" +:+ business_id +:+ ":" +:+ format_float lat +:+ ":"
  +:+ format_float lon +:+ ":" +:+ pretty radius.

Definition search_nearby_businesses (lat lon : R) (radius : Z) : IO pyval :=
  let cache_key := search_cache_key lat lon radius in
  cached_result ← get_cache cache_key;
  if truthy cached_result then mret cached_result else
  processed_list ← with_db (fun db => get_processed_businesses db lat lon radius);
  let processed_list := VList (VDict <$> processed_list) in
  count ← lift (len processed_list);
  let response :=
    VDict {[ "count" := VNum (INR count); "businesses" := processed_list ]} in
  set_cache cache_key response 300;;
  mret response.

Definition get_business_competitors (business_id : string) (lat lon : R) (radius : Z)
    : IO pyval :=
  let cache_key := competitors_cache_key business_id lat lon radius in
  cached_result ← get_cache cache_key;
  if truthy cached_result then mret cached_result else
  processed_list ← with_db (fun db =>
    get_processed_businesses_by_id db business_id lat lon radius);
  let processed_list :=
    match processed_list with
    | Some l => VList (VDict <$> l)
    | None => VNone
    end in
  count ← lift (len processed_list);
  let response :=
    VDict {[ "count" := VNum (INR count); "competitors" := processed_list ]} in
  set_cache cache_key response 300;;
  mret response.

(** The routes: the handler, then its [response_model]. *)
Definition route (response_model : schema) (handler : IO pyval) : IO pyval :=
  response ← handler;
  lift (serialize response_model response).

Definition GET_businesses_search (lat lon : R) (radius : Z) : IO pyval :=
  route BusinessList (search_nearby_businesses lat lon radius).

Definition GET_business_competitors (business_id : string) (lat lon : R) (radius : Z)
    : IO pyval :=
  route CompetitorList (get_business_competitors business_id lat lon radius).

End Main.

(** ** Vocabulary of the statements *)

(** The sigmoid's clamp. *)
Definition clamp (x : R) : R := Rmax (Rmin x 100) (-100).

(** Fixed-point squaring with 12 decimals, rounded down: a cheap way to
    bound [y ^ 1024] from below by ten squarings. *)
Definition fx_scale : Z := 10 ^ 12.

(** The number a fixed-point integer stands for. *)
Definition fx (a : Z) : R := IZR a / IZR fx_scale.

(** The square of a fixed-point number, rounded down. *)
Definition sq_down (a : Z) : Z := (a * a / fx_scale)%Z.

(** The argument of the sigmoid in the scenario of venue A. *)
Definition scenario_x : R := 0.2 * 0.85 + 0.4 * 0.8 + 0.4 * (1 / 101).

(** The value of the sigmoid as a function of its argument. *)
Definition sigmoid_value (x : R) : R := 1 / (1 + exp (- clamp x)).

(** The weighted sum the metric feeds to the sigmoid. *)
Definition weighted_sum (rentability typology_val distance_m : R) : R :=
  0.2 * (rentability / 100) + 0.4 * (typology_val / 1000)
  + 0.4 * (1 / (1 + distance_m)).

#[local] Instance R_eq_dec : EqDecision R := Req_dec_T.

(** The metric a scored dict carries. *)
Definition metric_of (d : dict) : R :=
  match d !! "metric" with
  | Some (VNum m) => m
  | _ => 0%R
  end.

(** Descending order of keys, on every pair of positions. *)
Definition descending {A} (key : A -> R) (l : list A) : Prop :=
  StronglySorted (fun x y => (key y <= key x)%R) l.

(** A list with the key of each element next to it. *)
Definition keyed {A} (key : A -> R) (l : list A) : list (R * A) :=
  (fun x => (key x, x)) <$> l.

(** The dict has been scored. *)
Definition has_metric (d : dict) : Prop := exists m, d !! "metric" = Some (VNum m).

(** The typology table as the dict comprehension sees it when no code is
    filtered out: a later row replaces an earlier one with the same code. *)
Definition iae_table (db : Database) : gmap string Z :=
  foldl (fun m row => <[ IAECategory.iae_code row := IAECategory.valor_tipologia row ]> m)
        ∅ (iae_categories db).

(** The metric of a stored venue: a function of its row and of the
    typology table alone. *)
Definition venue_metric (db : Database) (b : Business.t) : result R :=
  calculate_conversion_metric
    (Business.rentability b)
    (IZR (default 0%Z (iae_table db !! Business.iae_code b)))
    (Business.proximity_to_urban_center_m b).

(** A venue kept by the radius filter, with its distance from the query point. *)
Definition within (lat lon : R) (radius : Z) (bd : Business.t * R) : Prop :=
  haversine_distance lat lon (Business.latitude bd.1) (Business.longitude bd.1) = Ok bd.2
  /\ (bd.2 <= IZR radius)%R.

(** The dict of a kept venue. *)
Definition biz_data_of (bd : Business.t * R) : dict := biz_data bd.1 bd.2.

(** What a scored dict is, for a kept venue. *)
Definition scored_from (db : Database) (bd : Business.t * R) (s : dict) : Prop :=
  exists m, venue_metric db bd.1 = Ok m /\ s = <[ "metric" := VNum m ]> (biz_data_of bd).

(** The haversine term [a] of two points. *)
Definition hav (lat1 lon1 lat2 lon2 : R) : R :=
  sin (math_radians (lat2 - lat1) / 2) ^ 2
  + cos (math_radians lat1) * cos (math_radians lat2)
    * sin (math_radians (lon2 - lon1) / 2) ^ 2.

(** The metric in the scenario of venue A. *)
Definition scenario_metric : R := (1 / (1 + exp (- scenario_x)))%R.

(** The payload the search handler stores and returns. *)
Definition search_response (processed_list : list dict) : pyval :=
  VDict {[ "count" := VNum (INR (length processed_list));
           "businesses" := VList (VDict <$> processed_list) ]}.

(** The payload the competitors handler stores and returns. *)
Definition competitors_response (processed_list : list dict) : pyval :=
  VDict {[ "count" := VNum (INR (length processed_list));
           "competitors" := VList (VDict <$> processed_list) ]}.

(** The world after a handler went to the database and stored [response]. *)
Definition stored (w : World) (srv : RedisClient.server) (key : string) (response : pyval)
    : World :=
  mkWorld (db w)
          (RedisClient.mk (Some (<[ key := (json_dumps response, (now w + 300)%Z) ]> srv)))
          (now w) (S (db_reads w)).

(** Every payload in the cache passes the handlers' [if cached_result:]. *)
Definition payloads_truthy (srv : RedisClient.server) : Prop :=
  forall key data deadline,
    srv !! key = Some (data, deadline) -> truthy (json_loads data) = true.

(** The item of a response for a scored venue whose rentability is integral. *)
Definition response_item (b : Business.t) (metric : R) : dict :=
  {[ "id" := VStr (Business.id b);
     "name" := VStr (Business.name b);
     "iae_code" := VStr (Business.iae_code b);
     "rentability" := VNum (Business.rentability b);
     "proximity_to_urban_center_m" := VNum (Business.proximity_to_urban_center_m b);
     "coordinates" := VDict {[ "lat" := VNum (Business.latitude b);
                               "lon" := VNum (Business.longitude b) ]};
     "metric" := VNum metric ]}.

(** The fields of a model, one after the other. *)
Definition serialize_fields (d : dict) : list (string * schema) -> result dict :=
  fix go fields :=
    match fields with
    | [] => Ok ∅
    | (k, s) :: fields =>
        match d !! k with
        | None => Raise ResponseValidationError
        | Some v =>
            v' ← serialize s v;
            out ← go fields;
            mret (<[ k := v' ]> out)
        end
    end.

(** The world in which the application starts serving: [lifespan] has
    initialised the Redis client, nothing is cached yet. *)
Definition started (d : Database) (t : Z) : World :=
  mkWorld d (RedisClient.init ∅ RedisClient.new) t 0.

(** No entry, or an entry whose TTL has run out. *)
Definition absent_or_expired (srv : RedisClient.server) (t : Z) (key : string) : Prop :=
  srv !! key = None \/
  exists data deadline, srv !! key = Some (data, deadline) /\ (deadline <= t)%Z.

(** A rendering of floats for the examples: the integer part, in decimal. *)
Definition format_int_part (x : R) : string := pretty (Int_part x).

(** The number of [:] delimiters in a key. *)
Fixpoint colons (s : string) : nat :=
  match s with
  | EmptyString => 0
  | String c s => (if Ascii.eqb c ":"%char then 1 else 0) + colons s
  end.

(** The text of a key before its first delimiter. *)
Fixpoint endpoint_kind (s : string) : string :=
  match s with
  | EmptyString => EmptyString
  | String c s => if Ascii.eqb c ":"%char then EmptyString else String c (endpoint_kind s)
  end.


(** The candidate rows of a competitor search. *)
Definition competitor_rows (db : Database) (target : Business.t) : list Business.t :=
  filter (fun b => startswith (Business.iae_code b)
                                (String.substring 0 2 (Business.iae_code target)) = true
                   /\ Business.id b <> Business.id target)
         (businesses db).

(** A query of either kind. *)
Inductive query :=
| QSearch (lat lon : R) (radius : Z)
| QCompetitors (business_id : string) (lat lon : R) (radius : Z).

(** The result list of a query; a competitor search for an unknown venue
    has none. *)
Definition results (db : Database) (q : query) : result (list dict) :=
  match q with
  | QSearch lat lon radius => get_processed_businesses db lat lon radius
  | QCompetitors business_id lat lon radius =>
      r ← get_processed_businesses_by_id db business_id lat lon radius;
      mret (default [] r)
  end.

(** The metric of a seeded venue. *)
Definition seed_metric (b : Business.t) (typology_val : Z) : R :=
  sigmoid_value (weighted_sum (Business.rentability b) (IZR typology_val)
                              (Business.proximity_to_urban_center_m b)).

(** The scored dict of a seeded venue at distance [dist]. *)
Definition seed_item (b : Business.t) (typology_val : Z) (dist : R) : dict :=
  <[ "metric" := VNum (seed_metric b typology_val) ]> (biz_data b dist).

(** A second venue with the attributes and the position of [biz_001], to
    have two equal metrics. *)
Definition twin_001 : Business.t :=
  Business.mk "biz_005" "Madrid Central Grill II" "E471.1" 85.0 100.0 40.4167 (-3.7037).

(** A database with the seeded typology table and the given venues. *)
Definition twin_database (rows : list Business.t) : Database :=
  {| businesses := rows; iae_categories := seed_iae_categories |}.

(** ** app/schemas/iae.py *)

Module IAECreate.
Record t := mk {
  iae_code : string;
  valor_tipologia : Z
}.

(** [valor_tipologia: int = Field(..., ge=1, le=1000)]: the bodies the
    route hands to its handler. *)
Definition valid (iae_data : t) : Prop := (1 <= valor_tipologia iae_data <= 1000)%Z.
End IAECreate.

(** ** app/main.py: the typology endpoint and the seeding *)

(** [db_entry.valor_tipologia = ...] followed by [commit]: the row with the
    primary key of [db_entry] gets the value, and keeps its place. *)
Definition set_valor_tipologia (db_entry : IAECategory.t) (valor_tipologia : Z)
    (rows : list IAECategory.t) : list IAECategory.t :=
  (fun row => if decide (IAECategory.id row = IAECategory.id db_entry)
              then IAECategory.mk (IAECategory.id row) (IAECategory.iae_code row)
                                  valor_tipologia
              else row) <$> rows.

(** [upsert_iae_category], as a function of the database: it returns the
    row it wrote and the database after [commit].  [new_id] is the primary
    key the database gives to an added row. *)
Definition upsert_iae_category (new_id : Z) (iae_data : IAECreate.t) (db : Database)
    : result (IAECategory.t * Database) :=
  db_entry ← scalar_one_or_none
    (filter (fun row => IAECategory.iae_code row = IAECreate.iae_code iae_data)
            (iae_categories db));
  match db_entry with
  | Some db_entry =>
      let db_entry' :=
        IAECategory.mk (IAECategory.id db_entry) (IAECategory.iae_code db_entry)
                       (IAECreate.valor_tipologia iae_data) in
      mret (db_entry',
            {| businesses := businesses db;
               iae_categories :=
                 set_valor_tipologia db_entry (IAECreate.valor_tipologia iae_data)
                                     (iae_categories db) |})
  | None =>
      let db_entry :=
        IAECategory.mk new_id (IAECreate.iae_code iae_data)
                       (IAECreate.valor_tipologia iae_data) in
      mret (db_entry,
            {| businesses := businesses db;
               iae_categories := iae_categories db ++ [db_entry] |})
  end.

(** [result.scalars().first()]. *)
Definition scalars_first {A} (rows : list A) : option A := head rows.

Module Startup.

(** [seed_database()]: each of the two tables is filled when a [select] on
    it finds no row. *)
Definition seed_database (db : Database) : Database :=
  let db :=
    match scalars_first (iae_categories db) with
    | None =>
        {| businesses := businesses db;
           iae_categories := iae_categories db ++ seed_iae_categories |}
    | Some _ => db
    end in
  match scalars_first (businesses db) with
  | None =>
      {| businesses := businesses db ++ [biz_001; biz_002; biz_003; biz_004];
         iae_categories := iae_categories db |}
  | Some _ => db
  end.

End Startup.

(** ** Vocabulary of the further statements *)

(** The great-circle distance from the query point to a venue. *)
Definition distance_to (lat lon : R) (b : Business.t) : R :=
  (6371000 * (2 * math_atan2
     (sqrt (hav lat lon (Business.latitude b) (Business.longitude b)))
     (sqrt (1 - hav lat lon (Business.latitude b) (Business.longitude b)))))%R.

(** The venue is within the radius, boundary included. *)
Definition in_radius (lat lon : R) (radius : Z) (b : Business.t) : Prop :=
  (distance_to lat lon b <= IZR radius)%R.

#[local] Instance in_radius_dec lat lon radius b : Decision (in_radius lat lon radius b) :=
  Rle_dec _ _.

(** The typology value the pipeline uses for a venue: 0 when its sector
    code has no row. *)
Definition typology_of (db : Database) (b : Business.t) : Z :=
  default 0%Z (iae_table db !! Business.iae_code b).

(** The metric of a venue, when it has one. *)
Definition metric_value (db : Database) (b : Business.t) : R :=
  sigmoid_value (weighted_sum (Business.rentability b) (IZR (typology_of db b))
                              (Business.proximity_to_urban_center_m b)).

(** The dict the pipeline returns for a venue. *)
Definition scored_item (db : Database) (lat lon : R) (b : Business.t) : dict :=
  <[ "metric" := VNum (metric_value db b) ]> (biz_data b (distance_to lat lon b)).

(** The venues the pipeline keeps, in table order. *)
Definition kept_rows (rows : list Business.t) (lat lon : R) (radius : Z) : list Business.t :=
  filter (in_radius lat lon radius) rows.

(** The venue can be scored: the calculator returns its metric. *)
Definition scorable (db : Database) (b : Business.t) : Prop :=
  venue_metric db b = Ok (metric_value db b).

(** A pipeline dict as the response shows it. *)
Definition shown (d : dict) : pyval := VDict (delete "distance_from_search_m" d).

(** The number is an integer. *)
Definition integral (x : R) : Prop := frac_part x = 0%R.

(** The typology values are within the range the endpoint accepts. *)
Definition typology_in_range (db : Database) : Prop :=
  Forall (fun row => (1 <= IAECategory.valor_tipologia row <= 1000)%Z) (iae_categories db).

(** The seeded venues in another order. *)
Definition reordered_seed_database : Database :=
  {| businesses := [biz_002; biz_001; biz_003; biz_004];
     iae_categories := seed_iae_categories |}.

(** A venue at the pole of the metric, at the origin. *)
Definition pole_venue : Business.t :=
  Business.mk "biz_009" "Null Island Kiosk" "E471.1" 50 (-1) 0 0.

(** A venue whose sector code has a wildcard of [LIKE] in its first two
    characters, at the origin. *)
Definition wildcard_venue : Business.t :=
  Business.mk "biz_011" "Null Island Cafe" "G_51.9" 50 100 0 0.

(** A database in which the sector code of the first venue matches that of
    the second through the wildcard, and not that of the third. *)
Definition wildcard_database : Database :=
  {| businesses := [wildcard_venue; biz_002; biz_001];
     iae_categories := seed_iae_categories |}.

(** A venue with a fractional rentability, at the origin. *)
Definition fractional_venue : Business.t :=
  Business.mk "biz_010" "Null Island Bar" "E471.1" 0.5 100 0 0.

(** A database with that venue and no typology row. *)
Definition untyped_database : Database :=
  {| businesses := [fractional_venue]; iae_categories := [] |}.

(** ** Proofs *)

Ltac result_simpl :=
  cbn [mbind result_bind mret result_ret fmap result_fmap] in *.

(** ** Facts about the calculator *)

Section CalculatorFacts.
#[local] Open Scope R_scope.

Lemma float_overflow_big : 2 ^ 53 < float_overflow.
Proof.
  unfold float_overflow.
  assert (H53 : 0 < 2 ^ 53) by (apply pow_lt; lra).
  assert (Hinv : / 2 ^ 53 <= 1).
  { rewrite <- Rinv_1. apply Rinv_le_contravar; [lra |]. apply pow_R1_Rle. lra. }
  assert (Hpow : 2 ^ 54 <= 2 ^ 1023) by (apply Rle_pow; [lra | lia]).
  assert (H54 : 2 ^ 54 = 2 * 2 ^ 53) by reflexivity.
  assert (Hpos : 0 < 2 ^ 1023) by (apply pow_lt; lra).
  apply Rlt_le_trans with (1 * 2 ^ 1023); [lra |].
  apply Rmult_le_compat_r; lra.
Qed.

(** A number of magnitude at most 2^53 is far inside the range. *)
Lemma fits_bound (x : R) : - 2 ^ 53 <= x <= 2 ^ 53 -> Rabs x < float_overflow.
Proof.
  intros [Hl Hu]. apply Rle_lt_trans with (2 ^ 53); [| apply float_overflow_big].
  apply Rabs_le. lra.
Qed.

Lemma pow_2_53_big : 1000000 <= 2 ^ 53.
Proof.
  apply Rle_trans with (2 ^ 20); [| apply Rle_pow; [lra | lia]].
  replace 2 with (IZR 2) by reflexivity. rewrite pow_IZR.
  apply IZR_le. vm_compute. discriminate.
Qed.

Lemma fits_modest (x : R) : -1000000 <= x <= 1000000 -> Rabs x < float_overflow.
Proof. intros H. apply fits_bound. pose proof pow_2_53_big. lra. Qed.

Lemma truediv_ok (x y : R) :
  y <> 0 -> Rabs (x / y) < float_overflow -> truediv x y = Ok (x / y).
Proof.
  intros Hy Hq. unfold truediv. destruct (Req_dec_T y 0); [contradiction |].
  destruct (Rlt_dec (Rabs (x / y)) float_overflow); [reflexivity | contradiction].
Qed.

Lemma truediv_overflow (x y : R) :
  y <> 0 -> float_overflow <= Rabs (x / y) -> truediv x y = Raise OverflowError.
Proof.
  intros Hy Hq. unfold truediv. destruct (Req_dec_T y 0); [contradiction |].
  destruct (Rlt_dec (Rabs (x / y)) float_overflow); [lra | reflexivity].
Qed.

(** What a division that returns has returned. *)
Lemma truediv_Ok_inv (x y q : R) : truediv x y = Ok q -> y <> 0 /\ q = x / y.
Proof.
  unfold truediv. destruct (Req_dec_T y 0); [discriminate |].
  destruct (Rlt_dec (Rabs (x / y)) float_overflow); [| discriminate].
  intros [= <-]. by split.
Qed.

Lemma truediv_zero (x : R) : truediv x 0 = Raise ZeroDivisionError.
Proof.
  unfold truediv. destruct (Req_dec_T 0 0) as [_ | Hne]; [reflexivity | now destruct Hne].
Qed.

Lemma exp_nat_power (n : nat) : exp (INR n) = exp 1 ^ n.
Proof.
  induction n as [| n IH].
  - simpl. apply exp_0.
  - rewrite S_INR, exp_plus, IH. simpl. ring.
Qed.

Lemma exp_100_in_range : exp 100 <= float_max.
Proof.
  replace 100 with (INR 100) by (rewrite INR_IZR_INZ; reflexivity).
  rewrite exp_nat_power.
  apply Rle_trans with (3 ^ 100).
  - apply pow_incr. split; [left; apply exp_pos | apply exp_le_3].
  - unfold float_max.
    apply Rle_trans with (1 * 2 ^ 1023).
    + rewrite Rmult_1_l.
      replace 3 with (IZR 3) by reflexivity.
      replace 2 with (IZR 2) by reflexivity.
      rewrite !pow_IZR. apply IZR_le. vm_compute. discriminate.
    + apply Rmult_le_compat_r.
      * apply pow_le. lra.
      * assert (H : / 2 ^ 52 <= 1).
        { rewrite <- Rinv_1. apply Rinv_le_contravar; [lra |].
          apply pow_R1_Rle. lra. }
        lra.
Qed.

Lemma math_exp_clamped (x : R) : x <= 100 -> math_exp x = Ok (exp x).
Proof.
  intros Hx. unfold math_exp.
  destruct (Rle_dec (exp x) float_max) as [_ | Hn]; [reflexivity |].
  exfalso. apply Hn.
  apply Rle_trans with (exp 100); [| apply exp_100_in_range].
  destruct Hx as [Hlt | ->]; [left; now apply exp_increasing | right; reflexivity].
Qed.

Lemma clamp_bounds (x : R) : -100 <= clamp x <= 100.
Proof.
  unfold clamp, Rmax, Rmin.
  destruct (Rle_dec x 100); destruct (Rle_dec _ (-100)); lra.
Qed.

Lemma clamp_id (x : R) : -100 <= x <= 100 -> clamp x = x.
Proof.
  intros [Hl Hu]. unfold clamp, Rmax, Rmin.
  destruct (Rle_dec x 100); destruct (Rle_dec _ (-100)); lra.
Qed.

Lemma clamp_mono (x y : R) : x <= y -> clamp x <= clamp y.
Proof.
  intros Hxy. unfold clamp, Rmax, Rmin.
  destruct (Rle_dec x 100); destruct (Rle_dec y 100);
    repeat destruct (Rle_dec _ (-100)); lra.
Qed.

(** The sigmoid never raises: its value is [1 / (1 + e^(-clamp x))]. *)
Lemma sigmoid_total (x : R) : sigmoid x = Ok (1 / (1 + exp (- clamp x))).
Proof.
  unfold sigmoid. fold (clamp x).
  pose proof (clamp_bounds x) as [Hl Hu].
  rewrite math_exp_clamped by lra. simpl.
  pose proof (exp_pos (- clamp x)) as He.
  apply truediv_ok; [lra |].
  apply fits_modest.
  assert (H1 : 0 < 1 / (1 + exp (- clamp x))) by (apply Rdiv_lt_0_compat; lra).
  assert (H2 : 1 / (1 + exp (- clamp x)) <= 1).
  { apply Rmult_le_reg_r with (1 + exp (- clamp x)); [lra |].
    unfold Rdiv. rewrite Rmult_assoc, Rinv_l by lra. lra. }
  lra.
Qed.

Lemma exp_scale_power (a : R) (n : nat) : exp (INR n * a) = exp a ^ n.
Proof.
  induction n as [| n IH].
  - simpl. rewrite Rmult_0_l. apply exp_0.
  - rewrite S_INR, Rmult_plus_distr_r, Rmult_1_l, exp_plus, IH. simpl. ring.
Qed.

Lemma fx_scale_pos : 0 < IZR fx_scale.
Proof. apply IZR_lt. reflexivity. Qed.

Lemma fx_nonneg (a : Z) : (0 <= a)%Z -> 0 <= fx a.
Proof.
  intros Ha. unfold fx. apply IZR_le in Ha. pose proof fx_scale_pos.
  apply Rmult_le_pos; [assumption | left; now apply Rinv_0_lt_compat].
Qed.

Lemma sq_down_sound (a : Z) : fx (sq_down a) <= fx a * fx a.
Proof.
  unfold fx, sq_down. pose proof fx_scale_pos as Hs.
  assert (H : (a * a / fx_scale * fx_scale <= a * a)%Z).
  { rewrite Z.mul_comm. apply Z.mul_div_le. reflexivity. }
  apply IZR_le in H. rewrite !mult_IZR in H.
  apply Rmult_le_reg_r with (IZR fx_scale * IZR fx_scale); [nra |].
  field_simplify; lra.
Qed.

Lemma sq_down_nonneg (a : Z) : (0 <= sq_down a)%Z.
Proof. unfold sq_down. apply Z.div_pos; [nia | reflexivity]. Qed.

Lemma pow_double (y : R) (k : nat) : y ^ (2 ^ S k) = y ^ (2 ^ k) * y ^ (2 ^ k).
Proof.
  replace (2 ^ S k)%nat with (2 ^ k + 2 ^ k)%nat by (simpl; lia).
  apply pow_add.
Qed.

Lemma iter_sq_down_sound (k : nat) (a : Z) (y : R) :
  (0 <= a)%Z -> fx a <= y -> fx (Nat.iter k sq_down a) <= y ^ (2 ^ k).
Proof.
  intros Ha Hy. induction k as [| k IH].
  - change (2 ^ 0)%nat with 1%nat. rewrite pow_1. exact Hy.
  - rewrite pow_double. cbn [Nat.iter].
    eapply Rle_trans; [apply sq_down_sound |].
    assert (H0 : 0 <= fx (Nat.iter k sq_down a)).
    { apply fx_nonneg. destruct k; [exact Ha | apply sq_down_nonneg]. }
    apply Rmult_le_compat; assumption.
Qed.

Lemma scenario_x_val : scenario_x = 4989 / 10100.
Proof. unfold scenario_x. lra. Qed.

Lemma scenario_x_split : scenario_x = INR (2 ^ 10) * (4989 / 10342400).
Proof.
  rewrite scenario_x_val, INR_IZR_INZ.
  change (Z.of_nat (2 ^ 10)) with 1024%Z. lra.
Qed.

Lemma ratio_le_fx (c d a : Z) :
  (0 < d)%Z -> (c * fx_scale <= a * d)%Z -> IZR c / IZR d <= fx a.
Proof.
  intros Hd H. unfold fx. pose proof fx_scale_pos as Hs.
  apply IZR_lt in Hd. apply IZR_le in H. rewrite !mult_IZR in H.
  apply Rmult_le_reg_r with (IZR d * IZR fx_scale); [nra |].
  field_simplify; lra.
Qed.

Lemma exp_neg_scenario_x_lower : 0.6101 <= exp (- scenario_x).
Proof.
  rewrite scenario_x_split, Ropp_mult_distr_r, exp_scale_power.
  apply Rle_trans with (fx (Nat.iter 10 sq_down 999517616800%Z)).
  - replace 0.6101 with (IZR 6101 / IZR 10000) by lra.
    apply ratio_le_fx; [lia |]. vm_compute. discriminate.
  - apply iter_sq_down_sound; [lia |].
    apply Rle_trans with (1 + - (4989 / 10342400)); [| apply exp_ineq1_le].
    unfold fx, fx_scale. simpl. lra.
Qed.

Lemma exp_neg_scenario_x_upper : exp (- scenario_x) <= 0.6104.
Proof.
  rewrite exp_Ropp, scenario_x_split, exp_scale_power.
  set (e := exp (4989 / 10342400) ^ 2 ^ 10).
  assert (H : 1 / 0.6104 <= e).
  { apply Rle_trans with (fx (Nat.iter 10 sq_down 1000482383199%Z)).
    - replace (1 / 0.6104) with (IZR 10000 / IZR 6104) by lra.
      apply ratio_le_fx; [lia |]. vm_compute. discriminate.
    - apply iter_sq_down_sound; [lia |].
      apply Rle_trans with (1 + 4989 / 10342400); [| apply exp_ineq1_le].
      unfold fx, fx_scale. simpl. lra. }
  assert (He : 0 < e) by lra.
  apply Rmult_le_reg_r with e; [exact He |].
  rewrite Rinv_l by lra. lra.
Qed.

Lemma sigmoid_value_range (x : R) : 0 < sigmoid_value x < 1.
Proof.
  unfold sigmoid_value. pose proof (exp_pos (- clamp x)) as He.
  split.
  - apply Rdiv_lt_0_compat; lra.
  - apply Rmult_lt_reg_r with (1 + exp (- clamp x)); [lra |].
    unfold Rdiv. rewrite Rmult_assoc, Rinv_l by lra. lra.
Qed.

Lemma exp_le_mono (a b : R) : a <= b -> exp a <= exp b.
Proof.
  intros [Hlt | ->]; [left; now apply exp_increasing | right; reflexivity].
Qed.

Lemma sigmoid_value_mono (x y : R) : x <= y -> sigmoid_value x <= sigmoid_value y.
Proof.
  intros Hxy. unfold sigmoid_value.
  pose proof (clamp_mono x y Hxy) as Hc.
  pose proof (exp_pos (- clamp x)) as Hx.
  pose proof (exp_pos (- clamp y)) as Hy.
  assert (He : exp (- clamp y) <= exp (- clamp x)) by (apply exp_le_mono; lra).
  unfold Rdiv. rewrite !Rmult_1_l.
  apply Rinv_le_contravar; lra.
Qed.

Lemma calculate_conversion_metric_ok (r t d : R) :
  d <> -1 ->
  Rabs (r / 100) < float_overflow ->
  Rabs (t / 1000) < float_overflow ->
  Rabs (1 / (1 + d)) < float_overflow ->
  calculate_conversion_metric r t d = Ok (sigmoid_value (weighted_sum r t d)).
Proof.
  intros Hd Hr Ht Hp. unfold calculate_conversion_metric.
  rewrite (truediv_ok r 100) by first [lra | exact Hr]. cbn [mbind result_bind].
  rewrite (truediv_ok t 1000) by first [lra | exact Ht]. cbn [mbind result_bind].
  rewrite (truediv_ok 1 (1 + d)) by first [lra | exact Hp]. cbn [mbind result_bind].
  apply sigmoid_total.
Qed.

(** The value of a metric that was returned. *)
Lemma calculate_conversion_metric_Ok_inv (r t d m : R) :
  calculate_conversion_metric r t d = Ok m ->
  d <> -1 /\ m = sigmoid_value (weighted_sum r t d).
Proof.
  unfold calculate_conversion_metric.
  destruct (truediv r 100) as [qr | e] eqn:Er; [| discriminate].
  destruct (truediv t 1000) as [qt | e] eqn:Et; [| discriminate].
  destruct (truediv 1 (1 + d)) as [qp | e] eqn:Ep; [| discriminate].
  cbn [mbind result_bind].
  apply truediv_Ok_inv in Er as [_ ->]. apply truediv_Ok_inv in Et as [_ ->].
  apply truediv_Ok_inv in Ep as [Hd ->].
  rewrite sigmoid_total. intros [= <-]. split; [lra | reflexivity].
Qed.

Lemma calculate_conversion_metric_raises (r t : R) :
  Rabs (r / 100) < float_overflow ->
  Rabs (t / 1000) < float_overflow ->
  calculate_conversion_metric r t (-1) = Raise ZeroDivisionError.
Proof.
  intros Hr Ht. unfold calculate_conversion_metric.
  rewrite (truediv_ok r 100) by first [lra | exact Hr]. cbn [mbind result_bind].
  rewrite (truediv_ok t 1000) by first [lra | exact Ht]. cbn [mbind result_bind].
  replace (1 + -1) with 0 by lra. rewrite truediv_zero. reflexivity.
Qed.

Lemma calculate_conversion_metric_overflow (r t d : R) :
  float_overflow <= Rabs (r / 100) ->
  calculate_conversion_metric r t d = Raise OverflowError.
Proof.
  intros Hr. unfold calculate_conversion_metric.
  rewrite (truediv_overflow r 100) by first [lra | exact Hr]. reflexivity.
Qed.

Lemma proximity_range (d : R) : 0 <= d -> 0 < 1 / (1 + d) <= 1.
Proof.
  intros Hd. split.
  - apply Rdiv_lt_0_compat; lra.
  - apply Rmult_le_reg_r with (1 + d); [lra |].
    unfold Rdiv. rewrite Rmult_assoc, Rinv_l by lra. lra.
Qed.

Lemma weighted_sum_domain (r t d : R) :
  0 <= r <= 100 -> 0 <= t <= 1000 -> 0 <= d ->
  0 < weighted_sum r t d <= 1.
Proof.
  intros Hr Ht Hd. unfold weighted_sum.
  pose proof (proximity_range d Hd) as Hp.
  lra.
Qed.

(** Inside the domain no division fails. *)
Lemma calculate_conversion_metric_in_domain (r t d : R) :
  0 <= r <= 100 -> 0 <= t <= 1000 -> 0 <= d ->
  calculate_conversion_metric r t d = Ok (sigmoid_value (weighted_sum r t d)).
Proof.
  intros Hr Ht Hd. pose proof (proximity_range d Hd) as Hp.
  apply calculate_conversion_metric_ok; [lra | apply fits_modest; lra ..].
Qed.

Lemma proximity_antitone (d1 d2 : R) :
  0 <= d1 -> d1 <= d2 -> 1 / (1 + d2) <= 1 / (1 + d1).
Proof.
  intros H0 H12. unfold Rdiv. rewrite !Rmult_1_l.
  apply Rinv_le_contravar; lra.
Qed.

(** C5: within the domain (rentability in [0,100], typology value in
    [0,1000], distance >= 0) the calculator returns a metric strictly
    between 0 and 1. *)
Theorem C5_metric_strictly_inside_unit_interval (r t d : R) :
  0 <= r <= 100 -> 0 <= t <= 1000 -> 0 <= d ->
  exists m, calculate_conversion_metric r t d = Ok m /\ 0 < m < 1.
Proof.
  intros Hr Ht Hd. exists (sigmoid_value (weighted_sum r t d)). split.
  - by apply calculate_conversion_metric_in_domain.
  - apply sigmoid_value_range.
Qed.

Lemma C5_metric_strictly_inside_unit_interval_witness :
  exists m, calculate_conversion_metric 85 800 100 = Ok m /\ 0 < m < 1.
Proof.
  apply (C5_metric_strictly_inside_unit_interval 85 800 100); lra.
Defined.

(** C6: inside the domain and with the other two inputs fixed, the metric
    is non-decreasing in rentability, non-decreasing in the typology
    value and non-increasing in the distance. *)
Theorem C6_metric_monotone (r t d r' t' d' : R) :
  0 <= r <= 100 -> 0 <= t <= 1000 -> 0 <= d ->
  0 <= r' <= 100 -> 0 <= t' <= 1000 -> 0 <= d' ->
  exists m,
    calculate_conversion_metric r t d = Ok m /\
    (r <= r' -> exists m', calculate_conversion_metric r' t d = Ok m' /\ m <= m') /\
    (t <= t' -> exists m', calculate_conversion_metric r t' d = Ok m' /\ m <= m') /\
    (d <= d' -> exists m', calculate_conversion_metric r t d' = Ok m' /\ m' <= m).
Proof.
  intros Hr Ht Hd Hr' Ht' Hd'.
  exists (sigmoid_value (weighted_sum r t d)).
  split; [apply calculate_conversion_metric_in_domain; lra |].
  repeat split; intros Hle.
  - exists (sigmoid_value (weighted_sum r' t d)).
    split; [apply calculate_conversion_metric_in_domain; lra |].
    apply sigmoid_value_mono. unfold weighted_sum. lra.
  - exists (sigmoid_value (weighted_sum r t' d)).
    split; [apply calculate_conversion_metric_in_domain; lra |].
    apply sigmoid_value_mono. unfold weighted_sum. lra.
  - exists (sigmoid_value (weighted_sum r t d')).
    split; [apply calculate_conversion_metric_in_domain; lra |].
    apply sigmoid_value_mono. unfold weighted_sum.
    pose proof (proximity_antitone d d' Hd Hle). lra.
Qed.

Lemma C6_metric_monotone_witness :
  exists m,
    calculate_conversion_metric 60 450 200 = Ok m /\
    (60 <= 85 -> exists m', calculate_conversion_metric 85 450 200 = Ok m' /\ m <= m') /\
    (450 <= 800 -> exists m', calculate_conversion_metric 60 800 200 = Ok m' /\ m <= m') /\
    (200 <= 900 -> exists m', calculate_conversion_metric 60 450 900 = Ok m' /\ m' <= m).
Proof.
  apply (C6_metric_monotone 60 450 200 85 800 900); lra.
Defined.

(** C9, as stated, fails: a proximity of exactly -1 m makes the
    denominator [1 + distance_m] zero and the division raises. *)
Lemma C9_negative_distance_raises :
  calculate_conversion_metric 50 500 (-1) = Raise ZeroDivisionError /\
  ~ (forall r t d : R, exists m, calculate_conversion_metric r t d = Ok m).
Proof.
  assert (H : calculate_conversion_metric 50 500 (-1) = Raise ZeroDivisionError).
  { apply calculate_conversion_metric_raises; apply fits_modest; lra. }
  split; [exact H |].
  intros Hall. destruct (Hall 50 500 (-1)) as [m Hm].
  rewrite H in Hm. discriminate.
Qed.

Lemma proximity_fits (d : R) :
  / 2 ^ 53 <= Rabs (1 + d) -> d <> -1 /\ Rabs (1 / (1 + d)) < float_overflow.
Proof.
  intros Hd.
  assert (H53 : 0 < 2 ^ 53) by (apply pow_lt; lra).
  assert (Hinv : 0 < / 2 ^ 53) by now apply Rinv_0_lt_compat.
  split.
  - intros ->. replace (1 + -1) with 0 in Hd by lra. rewrite Rabs_R0 in Hd. lra.
  - apply Rle_lt_trans with (2 ^ 53); [| apply float_overflow_big].
    unfold Rdiv. rewrite Rmult_1_l, Rabs_inv.
    rewrite <- (Rinv_inv (2 ^ 53)).
    apply Rinv_le_contravar; [exact Hinv | exact Hd].
Qed.

Lemma float_overflow_le : float_overflow <= 10 ^ 398.
Proof.
  unfold float_overflow.
  assert (Hinv : 0 < / 2 ^ 53) by (apply Rinv_0_lt_compat, pow_lt; lra).
  assert (Hpos : 0 < 2 ^ 1023) by (apply pow_lt; lra).
  apply Rle_trans with (2 * 2 ^ 1023); [apply Rmult_le_compat_r; lra |].
  change (2 * 2 ^ 1023) with (2 ^ 1024).
  replace 2 with (IZR 2) by reflexivity.
  replace 10 with (IZR 10) by reflexivity.
  rewrite !pow_IZR. apply IZR_le. vm_compute. discriminate.
Qed.

(** C9 (amended): the calculator returns a value, in (0, 1], for every
    numeric input whose quotients [rentability / 100] and
    [typology_val / 1000] have a double and whose distance is at least 2^-53
    away from -1, as every float and every int other than -1 is: negative
    distances and out-of-range rentabilities included.  At a distance of -1
    the division by [1 + distance_m] raises [ZeroDivisionError]; a
    rentability or typology value whose quotient has no double (an int
    beyond the range of a double) raises [OverflowError].  The sigmoid
    returns for every argument, because the clamp keeps the argument of the
    exponential within [-100, 100], where [math.exp] does not overflow. *)
Theorem C9_scoring_total_off_pole :
  (forall r t d : R,
     Rabs (r / 100) < float_overflow -> Rabs (t / 1000) < float_overflow ->
     / 2 ^ 53 <= Rabs (1 + d) ->
     exists m, calculate_conversion_metric r t d = Ok m /\ 0 < m <= 1) /\
  (forall r t : R,
     Rabs (r / 100) < float_overflow -> Rabs (t / 1000) < float_overflow ->
     calculate_conversion_metric r t (-1) = Raise ZeroDivisionError) /\
  (forall r t d : R,
     float_overflow <= Rabs (r / 100) \/
     (Rabs (r / 100) < float_overflow /\ float_overflow <= Rabs (t / 1000)) ->
     calculate_conversion_metric r t d = Raise OverflowError) /\
  (forall x : R,
     -100 <= Rmax (Rmin x 100) (-100) <= 100 /\
     math_exp (- Rmax (Rmin x 100) (-100)) = Ok (exp (- Rmax (Rmin x 100) (-100))) /\
     exists y, sigmoid x = Ok y /\ 0 < y <= 1).
Proof.
  split_and!.
  - intros r t d Hr Ht Hd. destruct (proximity_fits d Hd) as [Hne Hp].
    exists (sigmoid_value (weighted_sum r t d)). split.
    + by apply calculate_conversion_metric_ok.
    + pose proof (sigmoid_value_range (weighted_sum r t d)). lra.
  - intros r t Hr Ht. by apply calculate_conversion_metric_raises.
  - intros r t d [Hr | [Hr Ht]].
    + by apply calculate_conversion_metric_overflow.
    + unfold calculate_conversion_metric.
      rewrite (truediv_ok r 100) by first [lra | exact Hr]. cbn [mbind result_bind].
      rewrite (truediv_overflow t 1000) by first [lra | exact Ht]. reflexivity.
  - intros x. fold (clamp x). pose proof (clamp_bounds x) as Hc.
    split; [exact Hc |]. split.
    + apply math_exp_clamped. lra.
    + exists (sigmoid_value x). split; [apply sigmoid_total |].
      pose proof (sigmoid_value_range x). lra.
Qed.

Lemma C9_scoring_total_off_pole_witness :
  (exists m, calculate_conversion_metric 150 0 (-7) = Ok m /\ 0 < m <= 1) /\
  calculate_conversion_metric 50 500 (-1) = Raise ZeroDivisionError /\
  calculate_conversion_metric (10 ^ 400) 800 100 = Raise OverflowError /\
  (exists y, sigmoid 1000 = Ok y /\ 0 < y <= 1).
Proof.
  destruct C9_scoring_total_off_pole as (Hcalc & Hpole & Hover & Hsig).
  assert (H53 : 1 <= 2 ^ 53) by (apply pow_R1_Rle; lra).
  split_and!.
  - apply Hcalc; [apply fits_modest; lra | apply fits_modest; lra |].
    replace (1 + -7) with (-6) by lra. rewrite Rabs_left by lra.
    apply Rle_trans with 1; [| lra].
    rewrite <- Rinv_1. apply Rinv_le_contravar; lra.
  - apply Hpole; apply fits_modest; lra.
  - apply Hover. left.
    replace (10 ^ 400 / 100) with (10 ^ 398).
    + rewrite Rabs_right; [apply float_overflow_le |].
      apply Rle_ge, pow_le. lra.
    + replace (10 ^ 400) with (10 ^ 398 * 10 ^ 2) by (rewrite <- pow_add; reflexivity).
      lra.
  - apply (Hsig 1000).
Defined.

End CalculatorFacts.

(** ** The stable sort *)

Section StableSort.
Context {A : Type}.
Implicit Types (l : list (R * A)) (k m : R) (x : A).

Lemma insert_desc_Permutation k x l : insert_desc k x l ≡ₚ (k, x) :: l.
Proof.
  induction l as [| [k' y] l IH]; cbn [insert_desc]; [done |].
  destruct (Rlt_dec k k'); [| done].
  rewrite IH. apply Permutation_swap.
Qed.

Lemma sort_desc_cons k x l :
  sort_desc ((k, x) :: l) = insert_desc k x (sort_desc l).
Proof. reflexivity. Qed.

Lemma sort_desc_Permutation l : sort_desc l ≡ₚ l.
Proof.
  induction l as [| [k x] l IH]; [done |].
  rewrite sort_desc_cons, insert_desc_Permutation. by f_equiv.
Qed.

Lemma insert_desc_descending k x l :
  descending fst l -> descending fst (insert_desc k x l).
Proof.
  unfold descending. induction l as [| [k' y] l IH]; intros Hl; cbn [insert_desc].
  - repeat constructor.
  - apply StronglySorted_inv in Hl as [Hl Hall].
    destruct (Rlt_dec k k') as [Hlt | Hge].
    + constructor; [by apply IH |].
      rewrite insert_desc_Permutation. constructor; [cbn; lra | done].
    + constructor; [by constructor |].
      constructor; [cbn; lra |].
      eapply Forall_impl; [exact Hall |]. cbn. intros [k'' z] ?. cbn in *. lra.
Qed.

Lemma sort_desc_descending l : descending fst (sort_desc l).
Proof.
  induction l as [| [k x] l IH]; [constructor |].
  rewrite sort_desc_cons. by apply insert_desc_descending.
Qed.



End StableSort.

(** ** Monadic plumbing *)

Lemma bind_Ok {A B} (m : result A) (k : A -> result B) (b : B) :
  m ≫= k = Ok b -> exists a, m = Ok a /\ k a = Ok b.
Proof. destruct m as [a | e]; result_simpl; [eauto | discriminate]. Qed.

Lemma mapM_Ok {A B} (f : A -> result B) (l : list A) (l' : list B) :
  mapM f l = Ok l' <-> Forall2 (fun x y => f x = Ok y) l l'.
Proof.
  revert l'. induction l as [| x l IH]; intros l'; cbn [mapM].
  - split.
    + intros [= <-]. constructor.
    + intros ->%Forall2_nil_inv_l. reflexivity.
  - split.
    + intros (y & Hy & H)%bind_Ok. apply bind_Ok in H as (k & Hk & [= <-]).
      constructor; [done | by apply IH].
    + intros (y & k & Hy & Hk & ->)%Forall2_cons_inv_l.
      rewrite Hy. result_simpl. apply IH in Hk. rewrite Hk. reflexivity.
Qed.

(** ** Sorting by a key *)

Section SortByKey.
Context {A : Type} (key : A -> R).

Lemma keyed_snd l : (keyed key l).*2 = l.
Proof. unfold keyed. rewrite <- list_fmap_compose. apply list_fmap_id. Qed.

Lemma sort_keyed_Permutation l : (sort_desc (keyed key l)).*2 ≡ₚ l.
Proof. rewrite sort_desc_Permutation. by rewrite keyed_snd. Qed.

Lemma sort_keyed_coherent l :
  Forall (fun kx => kx.1 = key kx.2) (sort_desc (keyed key l)).
Proof.
  rewrite sort_desc_Permutation. unfold keyed.
  apply Forall_fmap, Forall_true. done.
Qed.

Lemma sort_keyed_descending l : descending key (sort_desc (keyed key l)).*2.
Proof.
  unfold descending.
  pose proof (sort_desc_descending (keyed key l)) as Hs.
  pose proof (sort_keyed_coherent l) as Hc.
  unfold descending in Hs.
  induction Hs as [| [k x] s Hs IH Hall]; [constructor |].
  apply Forall_cons in Hc as [Hx Hc]. cbn in Hx. subst k.
  csimpl. constructor; [by apply IH |].
  apply Forall_fmap. clear IH Hs.
  induction Hall as [| [k' y] s Hy Hall IH]; [constructor |].
  apply Forall_cons in Hc as [Hk' Hc]. cbn in *. subst k'.
  constructor; [done | by apply IH].
Qed.


End SortByKey.

(** ** The ranking pipeline *)

Lemma metric_key_Ok (d : dict) (m : R) :
  metric_key d = Ok m <-> d !! "metric" = Some (VNum m).
Proof.
  unfold metric_key, getitem.
  destruct (d !! "metric") as [[| | r | |] |] eqn:E; result_simpl; cbn;
    split; intros H; try discriminate; by simplify_eq.
Qed.

Lemma metric_key_metric_of (d : dict) (m : R) : metric_key d = Ok m -> metric_of d = m.
Proof. intros H%metric_key_Ok. unfold metric_of. by rewrite H. Qed.

Lemma sorted_reverse_Ok (l out : list dict) :
  sorted_reverse metric_key l = Ok out ->
  Forall has_metric l /\ out = (sort_desc (keyed metric_of l)).*2.
Proof.
  unfold sorted_reverse. intros (ks & Hks & [= <-])%bind_Ok.
  apply mapM_Ok in Hks.
  assert (H : Forall has_metric l /\ ks = keyed metric_of l).
  { induction Hks as [| x [k y] l ks Hx _ [IH1 IH2]]; [by split |].
    apply bind_Ok in Hx as (m & Hm & [= <- <-]).
    split.
    - constructor; [| done]. exists m. by apply metric_key_Ok.
    - cbn. by rewrite (metric_key_metric_of _ _ Hm), IH2. }
  destruct H as [H1 ->]. by split.
Qed.

Lemma sorted_reverse_total (l : list dict) :
  Forall has_metric l -> exists out, sorted_reverse metric_key l = Ok out.
Proof.
  intros Hl. unfold sorted_reverse.
  assert (H : mapM (fun x => k ← metric_key x; mret (k, x)) l = Ok (keyed metric_of l)).
  { apply mapM_Ok. induction Hl as [| x l [m Hm] _ IH]; [constructor |].
    constructor; [| exact IH].
    apply metric_key_Ok in Hm as Hk. rewrite Hk. result_simpl.
    by rewrite (metric_key_metric_of _ _ Hk). }
  rewrite H. result_simpl. eauto.
Qed.

Lemma nearby_loop_Ok rows lat lon radius acc codes nearby codes' :
  nearby_loop rows lat lon radius acc codes = Ok (nearby, codes') ->
  exists kept : list (Business.t * R),
    nearby = acc ++ (biz_data_of <$> kept) /\
    kept.*1 `sublist_of` rows /\
    Forall (within lat lon radius) kept /\
    codes ⊆ codes' /\
    Forall (fun bd => Business.iae_code bd.1 ∈ codes') kept.
Proof.
  revert acc codes nearby codes'.
  induction rows as [| b rows IH]; intros acc codes nearby codes'; cbn [nearby_loop].
  - intros [= <- <-]. exists []. rewrite app_nil_r. split_and!; try done; constructor.
  - intros (dist & Hd & H)%bind_Ok.
    destruct (Rle_dec dist (IZR radius)) as [Hle | Hgt].
    + apply IH in H as (kept & -> & Hsub & Hin & Hcodes & Hk).
      exists ((b, dist) :: kept). rewrite <- app_assoc. split_and!.
      * reflexivity.
      * cbn. by apply sublist_skip.
      * constructor; [by split | done].
      * set_solver.
      * constructor; [cbn; set_solver | done].
    + apply IH in H as (kept & -> & Hsub & Hin & Hcodes & Hk).
      exists kept. split_and!; try done. by apply sublist_cons.
Qed.

Lemma iae_map_of_lookup (rows : list IAECategory.t) (codes : gset string) (c : string) :
  c ∈ codes ->
  iae_map_of rows codes !! c
  = foldl (fun m row => <[ IAECategory.iae_code row := IAECategory.valor_tipologia row ]> m)
          (∅ : gmap string Z) rows !! c.
Proof.
  intros Hc. unfold iae_map_of.
  assert (H : forall m1 m2 : gmap string Z, m1 !! c = m2 !! c ->
    foldl (fun m row => <[ IAECategory.iae_code row := IAECategory.valor_tipologia row ]> m)
      m1 (filter (fun row => IAECategory.iae_code row ∈ codes) rows) !! c
    = foldl (fun m row => <[ IAECategory.iae_code row := IAECategory.valor_tipologia row ]> m)
      m2 rows !! c); [| by apply H].
  induction rows as [| row rows IH]; intros m1 m2 Hm; [done |].
  rewrite filter_cons. cbn [foldl]. case_decide as Hrow.
  - cbn [foldl]. apply IH.
    destruct (decide (IAECategory.iae_code row = c)) as [-> | Hne].
    + by rewrite !lookup_insert_eq.
    + by rewrite !lookup_insert_ne.
  - apply IH. rewrite lookup_insert_ne; [done |].
    intros Heq. apply Hrow. by rewrite Heq.
Qed.

Lemma score_biz_data (iae_map : gmap string Z) (b : Business.t) (dist : R) :
  score iae_map (biz_data b dist)
  = (metric ← calculate_conversion_metric
                (Business.rentability b)
                (IZR (default 0%Z (iae_map !! Business.iae_code b)))
                (Business.proximity_to_urban_center_m b);
     mret (<[ "metric" := VNum metric ]> (biz_data b dist))).
Proof. reflexivity. Qed.

Lemma scored_from_metric db bd s : scored_from db bd s -> has_metric s.
Proof. intros (m & _ & ->). exists m. reflexivity. Qed.

Lemma rank_Ok db rows lat lon radius out :
  rank db rows lat lon radius = Ok out ->
  exists (kept : list (Business.t * R)) (codes : gset string) (scored : list dict),
    nearby_loop rows lat lon radius [] ∅ = Ok (biz_data_of <$> kept, codes) /\
    kept.*1 `sublist_of` rows /\
    Forall (within lat lon radius) kept /\
    Forall2 (scored_from db) kept scored /\
    out = (sort_desc (keyed metric_of scored)).*2.
Proof.
  unfold rank. intros ([nearby codes] & Hloop & H)%bind_Ok.
  destruct (nearby_loop_Ok _ _ _ _ _ _ _ _ Hloop) as (kept & Hn & Hsub & Hin & _ & Hcodes).
  rewrite app_nil_l in Hn. subst nearby.
  exists kept, codes.
  destruct kept as [| bd kept].
  - cbn in H. injection H as <-. exists []. split_and!; first [done | constructor].
  - change (biz_data_of <$> bd :: kept) with (biz_data_of bd :: (biz_data_of <$> kept)) in H.
    cbv iota beta in H. apply bind_Ok in H as (scored & Hsc & Hsort).
    apply sorted_reverse_Ok in Hsort as [_ ->].
    exists scored. split_and!; try done.
    apply mapM_Ok in Hsc.
    change (biz_data_of bd :: (biz_data_of <$> kept)) with (biz_data_of <$> bd :: kept) in Hsc.
    apply Forall2_fmap_l in Hsc.
    revert scored Hcodes Hsc. generalize (bd :: kept) as l. clear Hloop Hsub Hin.
    induction l as [| [b d] l IH]; intros scored Hcodes Hsc.
    + apply Forall2_nil_inv_l in Hsc as ->. constructor.
    + apply Forall2_cons_inv_l in Hsc as (s & scored' & Hs & Hsc & ->).
      apply Forall_cons in Hcodes as [Hc Hcodes].
      constructor; [| by apply IH].
      unfold compose, biz_data_of in Hs. cbn [fst snd] in Hs, Hc.
      rewrite score_biz_data in Hs. apply bind_Ok in Hs as (m & Hm & [= <-]).
      exists m. split; [| done].
      unfold venue_metric, iae_table. cbn [fst].
      by rewrite <- (iae_map_of_lookup _ codes).
Qed.

(** ** The distance engine *)

Section Haversine.
#[local] Open Scope R_scope.

Lemma sin_half_sqr (x : R) : sin (x / 2) ^ 2 = (1 - cos x) / 2.
Proof.
  replace x with (2 * (x / 2)) at 2 by lra.
  rewrite cos_2a_sin. lra.
Qed.

Lemma hav_bounds lat1 lon1 lat2 lon2 : 0 <= hav lat1 lon1 lat2 lon2 <= 1.
Proof.
  unfold hav. rewrite !sin_half_sqr.
  replace (math_radians (lat2 - lat1))
    with (math_radians lat2 - math_radians lat1) by (unfold math_radians; lra).
  rewrite cos_minus.
  set (p1 := math_radians lat1). set (p2 := math_radians lat2).
  pose proof (sin2_cos2 p1) as H1. pose proof (sin2_cos2 p2) as H2.
  pose proof (COS_bound (math_radians (lon2 - lon1))) as [Hl Hu].
  unfold Rsqr in H1, H2.
  set (s1 := sin p1) in *. set (c1 := cos p1) in *.
  set (s2 := sin p2) in *. set (c2 := cos p2) in *.
  set (cl := cos (math_radians (lon2 - lon1))) in *.
  clearbody s1 c1 s2 c2 cl. clear p1 p2.
  assert (Ha : s1 * s2 + c1 * c2 <= 1).
  { pose proof (Rle_0_sqr (s1 - s2)). pose proof (Rle_0_sqr (c1 - c2)).
    unfold Rsqr in *. lra. }
  assert (Hb : s1 * s2 - c1 * c2 <= 1).
  { pose proof (Rle_0_sqr (s1 - s2)). pose proof (Rle_0_sqr (c1 + c2)).
    unfold Rsqr in *. lra. }
  assert (Hc : -1 <= s1 * s2 + c1 * c2).
  { pose proof (Rle_0_sqr (s1 + s2)). pose proof (Rle_0_sqr (c1 + c2)).
    unfold Rsqr in *. lra. }
  assert (Hd : -1 <= s1 * s2 - c1 * c2).
  { pose proof (Rle_0_sqr (s1 + s2)). pose proof (Rle_0_sqr (c1 - c2)).
    unfold Rsqr in *. lra. }
  assert (Hk : -1 <= s1 * s2 + c1 * c2 * cl <= 1).
  { pose proof (Rmult_le_pos (1 + cl) (1 - (s1 * s2 + c1 * c2)) ltac:(lra) ltac:(lra)).
    pose proof (Rmult_le_pos (1 - cl) (1 - (s1 * s2 - c1 * c2)) ltac:(lra) ltac:(lra)).
    pose proof (Rmult_le_pos (1 + cl) (1 + (s1 * s2 + c1 * c2)) ltac:(lra) ltac:(lra)).
    pose proof (Rmult_le_pos (1 - cl) (1 + (s1 * s2 - c1 * c2)) ltac:(lra) ltac:(lra)).
    split; lra. }
  split; lra.
Qed.

Lemma math_sqrt_Ok (x : R) : 0 <= x -> math_sqrt x = Ok (sqrt x).
Proof. intros Hx. unfold math_sqrt. destruct (Rlt_dec x 0); [lra | reflexivity]. Qed.

(** Over the reals the square roots never fail, so the distance is
    always defined. *)
Lemma haversine_distance_Ok lat1 lon1 lat2 lon2 :
  haversine_distance lat1 lon1 lat2 lon2
  = Ok (6371000 * (2 * math_atan2 (sqrt (hav lat1 lon1 lat2 lon2))
                                  (sqrt (1 - hav lat1 lon1 lat2 lon2)))).
Proof.
  pose proof (hav_bounds lat1 lon1 lat2 lon2) as [H0 H1].
  unfold haversine_distance. fold (hav lat1 lon1 lat2 lon2).
  rewrite !math_sqrt_Ok by lra. reflexivity.
Qed.

Lemma math_atan2_nonneg (y x : R) : 0 <= y -> 0 <= x -> 0 <= math_atan2 y x.
Proof.
  intros Hy Hx. unfold math_atan2. pose proof PI_RGT_0 as Hpi.
  destruct (Rlt_dec 0 x) as [Hx' |].
  - destruct Hy as [Hy | <-].
    + left. rewrite <- atan_0. apply atan_increasing.
      apply Rdiv_lt_0_compat; assumption.
    + unfold Rdiv. rewrite Rmult_0_l, atan_0. lra.
  - destruct (Rlt_dec x 0); [lra |].
    destruct (Rlt_dec 0 y); [lra |].
    destruct (Rlt_dec y 0); lra.
Qed.

Lemma math_atan2_pos (y x : R) : 0 < y -> 0 <= x -> 0 < math_atan2 y x.
Proof.
  intros Hy Hx. unfold math_atan2. pose proof PI_RGT_0 as Hpi.
  destruct (Rlt_dec 0 x) as [Hx' |].
  - rewrite <- atan_0. apply atan_increasing.
    apply Rdiv_lt_0_compat; assumption.
  - destruct (Rlt_dec x 0); [lra |].
    destruct (Rlt_dec 0 y); lra.
Qed.

Lemma haversine_distance_nonneg lat1 lon1 lat2 lon2 :
  exists d, haversine_distance lat1 lon1 lat2 lon2 = Ok d /\ 0 <= d.
Proof.
  eexists. split; [apply haversine_distance_Ok |].
  pose proof (hav_bounds lat1 lon1 lat2 lon2) as [H0 H1].
  pose proof (math_atan2_nonneg (sqrt (hav lat1 lon1 lat2 lon2))
                (sqrt (1 - hav lat1 lon1 lat2 lon2))
                (sqrt_pos _) (sqrt_pos _)).
  lra.
Qed.

Lemma hav_same_point lat lon : hav lat lon lat lon = 0.
Proof.
  unfold hav, math_radians.
  replace ((lat - lat) * PI / 180 / 2) with 0 by lra.
  replace ((lon - lon) * PI / 180 / 2) with 0 by lra.
  rewrite sin_0. lra.
Qed.

(** The distance from a point to itself is 0. *)
Lemma haversine_distance_same_point lat lon :
  haversine_distance lat lon lat lon = Ok 0.
Proof.
  rewrite haversine_distance_Ok, hav_same_point.
  rewrite Rminus_0_r, sqrt_0, sqrt_1.
  unfold math_atan2. destruct (Rlt_dec 0 1); [| lra].
  unfold Rdiv. rewrite Rmult_0_l, atan_0. f_equal. lra.
Qed.

(** Two points on different parallels are at a positive distance. *)
Lemma haversine_distance_pos lat1 lon1 lat2 lon2 :
  -90 <= lat1 <= 90 -> -90 <= lat2 <= 90 -> lat1 <> lat2 ->
  exists d, haversine_distance lat1 lon1 lat2 lon2 = Ok d /\ 0 < d.
Proof.
  intros Hl1 Hl2 Hne. eexists. split; [apply haversine_distance_Ok |].
  pose proof (hav_bounds lat1 lon1 lat2 lon2) as [H0 H1].
  pose proof PI_RGT_0 as Hpi.
  assert (Hpos : 0 < hav lat1 lon1 lat2 lon2).
  { unfold hav.
    assert (Hs : sin (math_radians (lat2 - lat1) / 2) <> 0).
    { unfold math_radians.
      destruct (Rlt_dec lat1 lat2).
      - apply Rgt_not_eq, sin_gt_0; nra.
      - apply Rlt_not_eq, sin_lt_0_var; nra. }
    assert (Hc1 : 0 <= cos (math_radians lat1)).
    { apply cos_ge_0; unfold math_radians; nra. }
    assert (Hc2 : 0 <= cos (math_radians lat2)).
    { apply cos_ge_0; unfold math_radians; nra. }
    assert (0 < sin (math_radians (lat2 - lat1) / 2) ^ 2).
    { rewrite <- Rsqr_pow2. by apply Rsqr_pos_lt. }
    assert (0 <= sin (math_radians (lon2 - lon1) / 2) ^ 2) by apply pow2_ge_0.
    assert (0 <= cos (math_radians lat1) * cos (math_radians lat2)
                 * sin (math_radians (lon2 - lon1) / 2) ^ 2).
    { apply Rmult_le_pos; [apply Rmult_le_pos |]; assumption. }
    lra. }
  pose proof (math_atan2_pos (sqrt (hav lat1 lon1 lat2 lon2))
                (sqrt (1 - hav lat1 lon1 lat2 lon2))
                (sqrt_lt_R0 _ Hpos) (sqrt_pos _)).
  lra.
Qed.

Lemma round_half_even_0 : round_half_even 0 = 0%Z.
Proof.
  unfold round_half_even.
  assert (Hi : Int_part 0 = 0%Z).
  { symmetry. apply (Int_part_spec 0 0). simpl. lra. }
  assert (Hf : frac_part 0 = 0).
  { unfold frac_part. rewrite Hi. simpl. lra. }
  rewrite Hf, Hi. destruct (Rlt_dec 0 (1 / 2)); [reflexivity | lra].
Qed.

Lemma round_0 (ndigits : nat) : round 0 ndigits = 0.
Proof.
  unfold round. rewrite Rmult_0_l, round_half_even_0.
  unfold Rdiv. apply Rmult_0_l.
Qed.

End Haversine.

(** ** Running the pipeline on the seeded database *)

Lemma nearby_loop_keep b rows lat lon radius acc codes d :
  haversine_distance lat lon (Business.latitude b) (Business.longitude b) = Ok d ->
  (d <= IZR radius)%R ->
  nearby_loop (b :: rows) lat lon radius acc codes
  = nearby_loop rows lat lon radius (acc ++ [biz_data b d]) (codes ∪ {[ Business.iae_code b ]}).
Proof.
  intros Hd Hle. cbn [nearby_loop]. rewrite Hd. result_simpl.
  destruct (Rle_dec d (IZR radius)); [reflexivity | contradiction].
Qed.

Lemma nearby_loop_skip b rows lat lon radius acc codes d :
  haversine_distance lat lon (Business.latitude b) (Business.longitude b) = Ok d ->
  (IZR radius < d)%R ->
  nearby_loop (b :: rows) lat lon radius acc codes
  = nearby_loop rows lat lon radius acc codes.
Proof.
  intros Hd Hlt. cbn [nearby_loop]. rewrite Hd. result_simpl.
  destruct (Rle_dec d (IZR radius)); [lra | reflexivity].
Qed.

Lemma seed_nearby :
  nearby_loop (businesses seed_database) 40.4167 (-3.7037) 0 [] ∅
  = Ok ([biz_data biz_001 0], ∅ ∪ {[ "E471.1" ]}).
Proof.
  cbn [businesses seed_database].
  rewrite (nearby_loop_keep biz_001 _ _ _ _ _ _ 0%R);
    [| apply haversine_distance_same_point | cbn; lra].
  destruct (haversine_distance_pos 40.4167 (-3.7037) 40.4150 (-3.6850)) as (d2 & H2 & Hp2);
    [lra | lra | lra |].
  destruct (haversine_distance_pos 40.4167 (-3.7037) 40.4130 (-3.6810)) as (d3 & H3 & Hp3);
    [lra | lra | lra |].
  destruct (haversine_distance_pos 40.4167 (-3.7037) 40.4230 (-3.6110)) as (d4 & H4 & Hp4);
    [lra | lra | lra |].
  rewrite (nearby_loop_skip biz_002 _ _ _ _ _ _ d2 H2 Hp2).
  rewrite (nearby_loop_skip biz_003 _ _ _ _ _ _ d3 H3 Hp3).
  rewrite (nearby_loop_skip biz_004 _ _ _ _ _ _ d4 H4 Hp4).
  reflexivity.
Qed.

Lemma biz_001_metric :
  calculate_conversion_metric
    (Business.rentability biz_001)
    (IZR (default 0%Z (iae_map_of seed_iae_categories (∅ ∪ {[ "E471.1" ]})
                         !! Business.iae_code biz_001)))
    (Business.proximity_to_urban_center_m biz_001)
  = Ok scenario_metric.
Proof.
  change (default 0%Z (iae_map_of seed_iae_categories (∅ ∪ {[ "E471.1" ]})
                         !! Business.iae_code biz_001)) with 800%Z.
  cbn [Business.rentability Business.proximity_to_urban_center_m biz_001].
  rewrite calculate_conversion_metric_in_domain by lra.
  unfold scenario_metric, sigmoid_value. f_equal.
  assert (Hx : weighted_sum 85.0 800 100.0 = scenario_x).
  { unfold weighted_sum, scenario_x. lra. }
  rewrite Hx, clamp_id; [reflexivity |].
  rewrite scenario_x_val. lra.
Qed.

Lemma seed_search :
  get_processed_businesses seed_database 40.4167 (-3.7037) 0
  = Ok [ <[ "metric" := VNum scenario_metric ]> (biz_data biz_001 0) ].
Proof.
  unfold get_processed_businesses, rank.
  rewrite seed_nearby. result_simpl. cbv iota beta.
  cbn [mapM]. rewrite score_biz_data.
  cbn [iae_categories seed_database].
  rewrite biz_001_metric. result_simpl.
  reflexivity.
Qed.

(** ** The scenario of venue A *)

Section Scenario.
#[local] Open Scope R_scope.

Lemma scenario_metric_range : 0.6209 < scenario_metric < 0.6211.
Proof.
  unfold scenario_metric.
  pose proof exp_neg_scenario_x_lower as Hl.
  pose proof exp_neg_scenario_x_upper as Hu.
  set (e := exp (- scenario_x)) in *.
  split.
  - apply Rmult_lt_reg_r with (1 + e); [lra |].
    unfold Rdiv. rewrite Rmult_assoc, Rinv_l by lra. lra.
  - apply Rmult_lt_reg_r with (1 + e); [lra |].
    unfold Rdiv. rewrite Rmult_assoc, Rinv_l by lra. lra.
Qed.

(** C1: for rentability 85, typology value 800 and proximity 100 m the
    calculator normalises to r = 0.85, t = 0.8, p = 1/101, feeds
    x = 0.2*0.85 + 0.4*0.8 + 0.4*(1/101) = 0.49396... to the sigmoid, and
    the metric is sigmoid(x), within 0.0001 of 0.6210.  The search pipeline
    gives venue A of the seeded database (sector E471.1, typology 800)
    exactly this metric. *)
Theorem C1_scenario_metric :
  calculate_conversion_metric 85 800 100 = sigmoid scenario_x /\
  85 / 100 = 0.85 /\ 800 / 1000 = 0.8 /\ 1 / (1 + 100) = 1 / 101 /\
  scenario_x = 0.2 * 0.85 + 0.4 * 0.8 + 0.4 * (1 / 101) /\
  0.49396 < scenario_x < 0.49397 /\
  calculate_conversion_metric 85 800 100 = Ok scenario_metric /\
  scenario_metric = 1 / (1 + exp (- scenario_x)) /\
  Rabs (scenario_metric - 0.6210) < 0.0001 /\
  get_processed_businesses seed_database 40.4167 (-3.7037) 0
  = Ok [ <[ "metric" := VNum scenario_metric ]> (biz_data biz_001 0) ].
Proof.
  assert (Hx : weighted_sum 85 800 100 = scenario_x).
  { unfold weighted_sum, scenario_x. lra. }
  assert (Hb : 0.49396 < scenario_x < 0.49397) by (rewrite scenario_x_val; lra).
  assert (Hm : calculate_conversion_metric 85 800 100 = Ok scenario_metric).
  { rewrite calculate_conversion_metric_in_domain by lra.
    unfold sigmoid_value, scenario_metric. rewrite Hx, clamp_id by lra. reflexivity. }
  pose proof scenario_metric_range as Hr.
  split_and!; try lra; try reflexivity.
  - rewrite Hm, sigmoid_total, clamp_id by lra. reflexivity.
  - exact Hm.
  - apply Rabs_def1; lra.
  - apply seed_search.
Qed.

End Scenario.

(** ** The cache-aside handlers *)

Lemma IO_bind_unfold {A B} (m : IO A) (k : A -> IO B) (w : World) :
  (m ≫= k) w = match m w with
               | (Ok a, w') => k a w'
               | (Raise e, w') => (Raise e, w')
               end.
Proof. reflexivity. Qed.

Lemma IO_ret_unfold {A} (a : A) (w : World) : (mret a : IO A) w = (Ok a, w).
Proof. reflexivity. Qed.

Ltac io_simpl :=
  repeat first
    [ rewrite IO_bind_unfold
    | rewrite IO_ret_unfold
    | progress unfold get_cache, set_cache, with_db, lift
    | progress cbn [db redis_client now db_reads] ].

Section Handlers.
Variable format_float : R -> string.

Lemma get_cache_hit (w : World) srv key data deadline :
  redis_client w = RedisClient.mk (Some srv) ->
  srv !! key = Some (data, deadline) -> (now w < deadline)%Z ->
  RedisClient.get_cache (redis_client w) (now w) key = json_loads data.
Proof.
  intros -> Hk Hlt. unfold RedisClient.get_cache, RedisClient.redis_get.
  cbn [RedisClient.client]. rewrite Hk. by rewrite bool_decide_eq_true_2.
Qed.

Lemma get_cache_miss (w : World) srv key :
  redis_client w = RedisClient.mk (Some srv) ->
  (srv !! key = None \/
   exists data deadline, srv !! key = Some (data, deadline) /\ (deadline <= now w)%Z) ->
  RedisClient.get_cache (redis_client w) (now w) key = VNone.
Proof.
  intros -> H. unfold RedisClient.get_cache, RedisClient.redis_get.
  cbn [RedisClient.client].
  destruct H as [-> | (data & deadline & -> & Hle)]; [reflexivity |].
  rewrite bool_decide_eq_false_2 by lia. reflexivity.
Qed.

Lemma search_hit (w : World) lat lon radius v :
  RedisClient.get_cache (redis_client w) (now w)
    (search_cache_key format_float lat lon radius) = v ->
  truthy v = true ->
  search_nearby_businesses format_float lat lon radius w = (Ok v, w).
Proof.
  intros Hget Ht. unfold search_nearby_businesses. io_simpl.
  rewrite Hget, Ht. reflexivity.
Qed.

Lemma search_miss (w : World) srv lat lon radius processed_list :
  redis_client w = RedisClient.mk (Some srv) ->
  truthy (RedisClient.get_cache (redis_client w) (now w)
            (search_cache_key format_float lat lon radius)) = false ->
  get_processed_businesses (db w) lat lon radius = Ok processed_list ->
  search_nearby_businesses format_float lat lon radius w
  = (Ok (search_response processed_list),
     stored w srv (search_cache_key format_float lat lon radius)
            (search_response processed_list)).
Proof.
  intros Hc Hget Hp. unfold search_nearby_businesses. io_simpl.
  rewrite Hget. io_simpl. rewrite Hp. io_simpl. cbn [len]. io_simpl.
  rewrite length_fmap. unfold RedisClient.set_cache. rewrite Hc.
  reflexivity.
Qed.

Lemma search_raises (w : World) lat lon radius e :
  truthy (RedisClient.get_cache (redis_client w) (now w)
            (search_cache_key format_float lat lon radius)) = false ->
  get_processed_businesses (db w) lat lon radius = Raise e ->
  search_nearby_businesses format_float lat lon radius w
  = (Raise e, mkWorld (db w) (redis_client w) (now w) (S (db_reads w))).
Proof.
  intros Hget Hp. unfold search_nearby_businesses. io_simpl.
  rewrite Hget. io_simpl. rewrite Hp. reflexivity.
Qed.

Lemma search_response_truthy l : truthy (search_response l) = true.
Proof.
  unfold search_response, truthy.
  destruct (map_to_list _) eqn:E; [| reflexivity].
  apply map_to_list_empty_iff in E.
  apply (f_equal (fun m : dict => m !! "count")) in E. discriminate.
Qed.

Lemma competitors_response_truthy l : truthy (competitors_response l) = true.
Proof.
  unfold competitors_response, truthy.
  destruct (map_to_list _) eqn:E; [| reflexivity].
  apply map_to_list_empty_iff in E.
  apply (f_equal (fun m : dict => m !! "count")) in E. discriminate.
Qed.

Lemma competitors_hit (w : World) business_id lat lon radius v :
  RedisClient.get_cache (redis_client w) (now w)
    (competitors_cache_key format_float business_id lat lon radius) = v ->
  truthy v = true ->
  get_business_competitors format_float business_id lat lon radius w = (Ok v, w).
Proof.
  intros Hget Ht. unfold get_business_competitors. io_simpl.
  rewrite Hget, Ht. reflexivity.
Qed.

Lemma competitors_miss (w : World) srv business_id lat lon radius processed_list :
  redis_client w = RedisClient.mk (Some srv) ->
  truthy (RedisClient.get_cache (redis_client w) (now w)
            (competitors_cache_key format_float business_id lat lon radius)) = false ->
  get_processed_businesses_by_id (db w) business_id lat lon radius
    = Ok (Some processed_list) ->
  get_business_competitors format_float business_id lat lon radius w
  = (Ok (competitors_response processed_list),
     stored w srv (competitors_cache_key format_float business_id lat lon radius)
            (competitors_response processed_list)).
Proof.
  intros Hc Hget Hp. unfold get_business_competitors. io_simpl.
  rewrite Hget. io_simpl. rewrite Hp. io_simpl. cbn [len]. io_simpl.
  rewrite length_fmap. unfold RedisClient.set_cache. rewrite Hc.
  reflexivity.
Qed.

(** The reference venue is unknown: the service returns [None], and the
    handler's [len(processed_list)] raises. *)
Lemma competitors_not_found (w : World) business_id lat lon radius :
  truthy (RedisClient.get_cache (redis_client w) (now w)
            (competitors_cache_key format_float business_id lat lon radius)) = false ->
  get_processed_businesses_by_id (db w) business_id lat lon radius = Ok None ->
  get_business_competitors format_float business_id lat lon radius w
  = (Raise TypeError, mkWorld (db w) (redis_client w) (now w) (S (db_reads w))).
Proof.
  intros Hget Hp. unfold get_business_competitors. io_simpl.
  rewrite Hget. io_simpl. rewrite Hp. reflexivity.
Qed.

Lemma competitors_raises (w : World) business_id lat lon radius e :
  truthy (RedisClient.get_cache (redis_client w) (now w)
            (competitors_cache_key format_float business_id lat lon radius)) = false ->
  get_processed_businesses_by_id (db w) business_id lat lon radius = Raise e ->
  get_business_competitors format_float business_id lat lon radius w
  = (Raise e, mkWorld (db w) (redis_client w) (now w) (S (db_reads w))).
Proof.
  intros Hget Hp. unfold get_business_competitors. io_simpl.
  rewrite Hget. io_simpl. rewrite Hp. reflexivity.
Qed.

Lemma by_id_not_found (d : Database) business_id lat lon radius :
  Forall (fun b => Business.id b <> business_id) (businesses d) ->
  get_processed_businesses_by_id d business_id lat lon radius = Ok None.
Proof.
  intros Hall. unfold get_processed_businesses_by_id.
  assert (Hf : filter (fun b => Business.id b = business_id) (businesses d) = []).
  { induction Hall as [| b l Hb _ IH]; [reflexivity |].
    rewrite filter_cons. by case_decide. }
  rewrite Hf. reflexivity.
Qed.

End Handlers.

(** ** Response models *)

Lemma frac_part_IZR (z : Z) : frac_part (IZR z) = 0%R.
Proof.
  unfold frac_part.
  assert (H : Int_part (IZR z) = z).
  { symmetry. apply Int_part_spec. lra. }
  rewrite H. lra.
Qed.

Lemma serialize_SInt (z : Z) : serialize SInt (VNum (IZR z)) = Ok (VNum (IZR z)).
Proof.
  cbn [serialize]. rewrite frac_part_IZR.
  destruct (Req_dec_T 0 0); [reflexivity | contradiction].
Qed.

Lemma serialize_model_nil (d : dict) : serialize (SModel []) (VDict d) = Ok (VDict ∅).
Proof. reflexivity. Qed.

Lemma serialize_model_cons k s fields (d out : dict) v v' :
  d !! k = Some v ->
  serialize s v = Ok v' ->
  serialize (SModel fields) (VDict d) = Ok (VDict out) ->
  serialize (SModel ((k, s) :: fields)) (VDict d) = Ok (VDict (<[ k := v' ]> out)).
Proof.
  intros Hk Hv Hrest. cbn [serialize] in *. rewrite Hk, Hv. result_simpl.
  destruct (_ fields) as [out' | e] eqn:E; result_simpl; [| discriminate].
  by injection Hrest as ->.
Qed.

Lemma serialize_BusinessResponse (b : Business.t) (dist metric : R) (z : Z) :
  Business.rentability b = IZR z ->
  serialize BusinessResponse (VDict (<[ "metric" := VNum metric ]> (biz_data b dist)))
  = Ok (VDict (response_item b metric)).
Proof.
  intros Hz. unfold BusinessResponse, BusinessBase, Coordinates, response_item.
  cbn [app].
  repeat (eapply serialize_model_cons; [reflexivity | try reflexivity |]).
  - rewrite Hz. apply serialize_SInt.
  - apply serialize_model_nil.
Qed.

Lemma response_item_no_distance b metric :
  response_item b metric !! "distance_from_search_m" = None.
Proof. reflexivity. Qed.

Lemma biz_data_distance b dist metric :
  <[ "metric" := VNum metric ]> (biz_data b dist) !! "distance_from_search_m"
  = Some (VNum (round dist 2)).
Proof. reflexivity. Qed.

(** The response of the search route for one scored venue. *)
Lemma serialize_search_response_1 (b : Business.t) (dist metric : R) (z : Z) :
  Business.rentability b = IZR z ->
  serialize BusinessList (search_response [<[ "metric" := VNum metric ]> (biz_data b dist)])
  = Ok (VDict {[ "count" := VNum 1; "businesses" := VList [VDict (response_item b metric)] ]}).
Proof.
  intros Hz. unfold BusinessList, search_response.
  eapply serialize_model_cons; [reflexivity | apply (serialize_SInt 1) |].
  eapply serialize_model_cons; [reflexivity | | apply serialize_model_nil].
  cbn [serialize fmap list_fmap mapM length].
  fold BusinessResponse.
  rewrite (serialize_BusinessResponse b dist metric z Hz). reflexivity.
Qed.

Lemma serialize_SModel fields (d : dict) :
  serialize (SModel fields) (VDict d) = VDict <$> serialize_fields d fields.
Proof. reflexivity. Qed.

Lemma serialize_fields_inv fields (d d' : dict) :
  serialize_fields d fields = Ok d' ->
  forall k v', d' !! k = Some v' ->
    exists s v, (k, s) ∈ fields /\ d !! k = Some v /\ serialize s v = Ok v'.
Proof.
  revert d'. induction fields as [| [k s] fields IH]; intros d' H k0 v0 Hk0.
  - injection H as <-. by rewrite lookup_empty in Hk0.
  - cbn [serialize_fields] in H. fold (serialize_fields d) in H.
    destruct (d !! k) as [v |] eqn:Hk; [| discriminate].
    apply bind_Ok in H as (v' & Hv & H).
    apply bind_Ok in H as (rest & Hrest & [= <-]).
    destruct (decide (k = k0)) as [<- | Hne].
    + rewrite lookup_insert_eq in Hk0. injection Hk0 as <-.
      exists s, v. split_and!; [left | done | done].
    + rewrite lookup_insert_ne in Hk0 by done.
      destruct (IH _ Hrest _ _ Hk0) as (s0 & v1 & Hin & Hl & Hs).
      exists s0, v1. split_and!; [by right | done | done].
Qed.

(** A serialized model holds declared fields only. *)
Lemma serialize_model_inv fields (d : dict) out :
  serialize (SModel fields) (VDict d) = Ok out ->
  exists d' : dict,
    out = VDict d' /\
    forall k v', d' !! k = Some v' ->
      exists s v, (k, s) ∈ fields /\ d !! k = Some v /\ serialize s v = Ok v'.
Proof.
  rewrite serialize_SModel.
  destruct (serialize_fields d fields) as [d' | e] eqn:E; result_simpl; [| discriminate].
  intros [= <-]. exists d'. split; [reflexivity |]. by apply serialize_fields_inv.
Qed.

Lemma serialize_list_inv item v out :
  serialize (SList item) v = Ok out ->
  exists l l', v = VList l /\ out = VList l' /\
               Forall2 (fun x y => serialize item x = Ok y) l l'.
Proof.
  destruct v as [| | | l |]; cbn [serialize]; try discriminate.
  destruct (mapM (serialize item) l) as [l' | e] eqn:E; result_simpl; [| discriminate].
  intros [= <-]. exists l, l'. split_and!; try done. by apply mapM_Ok.
Qed.

Lemma serialize_model_input fields v out :
  serialize (SModel fields) v = Ok out -> exists d, v = VDict d.
Proof. destruct v; cbn [serialize]; try discriminate. eauto. Qed.

Lemma BusinessResponse_no_distance v out :
  serialize BusinessResponse v = Ok out ->
  exists d' : dict, out = VDict d' /\ d' !! "distance_from_search_m" = None.
Proof.
  intros H. destruct (serialize_model_input _ _ _ H) as [d ->].
  apply serialize_model_inv in H as (d' & -> & Hd').
  exists d'. split; [reflexivity |].
  destruct (d' !! "distance_from_search_m") as [v' |] eqn:E; [| reflexivity].
  destruct (Hd' _ _ E) as (s & v & Hin & _).
  exfalso. cbn [BusinessBase app] in Hin.
  rewrite !elem_of_cons, elem_of_nil in Hin.
  repeat (destruct Hin as [Hin | Hin]; [discriminate Hin |]). exact Hin.
Qed.

(** Whatever a handler returns, a response that went through
    [BusinessList] or [CompetitorList] has no distance field in any item. *)
Lemma response_model_drops_distance (list_field : string) v out :
  serialize (SModel [("count", SInt); (list_field, SList BusinessResponse)]) v = Ok out ->
  exists r : dict,
    out = VDict r /\
    forall items item,
      list_field <> "count" ->
      r !! list_field = Some (VList items) -> item ∈ items ->
      exists d : dict, item = VDict d /\ d !! "distance_from_search_m" = None.
Proof.
  intros H. destruct (serialize_model_input _ _ _ H) as [d ->].
  apply serialize_model_inv in H as (r & -> & Hr).
  exists r. split; [reflexivity |].
  intros items item Hne Hl Hin.
  destruct (Hr _ _ Hl) as (s & v & Hs & _ & Hser).
  assert (s = SList BusinessResponse) as ->.
  { rewrite !elem_of_cons, elem_of_nil in Hs.
    destruct Hs as [[= Hc _] | [[= ->] | []]]; [contradiction | reflexivity]. }
  apply serialize_list_inv in Hser as (l & l' & -> & [= <-] & Hall).
  apply list_elem_of_lookup in Hin as [i Hi].
  destruct (Forall2_lookup_r _ _ _ _ _ Hall Hi) as (x & _ & Hx).
  by apply BusinessResponse_no_distance in Hx.
Qed.

Section Routes.
Variable format_float : R -> string.

Lemma started_get_cache d t key :
  truthy (RedisClient.get_cache (redis_client (started d t)) (now (started d t)) key)
  = false.
Proof. reflexivity. Qed.

Lemma route_Ok model handler (w w' : World) v :
  handler w = (Ok v, w') ->
  route model handler w = (serialize model v, w').
Proof. intros H. unfold route. rewrite IO_bind_unfold, H. reflexivity. Qed.

Lemma route_Raise model handler (w w' : World) e :
  handler w = (Raise e, w') ->
  route model handler w = (Raise e, w').
Proof. intros H. unfold route. rewrite IO_bind_unfold, H. reflexivity. Qed.

(** For every identifier that no stored venue has, and whatever the
    coordinates and the radius, a request that is not served from the cache
    ends in a [TypeError]. *)
Lemma competitors_route_not_found (w : World) business_id lat lon radius :
  Forall (fun b => Business.id b <> business_id) (businesses (db w)) ->
  truthy (RedisClient.get_cache (redis_client w) (now w)
            (competitors_cache_key format_float business_id lat lon radius)) = false ->
  GET_business_competitors format_float business_id lat lon radius w
  = (Raise TypeError, mkWorld (db w) (redis_client w) (now w) (S (db_reads w))).
Proof.
  intros Hall Hget. unfold GET_business_competitors.
  apply route_Raise, competitors_not_found; [exact Hget |].
  by apply by_id_not_found.
Qed.

(** No response of the two routes has a distance field in any of its
    items, whether it was computed or served from the cache. *)
Lemma search_route_never_reports_distance (w w' : World) lat lon radius response :
  GET_businesses_search format_float lat lon radius w = (Ok response, w') ->
  exists r : dict,
    response = VDict r /\
    forall items item,
      r !! "businesses" = Some (VList items) -> item ∈ items ->
      exists d : dict, item = VDict d /\ d !! "distance_from_search_m" = None.
Proof.
  unfold GET_businesses_search, route. rewrite IO_bind_unfold.
  destruct (search_nearby_businesses format_float lat lon radius w) as [[v | e] w1];
    [| discriminate].
  unfold lift. intros [= Hser <-].
  apply response_model_drops_distance in Hser as (r & -> & Hr).
  exists r. split; [reflexivity |]. intros items item. by apply Hr.
Qed.

Lemma competitors_route_never_reports_distance (w w' : World)
    business_id lat lon radius response :
  GET_business_competitors format_float business_id lat lon radius w = (Ok response, w') ->
  exists r : dict,
    response = VDict r /\
    forall items item,
      r !! "competitors" = Some (VList items) -> item ∈ items ->
      exists d : dict, item = VDict d /\ d !! "distance_from_search_m" = None.
Proof.
  unfold GET_business_competitors, route. rewrite IO_bind_unfold.
  destruct (get_business_competitors format_float business_id lat lon radius w)
    as [[v | e] w1]; [| discriminate].
  unfold lift. intros [= Hser <-].
  apply response_model_drops_distance in Hser as (r & -> & Hr).
  exists r. split; [reflexivity |]. intros items item. by apply Hr.
Qed.

(** C2: for a reference venue that does not exist the service signals
    not-found by returning [None], but the competitors operation does not
    return a not-found outcome: the handler takes [len(None)] and the
    request ends in a [TypeError]. *)
Theorem C2_unknown_reference_venue_raises (lat lon : R) (radius t : Z) :
  get_processed_businesses_by_id seed_database "biz_999" lat lon radius = Ok None /\
  GET_business_competitors format_float "biz_999" lat lon radius (started seed_database t)
  = (Raise TypeError,
     mkWorld seed_database (RedisClient.init ∅ RedisClient.new) t 1).
Proof.
  assert (Hnone : get_processed_businesses_by_id seed_database "biz_999" lat lon radius
                  = Ok None).
  { apply by_id_not_found. cbn [businesses seed_database].
    repeat constructor; discriminate. }
  split; [exact Hnone |].
  unfold GET_business_competitors.
  apply route_Raise.
  apply (competitors_not_found format_float (started seed_database t));
    [apply started_get_cache | exact Hnone].
Qed.

(** C3: the handler's payload carries the rounded distance of each venue,
    but the response of the search operation does not: [BusinessResponse]
    declares no such field, so the response model leaves it out. *)
Theorem C3_search_response_has_no_distance (t : Z) :
  exists (payload_item response_item' : dict) (w' : World),
    search_nearby_businesses format_float 40.4167 (-3.7037) 0 (started seed_database t)
      = (Ok (search_response [payload_item]), w') /\
    payload_item !! "id" = Some (VStr "biz_001") /\
    payload_item !! "distance_from_search_m" = Some (VNum 0) /\
    GET_businesses_search format_float 40.4167 (-3.7037) 0 (started seed_database t)
      = (Ok (VDict {[ "count" := VNum 1;
                      "businesses" := VList [VDict response_item'] ]}), w') /\
    response_item' !! "id" = Some (VStr "biz_001") /\
    response_item' !! "metric" = Some (VNum scenario_metric) /\
    response_item' !! "distance_from_search_m" = None.
Proof.
  eexists _, _, _. split_and!.
  - apply (search_miss format_float (started seed_database t) ∅);
      [reflexivity | apply started_get_cache | apply seed_search].
  - reflexivity.
  - rewrite biz_data_distance, round_0. reflexivity.
  - unfold GET_businesses_search.
    erewrite route_Ok.
    2:{ apply (search_miss format_float (started seed_database t) ∅);
          [reflexivity | apply started_get_cache | apply seed_search]. }
    rewrite (serialize_search_response_1 biz_001 0 scenario_metric 85); [reflexivity |].
    cbn [Business.rentability biz_001]. lra.
  - reflexivity.
  - reflexivity.
  - reflexivity.
Qed.

End Routes.

Section CacheAside.
Variable format_float : R -> string.

Lemma payloads_truthy_empty : payloads_truthy ∅.
Proof. intros key data deadline H. by rewrite lookup_empty in H. Qed.

Lemma payloads_truthy_insert srv key v deadline :
  payloads_truthy srv -> truthy v = true ->
  payloads_truthy (<[ key := (json_dumps v, deadline) ]> srv).
Proof.
  intros Hsrv Hv k data dl. destruct (decide (key = k)) as [<- | Hne].
  - rewrite lookup_insert_eq. by intros [= <- <-].
  - rewrite lookup_insert_ne by done. apply Hsrv.
Qed.

(** The handlers keep the client initialised and the payloads truthy. *)
Lemma search_preserves_payloads (w : World) srv lat lon radius :
  redis_client w = RedisClient.mk (Some srv) -> payloads_truthy srv ->
  exists srv',
    redis_client (search_nearby_businesses format_float lat lon radius w).2
      = RedisClient.mk (Some srv') /\ payloads_truthy srv'.
Proof.
  intros Hc Hsrv.
  destruct (truthy (RedisClient.get_cache (redis_client w) (now w)
              (search_cache_key format_float lat lon radius))) eqn:Hget.
  - rewrite (search_hit format_float w lat lon radius _ eq_refl Hget). eauto.
  - destruct (get_processed_businesses (db w) lat lon radius) as [l | e] eqn:Hp.
    + rewrite (search_miss format_float w srv lat lon radius l Hc Hget Hp).
      eexists. split; [reflexivity |].
      apply payloads_truthy_insert; [done | apply search_response_truthy].
    + rewrite (search_raises format_float w lat lon radius e Hget Hp). eauto.
Qed.

Lemma competitors_preserves_payloads (w : World) srv business_id lat lon radius :
  redis_client w = RedisClient.mk (Some srv) -> payloads_truthy srv ->
  exists srv',
    redis_client (get_business_competitors format_float business_id lat lon radius w).2
      = RedisClient.mk (Some srv') /\ payloads_truthy srv'.
Proof.
  intros Hc Hsrv.
  destruct (truthy (RedisClient.get_cache (redis_client w) (now w)
              (competitors_cache_key format_float business_id lat lon radius))) eqn:Hget.
  - rewrite (competitors_hit format_float w business_id lat lon radius _ eq_refl Hget).
    eauto.
  - destruct (get_processed_businesses_by_id (db w) business_id lat lon radius)
      as [[l |] | e] eqn:Hp.
    + rewrite (competitors_miss format_float w srv business_id lat lon radius l Hc Hget Hp).
      eexists. split; [reflexivity |].
      apply payloads_truthy_insert; [done | apply competitors_response_truthy].
    + rewrite (competitors_not_found format_float w business_id lat lon radius Hget Hp).
      eauto.
    + rewrite (competitors_raises format_float w business_id lat lon radius e Hget Hp).
      eauto.
Qed.

Lemma get_cache_expired_falsy (w : World) srv key :
  redis_client w = RedisClient.mk (Some srv) ->
  absent_or_expired srv (now w) key ->
  truthy (RedisClient.get_cache (redis_client w) (now w) key) = false.
Proof.
  intros Hc H. by rewrite (get_cache_miss w srv key Hc H).
Qed.

(** C7: with the Redis client initialised and a cache written by the
    handlers, a request whose key has a live entry gets the stored payload
    and leaves the world as it was: the database is not read and nothing is
    written to the cache.  When the key has no entry, or the entry's TTL
    has run out, the pipeline runs, its result is stored under the key for
    300 seconds, and that result is returned.  This holds for the keys of
    the search handler and for those of the competitors handler. *)
Theorem C7_cache_aside (w : World) (srv : RedisClient.server)
    (business_id : string) (lat lon : R) (radius : Z) :
  redis_client w = RedisClient.mk (Some srv) ->
  payloads_truthy srv ->
  (forall data deadline,
     srv !! search_cache_key format_float lat lon radius = Some (data, deadline) ->
     (now w < deadline)%Z ->
     search_nearby_businesses format_float lat lon radius w
     = (Ok (json_loads data), w)) /\
  (forall processed_list,
     absent_or_expired srv (now w) (search_cache_key format_float lat lon radius) ->
     get_processed_businesses (db w) lat lon radius = Ok processed_list ->
     search_nearby_businesses format_float lat lon radius w
     = (Ok (search_response processed_list),
        mkWorld (db w)
          (RedisClient.mk (Some
             (<[ search_cache_key format_float lat lon radius
                 := (json_dumps (search_response processed_list), (now w + 300)%Z) ]>
                srv)))
          (now w) (S (db_reads w)))) /\
  (forall data deadline,
     srv !! competitors_cache_key format_float business_id lat lon radius
       = Some (data, deadline) ->
     (now w < deadline)%Z ->
     get_business_competitors format_float business_id lat lon radius w
     = (Ok (json_loads data), w)) /\
  (forall processed_list,
     absent_or_expired srv (now w)
       (competitors_cache_key format_float business_id lat lon radius) ->
     get_processed_businesses_by_id (db w) business_id lat lon radius
       = Ok (Some processed_list) ->
     get_business_competitors format_float business_id lat lon radius w
     = (Ok (competitors_response processed_list),
        mkWorld (db w)
          (RedisClient.mk (Some
             (<[ competitors_cache_key format_float business_id lat lon radius
                 := (json_dumps (competitors_response processed_list),
                     (now w + 300)%Z) ]>
                srv)))
          (now w) (S (db_reads w)))).
Proof.
  intros Hc Hsrv. split_and!.
  - intros data deadline Hk Hlt.
    apply search_hit.
    + by apply (get_cache_hit w srv _ data deadline).
    + by apply (Hsrv _ _ _ Hk).
  - intros processed_list Hmiss Hp.
    apply (search_miss format_float w srv); [done | | done].
    by apply (get_cache_expired_falsy w srv).
  - intros data deadline Hk Hlt.
    apply competitors_hit.
    + by apply (get_cache_hit w srv _ data deadline).
    + by apply (Hsrv _ _ _ Hk).
  - intros processed_list Hmiss Hp.
    apply (competitors_miss format_float w srv); [done | | done].
    by apply (get_cache_expired_falsy w srv).
Qed.

End CacheAside.

(** A first request computes and stores, the same request 299 seconds later
    is served from the cache, and 300 seconds later it is computed again. *)
Lemma C7_cache_aside_witness :
  let key := search_cache_key format_int_part 40.4167 (-3.7037) 0 in
  let response := search_response [<[ "metric" := VNum scenario_metric ]> (biz_data biz_001 0)] in
  let srv1 : RedisClient.server := <[ key := (json_dumps response, 300%Z) ]> ∅ in
  let w1 t n := mkWorld seed_database (RedisClient.mk (Some srv1)) t n in
  search_nearby_businesses format_int_part 40.4167 (-3.7037) 0 (started seed_database 0)
    = (Ok response, w1 0%Z 1%nat) /\
  search_nearby_businesses format_int_part 40.4167 (-3.7037) 0 (w1 299%Z 1%nat)
    = (Ok response, w1 299%Z 1%nat) /\
  search_nearby_businesses format_int_part 40.4167 (-3.7037) 0 (w1 300%Z 1%nat)
    = (Ok response,
       mkWorld seed_database
         (RedisClient.mk (Some (<[ key := (json_dumps response, 600%Z) ]> srv1)))
         300 2).
Proof.
  intros key response srv1 w1.
  assert (H1 : payloads_truthy srv1).
  { apply payloads_truthy_insert;
      [apply payloads_truthy_empty | apply search_response_truthy]. }
  split_and!.
  - destruct (C7_cache_aside format_int_part (started seed_database 0) ∅ "biz_001"
                40.4167 (-3.7037) 0 eq_refl payloads_truthy_empty) as (_ & Hmiss & _).
    apply Hmiss.
    + left. apply lookup_empty.
    + apply seed_search.
  - destruct (C7_cache_aside format_int_part (w1 299%Z 1%nat) srv1 "biz_001"
                40.4167 (-3.7037) 0 eq_refl H1) as (Hhit & _).
    apply (Hhit (json_dumps response) 300%Z).
    + apply lookup_insert_eq.
    + cbn. lia.
  - destruct (C7_cache_aside format_int_part (w1 300%Z 1%nat) srv1 "biz_001"
                40.4167 (-3.7037) 0 eq_refl H1) as (_ & Hmiss & _).
    apply Hmiss.
    + right. exists (json_dumps response), 300%Z. split; [apply lookup_insert_eq | cbn; lia].
    + apply seed_search.
Defined.

(** ** Cache keys *)

Lemma colons_app (s1 s2 : string) : colons (s1 +:+ s2) = (colons s1 + colons s2)%nat.
Proof.
  induction s1 as [| c s1 IH]; [reflexivity |].
  change (String c s1 +:+ s2) with (String c (s1 +:+ s2)).
  cbn [colons]. rewrite IH. lia.
Qed.

Lemma colons_pretty_N_go (x : N) (s : string) : colons (pretty_N_go x s) = colons s.
Proof.
  revert s. induction (N.lt_wf_0 x) as [x _ IH]; intros s.
  destruct (decide (x = 0)%N) as [-> | Hx].
  - by rewrite pretty_N_go_0.
  - rewrite pretty_N_go_step by lia.
    rewrite IH by (apply N.div_lt; lia).
    cbn [colons]. unfold pretty_N_char. by repeat case_match.
Qed.

Lemma colons_pretty_N (x : N) : colons (pretty x) = 0%nat.
Proof.
  unfold pretty, pretty_N. case_decide; [reflexivity |].
  by rewrite colons_pretty_N_go.
Qed.

Lemma colons_pretty_Z (x : Z) : colons (pretty x) = 0%nat.
Proof.
  destruct x as [| p | p].
  - reflexivity.
  - exact (colons_pretty_N (N.pos p)).
  - change (pretty (Z.neg p)) with ("-" +:+ pretty (N.pos p)).
    rewrite colons_app, colons_pretty_N. reflexivity.
Qed.

Lemma colons_format_int_part (x : R) : colons (format_int_part x) = 0%nat.
Proof. apply colons_pretty_Z. Qed.

Section CacheKeys.
Variable format_float : R -> string.

Lemma search_cache_key_concat lat lon radius :
  search_cache_key format_float lat lon radius
  = String.concat ":" ["search"; format_float lat; format_float lon; pretty radius].
Proof. reflexivity. Qed.

Lemma competitors_cache_key_concat business_id lat lon radius :
  competitors_cache_key format_float business_id lat lon radius
  = String.concat ":"
      ["search"; business_id; format_float lat; format_float lon; pretty radius].
Proof. reflexivity. Qed.

Lemma search_cache_key_kind lat lon radius :
  endpoint_kind (search_cache_key format_float lat lon radius) = "search".
Proof. reflexivity. Qed.

Lemma competitors_cache_key_kind business_id lat lon radius :
  endpoint_kind (competitors_cache_key format_float business_id lat lon radius)
  = "search".
Proof. reflexivity. Qed.

(** C8 (amended): each key is the [:]-delimited concatenation of the tag
    [search] and the query parameters, in order, so identical inputs give
    the identical key; both operations use the same tag.  When floats are
    rendered without [:], a search key has exactly three delimiters and a
    competitors key at least four, so keys of the two operations never
    coincide. *)
Theorem C8_cache_keys :
  (forall x, colons (format_float x) = 0%nat) ->
  forall (business_id : string) (lat lon lat' lon' : R) (radius radius' : Z),
    search_cache_key format_float lat lon radius
      = String.concat ":" ["search"; format_float lat; format_float lon; pretty radius] /\
    competitors_cache_key format_float business_id lat' lon' radius'
      = String.concat ":" ["search"; business_id; format_float lat';
                           format_float lon'; pretty radius'] /\
    endpoint_kind (search_cache_key format_float lat lon radius) = "search" /\
    endpoint_kind (competitors_cache_key format_float business_id lat' lon' radius')
      = "search" /\
    colons (search_cache_key format_float lat lon radius) = 3%nat /\
    colons (competitors_cache_key format_float business_id lat' lon' radius')
      = (4 + colons business_id)%nat /\
    search_cache_key format_float lat lon radius
      <> competitors_cache_key format_float business_id lat' lon' radius'.
Proof.
  intros Hfmt business_id lat lon lat' lon' radius radius'.
  assert (Hs : colons (search_cache_key format_float lat lon radius) = 3%nat).
  { unfold search_cache_key.
    rewrite !colons_app, !Hfmt, colons_pretty_Z. reflexivity. }
  assert (Hc : colons (competitors_cache_key format_float business_id lat' lon' radius')
               = (4 + colons business_id)%nat).
  { unfold competitors_cache_key.
    rewrite !colons_app, !Hfmt, colons_pretty_Z. cbn. lia. }
  split_and!; try reflexivity; try assumption.
  intros Heq. rewrite Heq, Hc in Hs. lia.
Qed.

End CacheKeys.

(** C8, as stated, fails: the keys of the two operations carry the same
    endpoint kind. *)
Lemma C8_same_endpoint_kind :
  endpoint_kind (search_cache_key format_int_part 40.4167 (-3.7037) 500)
  = endpoint_kind (competitors_cache_key format_int_part "biz_001" 40.4167 (-3.7037) 500).
Proof. reflexivity. Qed.

Lemma C8_cache_keys_witness :
  colons (search_cache_key format_int_part 40.4167 (-3.7037) 500) = 3%nat /\
  search_cache_key format_int_part 40.4167 (-3.7037) 500
    <> competitors_cache_key format_int_part "biz_001" 40.4167 (-3.7037) 500.
Proof.
  pose proof (C8_cache_keys format_int_part colons_format_int_part
                "biz_001" 40.4167 (-3.7037) 40.4167 (-3.7037) 500 500) as H.
  split; apply H.
Defined.

(** ** Ranking *)


Lemma by_id_Some db business_id lat lon radius out :
  get_processed_businesses_by_id db business_id lat lon radius = Ok (Some out) ->
  exists target,
    target ∈ businesses db /\ Business.id target = business_id /\
    rank db (competitor_rows db target) lat lon radius = Ok out.
Proof.
  unfold get_processed_businesses_by_id. intros (t & Ht & H)%bind_Ok.
  destruct t as [target |]; [| discriminate].
  apply bind_Ok in H as (ranked & Hr & [= <-]).
  assert (Hin : target ∈ filter (fun b => Business.id b = business_id) (businesses db)).
  { destruct (filter _ (businesses db)) as [| x [| y l]]; try discriminate.
    injection Ht as ->. left. }
  apply list_elem_of_filter in Hin as [Hid Hin].
  exists target. split_and!; [done | done |].
  unfold competitor_rows. by rewrite Hid.
Qed.

Lemma filter_id_NoDup (l : list Business.t) (x : string) :
  NoDup (Business.id <$> l) ->
  filter (fun b => Business.id b = x) l = []
  \/ exists b, filter (fun b => Business.id b = x) l = [b].
Proof.
  induction l as [| b l IH]; [by left |].
  rewrite fmap_cons, NoDup_cons. intros [Hnotin Hnd].
  rewrite filter_cons. case_decide as Hb; [| by apply IH].
  right. exists b. f_equal.
  clear IH Hnd. induction l as [| c l IH]; [reflexivity |].
  rewrite fmap_cons, not_elem_of_cons in Hnotin. destruct Hnotin as [Hne Hnotin].
  rewrite filter_cons. case_decide as Hc; [congruence | by apply IH].
Qed.


(** ** The metric does not depend on the query *)

Lemma rank_items db rows lat lon radius out d :
  rank db rows lat lon radius = Ok out -> d ∈ out ->
  exists b dist m,
    b ∈ rows /\ venue_metric db b = Ok m /\
    d = <[ "metric" := VNum m ]> (biz_data b dist).
Proof.
  intros (kept & codes & scored & _ & Hsub & _ & Hsc & ->)%rank_Ok Hd.
  rewrite sort_keyed_Permutation in Hd.
  apply list_elem_of_lookup in Hd as [i Hi].
  destruct (Forall2_lookup_r _ _ _ _ _ Hsc Hi) as ([b dist] & Hk & m & Hm & ->).
  exists b, dist, m. split_and!; [| done | done].
  eapply elem_of_sublist; [| exact Hsub].
  apply list_elem_of_fmap. exists (b, dist). split; [done |].
  by eapply list_elem_of_lookup_2.
Qed.

Lemma results_items db q out d :
  results db q = Ok out -> d ∈ out ->
  exists b dist m,
    b ∈ businesses db /\ venue_metric db b = Ok m /\
    d = <[ "metric" := VNum m ]> (biz_data b dist).
Proof.
  destruct q as [lat lon radius | business_id lat lon radius]; cbn [results].
  - apply rank_items.
  - intros (r & Hr & [= <-])%bind_Ok Hd.
    destruct r as [l |]; [| by apply elem_of_nil in Hd].
    apply by_id_Some in Hr as (target & _ & _ & Hrank).
    destruct (rank_items _ _ _ _ _ _ _ Hrank Hd) as (b & dist & m & Hb & Hm & ->).
    exists b, dist, m. split_and!; [| done | done].
    unfold competitor_rows in Hb. by apply list_elem_of_filter in Hb as [_ Hb].
Qed.

(** C10: in every result list a venue's metric is [venue_metric], which
    reads the venue's stored rentability and proximity and its sector's
    typology value and nothing of the query; so a venue that appears in
    the results of two queries, whatever their kinds, origins and radii,
    has the same metric in both. *)
Theorem C10_metric_independent_of_query (db : Database) (q1 q2 : query)
    (out1 out2 : list dict) (d1 d2 : dict) :
  NoDup (Business.id <$> businesses db) ->
  results db q1 = Ok out1 -> results db q2 = Ok out2 ->
  d1 ∈ out1 -> d2 ∈ out2 -> d1 !! "id" = d2 !! "id" ->
  exists b m,
    b ∈ businesses db /\
    d1 !! "id" = Some (VStr (Business.id b)) /\
    venue_metric db b = Ok m /\
    d1 !! "metric" = Some (VNum m) /\
    d2 !! "metric" = Some (VNum m).
Proof.
  intros Hnd H1 H2 Hd1 Hd2 Hid.
  destruct (results_items _ _ _ _ H1 Hd1) as (b1 & dist1 & m1 & Hb1 & Hm1 & ->).
  destruct (results_items _ _ _ _ H2 Hd2) as (b2 & dist2 & m2 & Hb2 & Hm2 & ->).
  assert (Hids : Business.id b1 = Business.id b2).
  { change (Some (VStr (Business.id b1)) = Some (VStr (Business.id b2))) in Hid.
    by injection Hid. }
  assert (b1 = b2) as <-.
  { apply list_elem_of_lookup in Hb1 as [i Hi], Hb2 as [j Hj].
    assert (i = j) as <-.
    { eapply NoDup_lookup; [exact Hnd | |].
      - rewrite list_lookup_fmap, Hi. reflexivity.
      - rewrite list_lookup_fmap, Hj. cbn. by rewrite Hids. }
    congruence. }
  exists b1, m1. split_and!; try done.
  rewrite Hm1 in Hm2. by injection Hm2 as <-.
Qed.

(** ** A search that reaches every seeded venue *)

Section WholeEarth.
#[local] Open Scope R_scope.

Lemma math_atan2_quadrant (y x : R) : 0 <= y -> 0 <= x -> math_atan2 y x <= PI / 2.
Proof.
  intros Hy Hx. unfold math_atan2. pose proof PI_RGT_0 as Hpi.
  destruct (Rlt_dec 0 x).
  - left. apply atan_bound.
  - destruct (Rlt_dec x 0); [lra |].
    destruct (Rlt_dec 0 y); [lra |].
    destruct (Rlt_dec y 0); lra.
Qed.

(** No two points are further apart than half the circumference. *)
Lemma haversine_distance_le lat1 lon1 lat2 lon2 :
  exists d, haversine_distance lat1 lon1 lat2 lon2 = Ok d /\ d <= 25484000.
Proof.
  eexists. split; [apply haversine_distance_Ok |].
  pose proof (math_atan2_quadrant (sqrt (hav lat1 lon1 lat2 lon2))
                (sqrt (1 - hav lat1 lon1 lat2 lon2)) (sqrt_pos _) (sqrt_pos _)).
  pose proof PI_4. lra.
Qed.

Lemma sigmoid_value_strict (x y : R) :
  -100 <= x -> y <= 100 -> x < y -> sigmoid_value x < sigmoid_value y.
Proof.
  intros Hx Hy Hxy. unfold sigmoid_value.
  rewrite !clamp_id by lra.
  pose proof (exp_pos (- x)). pose proof (exp_pos (- y)).
  assert (exp (- y) < exp (- x)) by (apply exp_increasing; lra).
  unfold Rdiv. rewrite !Rmult_1_l.
  apply Rinv_lt_contravar; [nra | lra].
Qed.

Lemma seed_metric_order :
  seed_metric biz_002 450 < seed_metric biz_004 490 /\
  seed_metric biz_004 490 < seed_metric biz_003 470 /\
  seed_metric biz_003 470 < seed_metric biz_001 800.
Proof.
  unfold seed_metric, weighted_sum.
  cbn [Business.rentability Business.proximity_to_urban_center_m
       biz_001 biz_002 biz_003 biz_004].
  split_and!; apply sigmoid_value_strict; lra.
Qed.

End WholeEarth.

Lemma insert_desc_nil {A} (k : R) (x : A) : insert_desc k x [] = [(k, x)].
Proof. reflexivity. Qed.

Lemma insert_desc_lt {A} (k k' : R) (x y : A) l :
  (k < k')%R -> insert_desc k x ((k', y) :: l) = (k', y) :: insert_desc k x l.
Proof. intros H. cbn [insert_desc]. destruct (Rlt_dec k k'); [reflexivity | lra]. Qed.

Lemma insert_desc_ge {A} (k k' : R) (x y : A) l :
  (k' <= k)%R -> insert_desc k x ((k', y) :: l) = (k, x) :: (k', y) :: l.
Proof. intros H. cbn [insert_desc]. destruct (Rlt_dec k k'); [lra | reflexivity]. Qed.

Lemma seed_score (codes : gset string) (b : Business.t) (typology_val : Z) (dist : R) :
  default 0%Z (iae_map_of seed_iae_categories codes !! Business.iae_code b) = typology_val ->
  (0 <= Business.rentability b <= 100)%R ->
  (0 <= IZR typology_val <= 1000)%R ->
  (0 <= Business.proximity_to_urban_center_m b)%R ->
  score (iae_map_of seed_iae_categories codes) (biz_data b dist)
  = Ok (seed_item b typology_val dist).
Proof.
  intros Ht Hr Hv Hp.
  rewrite score_biz_data, Ht, calculate_conversion_metric_in_domain by assumption.
  reflexivity.
Qed.

Lemma metric_key_seed_item b typology_val dist :
  metric_key (seed_item b typology_val dist) = Ok (seed_metric b typology_val).
Proof. reflexivity. Qed.

(** From any origin, a radius of 30 000 km reaches the four seeded venues;
    they come back in descending order of metric. *)
Lemma seed_search_everywhere (lat lon : R) :
  exists d1 d2 d3 d4 : R,
    get_processed_businesses seed_database lat lon 30000000
    = Ok [ seed_item biz_001 800 d1; seed_item biz_003 470 d3;
           seed_item biz_004 490 d4; seed_item biz_002 450 d2 ].
Proof.
  destruct (haversine_distance_le lat lon 40.4167 (-3.7037)) as (d1 & H1 & L1).
  destruct (haversine_distance_le lat lon 40.4150 (-3.6850)) as (d2 & H2 & L2).
  destruct (haversine_distance_le lat lon 40.4130 (-3.6810)) as (d3 & H3 & L3).
  destruct (haversine_distance_le lat lon 40.4230 (-3.6110)) as (d4 & H4 & L4).
  exists d1, d2, d3, d4.
  unfold get_processed_businesses, rank. cbn [businesses seed_database].
  rewrite (nearby_loop_keep biz_001 _ _ _ _ _ _ d1 H1) by lra.
  rewrite (nearby_loop_keep biz_002 _ _ _ _ _ _ d2 H2) by lra.
  rewrite (nearby_loop_keep biz_003 _ _ _ _ _ _ d3 H3) by lra.
  rewrite (nearby_loop_keep biz_004 _ _ _ _ _ _ d4 H4) by lra.
  cbn [nearby_loop app]. result_simpl. cbv iota beta.
  cbn [mapM iae_categories seed_database].
  rewrite (seed_score _ biz_001 800 d1) by (first [reflexivity | cbn; lra]).
  rewrite (seed_score _ biz_002 450 d2) by (first [reflexivity | cbn; lra]).
  rewrite (seed_score _ biz_003 470 d3) by (first [reflexivity | cbn; lra]).
  rewrite (seed_score _ biz_004 490 d4) by (first [reflexivity | cbn; lra]).
  result_simpl.
  unfold sorted_reverse. cbn [mapM].
  rewrite !metric_key_seed_item. result_simpl.
  destruct seed_metric_order as (O1 & O2 & O3).
  rewrite !sort_desc_cons. change (sort_desc []) with (@nil (R * dict)).
  rewrite insert_desc_nil.
  rewrite insert_desc_ge by lra.
  rewrite (insert_desc_lt (seed_metric biz_002 450) (seed_metric biz_003 470)) by lra.
  rewrite (insert_desc_lt (seed_metric biz_002 450) (seed_metric biz_004 490)) by lra.
  rewrite insert_desc_nil.
  rewrite insert_desc_ge by lra.
  reflexivity.
Qed.

(** Two venues with exactly equal metrics come back in the order in which
    the table lists them, whichever that is. *)
Lemma tie_keeps_filter_order (first second : Business.t) :
  (first = biz_001 /\ second = twin_001) \/ (first = twin_001 /\ second = biz_001) ->
  get_processed_businesses (twin_database [first; second]) 40.4167 (-3.7037) 0
  = Ok [ seed_item first 800 0; seed_item second 800 0 ].
Proof.
  intros Hcase.
  assert (H1 : haversine_distance 40.4167 (-3.7037)
                 (Business.latitude first) (Business.longitude first) = Ok 0%R).
  { destruct Hcase as [[-> _] | [-> _]]; apply haversine_distance_same_point. }
  assert (H2 : haversine_distance 40.4167 (-3.7037)
                 (Business.latitude second) (Business.longitude second) = Ok 0%R).
  { destruct Hcase as [[_ ->] | [_ ->]]; apply haversine_distance_same_point. }
  unfold get_processed_businesses, rank. cbn [businesses twin_database].
  rewrite (nearby_loop_keep first _ _ _ _ _ _ 0%R H1) by (cbn; lra).
  rewrite (nearby_loop_keep second _ _ _ _ _ _ 0%R H2) by (cbn; lra).
  cbn [nearby_loop app]. result_simpl. cbv iota beta.
  cbn [mapM iae_categories twin_database].
  rewrite (seed_score _ first 800 0), (seed_score _ second 800 0);
    try (destruct Hcase as [[-> ->] | [-> ->]]; first [reflexivity | cbn; lra]).
  result_simpl. unfold sorted_reverse. cbn [mapM].
  rewrite !metric_key_seed_item. result_simpl.
  rewrite !sort_desc_cons. change (sort_desc []) with (@nil (R * dict)).
  rewrite insert_desc_nil, insert_desc_ge; [reflexivity |].
  destruct Hcase as [[-> ->] | [-> ->]]; right; reflexivity.
Qed.


Lemma seed_ids_NoDup : NoDup (Business.id <$> businesses seed_database).
Proof. apply (bool_decide_unpack _). reflexivity. Qed.

Lemma C10_metric_independent_of_query_witness :
  exists (out1 out2 : list dict) (d1 d2 : dict),
    results seed_database (QSearch 40.4167 (-3.7037) 0) = Ok out1 /\
    results seed_database (QSearch 0 0 30000000) = Ok out2 /\
    d1 ∈ out1 /\ d2 ∈ out2 /\
    exists b m,
      b ∈ businesses seed_database /\
      d1 !! "id" = Some (VStr (Business.id b)) /\
      venue_metric seed_database b = Ok m /\
      d1 !! "metric" = Some (VNum m) /\
      d2 !! "metric" = Some (VNum m).
Proof.
  destruct (seed_search_everywhere 0 0) as (e1 & e2 & e3 & e4 & H2).
  eexists _, _, _, _. split; [apply seed_search |]. split; [exact H2 |].
  split; [left |]. split; [left |].
  eapply (C10_metric_independent_of_query seed_database
            (QSearch 40.4167 (-3.7037) 0) (QSearch 0 0 30000000)).
  - exact seed_ids_NoDup.
  - apply seed_search.
  - exact H2.
  - left.
  - left.
  - reflexivity.
Defined.

(** ** More on the distance engine *)

Section DistanceEngine.
#[local] Open Scope R_scope.

Lemma sin_sqr_neg (x : R) : sin (- x) ^ 2 = sin x ^ 2.
Proof. rewrite sin_neg. ring. Qed.

Lemma hav_sym lat1 lon1 lat2 lon2 : hav lat1 lon1 lat2 lon2 = hav lat2 lon2 lat1 lon1.
Proof.
  unfold hav, math_radians.
  replace ((lat2 - lat1) * PI / 180 / 2) with (- ((lat1 - lat2) * PI / 180 / 2)) by lra.
  replace ((lon2 - lon1) * PI / 180 / 2) with (- ((lon1 - lon2) * PI / 180 / 2)) by lra.
  rewrite !sin_sqr_neg. ring.
Qed.

(** X1: the distance does not depend on the order of the two points. *)
Theorem X1_haversine_symmetric lat1 lon1 lat2 lon2 :
  haversine_distance lat1 lon1 lat2 lon2 = haversine_distance lat2 lon2 lat1 lon1.
Proof. rewrite !haversine_distance_Ok, (hav_sym lat1 lon1). reflexivity. Qed.

(** *** Rounding *)

Lemma round_half_even_error (y : R) : - (1 / 2) <= IZR (round_half_even y) - y <= 1 / 2.
Proof.
  unfold round_half_even.
  pose proof (base_fp y) as [Hf0 Hf1].
  assert (Hy : y = IZR (Int_part y) + frac_part y) by apply Rplus_Int_part_frac_part.
  destruct (Rlt_dec (frac_part y) (1 / 2)); [lra |].
  destruct (Rlt_dec (1 / 2) (frac_part y)); [rewrite plus_IZR; lra |].
  destruct (Z.even (Int_part y)); [lra | rewrite plus_IZR; lra].
Qed.

Lemma round_half_even_nonneg (y : R) : 0 <= y -> (0 <= round_half_even y)%Z.
Proof.
  intros Hy. unfold round_half_even.
  assert (Hi : (0 <= Int_part y)%Z).
  { pose proof (base_Int_part y) as [H1 H2].
    assert (H3 : IZR (-1) < IZR (Int_part y)) by lra.
    apply lt_IZR in H3. lia. }
  revert Hi. generalize (Int_part y) as f. intros f Hf.
  repeat destruct (Rlt_dec _ _); try destruct (Z.even f); lia.
Qed.

(** [round(x, n)] is within half a unit of the n-th decimal of [x], and it
    is not negative when [x] is not. *)
Lemma round_error (x : R) (ndigits : nat) :
  Rabs (round x ndigits - x) <= / (2 * 10 ^ ndigits) /\
  (0 <= x -> 0 <= round x ndigits).
Proof.
  assert (Hp : 0 < 10 ^ ndigits) by (apply pow_lt; lra).
  unfold round. split.
  - pose proof (round_half_even_error (x * 10 ^ ndigits)) as He.
    apply Rabs_le.
    set (z := IZR (round_half_even (x * 10 ^ ndigits))) in *.
    assert (Hinv : / (2 * 10 ^ ndigits) = / 2 * / 10 ^ ndigits).
    { rewrite Rinv_mult. reflexivity. }
    rewrite Hinv.
    assert (Hq : 0 < / 10 ^ ndigits) by now apply Rinv_0_lt_compat.
    assert (Hx : x = x * 10 ^ ndigits * / 10 ^ ndigits).
    { rewrite Rmult_assoc, Rinv_r by lra. lra. }
    unfold Rdiv. split.
    + rewrite Hx at 1.
      replace (z * / 10 ^ ndigits - x * 10 ^ ndigits * / 10 ^ ndigits)
        with ((z - x * 10 ^ ndigits) * / 10 ^ ndigits) by ring.
      nra.
    + rewrite Hx at 1.
      replace (z * / 10 ^ ndigits - x * 10 ^ ndigits * / 10 ^ ndigits)
        with ((z - x * 10 ^ ndigits) * / 10 ^ ndigits) by ring.
      nra.
  - intros Hx.
    assert (Hz : (0 <= round_half_even (x * 10 ^ ndigits))%Z).
    { apply round_half_even_nonneg. apply Rmult_le_pos; lra. }
    apply IZR_le in Hz. unfold Rdiv.
    apply Rmult_le_pos; [exact Hz |]. left. now apply Rinv_0_lt_compat.
Qed.

End DistanceEngine.

(** ** More on the calculator *)

Section CalculatorMore.
#[local] Open Scope R_scope.

Lemma clamp_opp (x : R) : clamp (- x) = - clamp x.
Proof.
  unfold clamp, Rmax, Rmin.
  destruct (Rle_dec x 100); destruct (Rle_dec (- x) 100);
    repeat destruct (Rle_dec _ (-100)); lra.
Qed.

Lemma sigmoid_value_opp (x : R) : sigmoid_value (- x) = 1 - sigmoid_value x.
Proof.
  unfold sigmoid_value. rewrite clamp_opp, Ropp_involutive.
  rewrite (exp_Ropp (clamp x)).
  pose proof (exp_pos (clamp x)) as He.
  field. split; lra.
Qed.

Lemma sigmoid_value_0 : sigmoid_value 0 = 1 / 2.
Proof.
  unfold sigmoid_value. rewrite clamp_id by lra.
  rewrite Ropp_0, exp_0. lra.
Qed.

Lemma clamp_high (x : R) : 100 <= x -> clamp x = 100.
Proof.
  intros Hx. unfold clamp, Rmax, Rmin.
  destruct (Rle_dec x 100); destruct (Rle_dec _ (-100)); lra.
Qed.

Lemma clamp_low (x : R) : x <= -100 -> clamp x = -100.
Proof.
  intros Hx. unfold clamp, Rmax, Rmin.
  destruct (Rle_dec x 100); destruct (Rle_dec _ (-100)); lra.
Qed.

(** X4: the sigmoid is a point reflection about (0, 1/2): it is 1/2 at 0,
    and its values at [x] and [- x] add up to 1. *)
Theorem X4_sigmoid_reflection (x : R) :
  sigmoid 0 = Ok (1 / 2) /\
  exists y, sigmoid x = Ok y /\ sigmoid (- x) = Ok (1 - y).
Proof.
  split.
  - rewrite sigmoid_total. fold (sigmoid_value 0). by rewrite sigmoid_value_0.
  - exists (sigmoid_value x). split; [apply sigmoid_total |].
    rewrite sigmoid_total. fold (sigmoid_value (- x)). by rewrite sigmoid_value_opp.
Qed.

(** X5: the sigmoid is non-decreasing, and constant outside [-100, 100]:
    the clamp makes every argument of 100 or more score like 100, and every
    argument of -100 or less like -100. *)
Theorem X5_sigmoid_saturates (x y : R) :
  (x <= y -> exists u v, sigmoid x = Ok u /\ sigmoid y = Ok v /\ u <= v) /\
  (100 <= x -> sigmoid x = sigmoid 100) /\
  (x <= -100 -> sigmoid x = sigmoid (-100)).
Proof.
  split_and!.
  - intros Hxy. exists (sigmoid_value x), (sigmoid_value y).
    split_and!; [apply sigmoid_total | apply sigmoid_total |].
    by apply sigmoid_value_mono.
  - intros Hx. rewrite !sigmoid_total, (clamp_high x Hx), (clamp_id 100) by lra. done.
  - intros Hx. rewrite !sigmoid_total, (clamp_low x Hx), (clamp_id (-100)) by lra. done.
Qed.

Lemma X5_sigmoid_saturates_witness :
  (exists u v, sigmoid (-3) = Ok u /\ sigmoid 7 = Ok v /\ u <= v) /\
  sigmoid 250 = sigmoid 100 /\
  sigmoid (-250) = sigmoid (-100).
Proof.
  split_and!.
  - apply (X5_sigmoid_saturates (-3) 7); lra.
  - apply (X5_sigmoid_saturates 250 0); lra.
  - apply (X5_sigmoid_saturates (-250) 0); lra.
Defined.

Lemma exp_neg_1_lower : / 3 <= exp (Ropp 1).
Proof.
  rewrite exp_Ropp. pose proof exp_le_3. pose proof (exp_pos 1).
  apply Rinv_le_contravar; lra.
Qed.

(** Inside the domain the value of the metric is above 1/2 and at most 3/4. *)
Lemma sigmoid_value_domain (r t d : R) :
  0 <= r <= 100 -> 0 <= t <= 1000 -> 0 <= d ->
  1 / 2 < sigmoid_value (weighted_sum r t d) <= 3 / 4.
Proof.
  intros Hr Ht Hd.
  pose proof (weighted_sum_domain r t d Hr Ht Hd) as [Hx0 Hx1].
  split.
  - rewrite <- sigmoid_value_0. apply sigmoid_value_strict; lra.
  - apply Rle_trans with (sigmoid_value 1); [by apply sigmoid_value_mono |].
    unfold sigmoid_value. rewrite clamp_id by lra.
    pose proof exp_neg_1_lower as He.
    replace (3 / 4) with (/ (4 / 3)) by lra.
    unfold Rdiv at 1. rewrite Rmult_1_l.
    apply Rinv_le_contravar; lra.
Qed.

(** X6: inside the domain (rentability in 0..100, typology in 0..1000, a
    distance of 0 or more) the metric is at least 1/2 and at most 3/4: the
    weighted sum lies in [0, 1]. *)
Theorem X6_metric_range_in_domain (r t d : R) :
  0 <= r <= 100 -> 0 <= t <= 1000 -> 0 <= d ->
  exists m, calculate_conversion_metric r t d = Ok m /\ 1 / 2 <= m <= 3 / 4.
Proof.
  intros Hr Ht Hd.
  exists (sigmoid_value (weighted_sum r t d)).
  split; [by apply calculate_conversion_metric_in_domain |].
  pose proof (sigmoid_value_domain r t d Hr Ht Hd). lra.
Qed.

Lemma X6_metric_range_in_domain_witness :
  exists m, calculate_conversion_metric 0 0 1000000 = Ok m /\ 1 / 2 <= m <= 3 / 4.
Proof. apply (X6_metric_range_in_domain 0 0 1000000); lra. Defined.

End CalculatorMore.

(** ** The pipeline as a function of the table *)

Lemma haversine_distance_to lat lon b :
  haversine_distance lat lon (Business.latitude b) (Business.longitude b)
  = Ok (distance_to lat lon b).
Proof. apply haversine_distance_Ok. Qed.

Lemma distance_to_nonneg lat lon b : (0 <= distance_to lat lon b)%R.
Proof.
  unfold distance_to.
  pose proof (math_atan2_nonneg _ _
    (sqrt_pos (hav lat lon (Business.latitude b) (Business.longitude b)))
    (sqrt_pos (1 - hav lat lon (Business.latitude b) (Business.longitude b)))).
  lra.
Qed.

Lemma distance_to_le lat lon b : (distance_to lat lon b <= 6371000 * PI)%R.
Proof.
  unfold distance_to.
  pose proof (math_atan2_quadrant _ _
    (sqrt_pos (hav lat lon (Business.latitude b) (Business.longitude b)))
    (sqrt_pos (1 - hav lat lon (Business.latitude b) (Business.longitude b)))).
  lra.
Qed.

Lemma distance_to_same_point b :
  distance_to (Business.latitude b) (Business.longitude b) b = 0%R.
Proof.
  pose proof (haversine_distance_same_point (Business.latitude b) (Business.longitude b)) as H.
  rewrite haversine_distance_to in H. by injection H.
Qed.

Lemma nearby_loop_exact rows lat lon radius acc (codes : gset string) :
  nearby_loop rows lat lon radius acc codes
  = Ok (acc ++ ((fun b => biz_data b (distance_to lat lon b))
                  <$> kept_rows rows lat lon radius),
        codes ∪ list_to_set (Business.iae_code <$> kept_rows rows lat lon radius)).
Proof.
  revert acc codes. induction rows as [| b rows IH]; intros acc codes.
  - cbn. by rewrite app_nil_r, (right_id_L ∅ (∪)).
  - cbn [nearby_loop]. rewrite haversine_distance_to. result_simpl.
    unfold kept_rows. rewrite filter_cons.
    destruct (Rle_dec (distance_to lat lon b) (IZR radius)) as [Hle | Hgt].
    + rewrite decide_True by exact Hle.
      rewrite IH. unfold kept_rows. rewrite <- app_assoc. cbn [fmap list_fmap app].
      f_equal. f_equal. cbn [list_to_set foldr]. by rewrite (assoc_L (∪)).
    + rewrite decide_False by exact Hgt. apply IH.
Qed.

Lemma venue_metric_cases db b :
  scorable db b \/ exists e, venue_metric db b = Raise e.
Proof.
  unfold scorable. destruct (venue_metric db b) as [m | e] eqn:Hm; [left | by right; exists e].
  unfold venue_metric in Hm. apply calculate_conversion_metric_Ok_inv in Hm as [_ ->].
  reflexivity.
Qed.

Lemma score_venue db (codes : gset string) lat lon b :
  Business.iae_code b ∈ codes ->
  score (iae_map_of (iae_categories db) codes) (biz_data b (distance_to lat lon b))
  = (metric ← venue_metric db b;
     mret (<[ "metric" := VNum metric ]> (biz_data b (distance_to lat lon b)))).
Proof.
  intros Hc. rewrite score_biz_data.
  by rewrite (iae_map_of_lookup _ codes _ Hc).
Qed.

Lemma score_scored_item db (codes : gset string) lat lon b :
  Business.iae_code b ∈ codes ->
  scorable db b ->
  score (iae_map_of (iae_categories db) codes) (biz_data b (distance_to lat lon b))
  = Ok (scored_item db lat lon b).
Proof. intros Hc Hs. rewrite score_venue by exact Hc. by rewrite Hs. Qed.

Lemma score_raise db (codes : gset string) lat lon b e :
  Business.iae_code b ∈ codes ->
  venue_metric db b = Raise e ->
  score (iae_map_of (iae_categories db) codes) (biz_data b (distance_to lat lon b))
  = Raise e.
Proof. intros Hc Hs. rewrite score_venue by exact Hc. by rewrite Hs. Qed.

Lemma metric_of_scored_item db lat lon b :
  metric_of (scored_item db lat lon b) = metric_value db b.
Proof. reflexivity. Qed.

Lemma mapM_score_Ok db (codes : gset string) lat lon (l : list Business.t) :
  Forall (fun b => Business.iae_code b ∈ codes) l ->
  Forall (scorable db) l ->
  mapM (score (iae_map_of (iae_categories db) codes))
       ((fun b => biz_data b (distance_to lat lon b)) <$> l)
  = Ok (scored_item db lat lon <$> l).
Proof.
  intros Hc Hp. apply mapM_Ok. apply Forall2_fmap.
  induction l as [| b l IH]; [constructor |].
  apply Forall_cons in Hc as [Hc Hcs]. apply Forall_cons in Hp as [Hp Hps].
  constructor; [by apply score_scored_item | by apply IH].
Qed.

Lemma mapM_score_raise db (codes : gset string) lat lon (l : list Business.t) :
  Forall (fun b => Business.iae_code b ∈ codes) l ->
  Exists (fun b => exists e, venue_metric db b = Raise e) l ->
  exists e,
    mapM (score (iae_map_of (iae_categories db) codes))
         ((fun b => biz_data b (distance_to lat lon b)) <$> l)
    = Raise e.
Proof.
  intros Hc Hex. induction l as [| b l IH]; [by apply Exists_nil in Hex |].
  apply Forall_cons in Hc as [Hc Hcs].
  cbn [fmap list_fmap mapM].
  destruct (venue_metric_cases db b) as [Hb | [e Hb]].
  - rewrite score_scored_item by done. result_simpl.
    apply Exists_cons in Hex as [[e He] | Hex].
    { unfold scorable in Hb. rewrite Hb in He. discriminate. }
    destruct (IH Hcs Hex) as [e He]. exists e.
    fold (@fmap list _ _ _ (fun b => biz_data b (distance_to lat lon b)) l).
    rewrite He. reflexivity.
  - exists e. by rewrite (score_raise _ _ _ _ _ e).
Qed.

Lemma kept_codes rows lat lon radius (codes : gset string) :
  Forall (fun b => Business.iae_code b
                   ∈ codes ∪ list_to_set (Business.iae_code <$> kept_rows rows lat lon radius))
         (kept_rows rows lat lon radius).
Proof.
  apply Forall_forall. intros b Hb. apply elem_of_union_r, elem_of_list_to_set.
  apply list_elem_of_fmap. by exists b.
Qed.

Lemma sorted_reverse_scored db lat lon (l : list Business.t) :
  sorted_reverse metric_key (scored_item db lat lon <$> l)
  = Ok (sort_desc (keyed metric_of (scored_item db lat lon <$> l))).*2.
Proof.
  destruct (sorted_reverse_total (scored_item db lat lon <$> l)) as [out Hout].
  - apply Forall_fmap, Forall_true. intros b. eexists. reflexivity.
  - rewrite Hout. by apply sorted_reverse_Ok in Hout as [_ ->].
Qed.

(** The ranking of the rows, when every kept row can be scored. *)
Lemma rank_exact db rows lat lon radius :
  Forall (scorable db) (kept_rows rows lat lon radius) ->
  rank db rows lat lon radius
  = Ok (sort_desc (keyed metric_of
          (scored_item db lat lon <$> kept_rows rows lat lon radius))).*2.
Proof.
  intros Hp. unfold rank. rewrite nearby_loop_exact. result_simpl. rewrite app_nil_l.
  destruct (kept_rows rows lat lon radius) as [| b l] eqn:Hk; [reflexivity |].
  pose proof (kept_codes rows lat lon radius ∅) as Hc. rewrite Hk in Hc.
  pose proof (mapM_score_Ok db _ lat lon (b :: l) Hc Hp) as Hm.
  cbn [fmap list_fmap] in Hm |- *. cbv iota beta. rewrite Hm.
  result_simpl. apply (sorted_reverse_scored db lat lon (b :: l)).
Qed.

(** The ranking of the rows, when a kept row cannot be scored. *)
Lemma rank_raise db rows lat lon radius :
  Exists (fun b => exists e, venue_metric db b = Raise e) (kept_rows rows lat lon radius) ->
  exists e, rank db rows lat lon radius = Raise e.
Proof.
  intros Hp. unfold rank. rewrite nearby_loop_exact. result_simpl. rewrite app_nil_l.
  destruct (kept_rows rows lat lon radius) as [| b l] eqn:Hk; [by apply Exists_nil in Hp |].
  pose proof (kept_codes rows lat lon radius ∅) as Hc. rewrite Hk in Hc.
  destruct (mapM_score_raise db _ lat lon (b :: l) Hc Hp) as [e Hm].
  exists e. cbn [fmap list_fmap] in Hm |- *. cbv iota beta. rewrite Hm. reflexivity.
Qed.

Lemma scorable_dec db (l : list Business.t) :
  Forall (scorable db) l \/ Exists (fun b => exists e, venue_metric db b = Raise e) l.
Proof.
  induction l as [| b l [IH | IH]].
  - left. constructor.
  - destruct (venue_metric_cases db b) as [Hb | Hb].
    + left. by constructor.
    + right. by apply Exists_cons_hd.
  - right. by apply Exists_cons_tl.
Qed.

(** Whenever the ranking returns, it returns the sorted scored items of
    the kept rows. *)
Lemma rank_Ok_exact db rows lat lon radius out :
  rank db rows lat lon radius = Ok out ->
  Forall (scorable db) (kept_rows rows lat lon radius) /\
  out = (sort_desc (keyed metric_of
           (scored_item db lat lon <$> kept_rows rows lat lon radius))).*2.
Proof.
  intros H. destruct (scorable_dec db (kept_rows rows lat lon radius)) as [Hf | He].
  - split; [exact Hf |]. rewrite (rank_exact db rows lat lon radius Hf) in H.
    by injection H.
  - destruct (rank_raise db rows lat lon radius He) as [e He']. rewrite He' in H.
    discriminate.
Qed.

(** The ranking returns when every candidate row can be scored. *)
Lemma rank_total db rows lat lon radius :
  Forall (scorable db) rows -> exists out, rank db rows lat lon radius = Ok out.
Proof.
  intros Hall. eexists. apply rank_exact.
  apply Forall_forall. intros b [_ Hb]%list_elem_of_filter.
  rewrite Forall_forall in Hall. by apply Hall.
Qed.

Lemma get_processed_businesses_total db lat lon radius :
  Forall (scorable db) (businesses db) ->
  exists out, get_processed_businesses db lat lon radius = Ok out.
Proof. apply rank_total. Qed.

Lemma rank_Ok_elem db rows lat lon radius out d :
  rank db rows lat lon radius = Ok out ->
  d ∈ out <-> exists b, b ∈ rows /\ in_radius lat lon radius b /\ d = scored_item db lat lon b.
Proof.
  intros [_ ->]%rank_Ok_exact. rewrite sort_keyed_Permutation.
  rewrite list_elem_of_fmap. unfold kept_rows. split.
  - intros (b & -> & [Hin Hb]%list_elem_of_filter). by exists b.
  - intros (b & Hb & Hin & ->). exists b. split; [done |]. by apply list_elem_of_filter.
Qed.

Lemma rank_Ok_length db rows lat lon radius out :
  rank db rows lat lon radius = Ok out ->
  length out = length (kept_rows rows lat lon radius).
Proof.
  intros [_ ->]%rank_Ok_exact. by rewrite sort_keyed_Permutation, length_fmap.
Qed.

Lemma kept_rows_negative rows lat lon radius :
  (radius < 0)%Z -> kept_rows rows lat lon radius = [].
Proof.
  intros Hr. unfold kept_rows. induction rows as [| b rows IH]; [reflexivity |].
  rewrite filter_cons, decide_False; [exact IH |].
  unfold in_radius. pose proof (distance_to_nonneg lat lon b).
  apply IZR_lt in Hr. lra.
Qed.

Lemma kept_rows_everything rows lat lon radius :
  (6371000 * PI <= IZR radius)%R -> kept_rows rows lat lon radius = rows.
Proof.
  intros Hr. unfold kept_rows. induction rows as [| b rows IH]; [reflexivity |].
  rewrite filter_cons, decide_True; [by rewrite IH |].
  unfold in_radius. pose proof (distance_to_le lat lon b). lra.
Qed.

Lemma scored_item_fields db lat lon b :
  scored_item db lat lon b !! "id" = Some (VStr (Business.id b)) /\
  scored_item db lat lon b !! "name" = Some (VStr (Business.name b)) /\
  scored_item db lat lon b !! "iae_code" = Some (VStr (Business.iae_code b)) /\
  scored_item db lat lon b !! "rentability" = Some (VNum (Business.rentability b)) /\
  scored_item db lat lon b !! "proximity_to_urban_center_m"
    = Some (VNum (Business.proximity_to_urban_center_m b)) /\
  scored_item db lat lon b !! "distance_from_search_m"
    = Some (VNum (round (distance_to lat lon b) 2)) /\
  scored_item db lat lon b !! "coordinates"
    = Some (VDict {[ "lat" := VNum (Business.latitude b);
                     "lon" := VNum (Business.longitude b) ]}) /\
  scored_item db lat lon b !! "metric" = Some (VNum (metric_value db b)).
Proof. split_and!; reflexivity. Qed.

Lemma seed_item_elem (b : Business.t) (typology_val : Z) (dist : R) (l : list dict) :
  seed_item b typology_val dist ∈ seed_item b typology_val dist :: l.
Proof. left. Qed.

Lemma PI_radius : (6371000 * PI <= IZR 30000000)%R.
Proof. pose proof PI_4. lra. Qed.

(** X8: a search that returns, returns one dict for each stored venue whose
    distance from the query point is at most the radius (a venue exactly
    at the radius is kept) and for no other venue; each dict copies the
    venue's fields. *)
Theorem X8_search_keeps_exactly_the_venues_in_radius (db : Database) (lat lon : R)
    (radius : Z) (out : list dict) :
  get_processed_businesses db lat lon radius = Ok out ->
  length out = length (filter (in_radius lat lon radius) (businesses db)) /\
  (forall b, b ∈ businesses db -> (distance_to lat lon b <= IZR radius)%R ->
     haversine_distance lat lon (Business.latitude b) (Business.longitude b)
       = Ok (distance_to lat lon b) /\
     exists d, d ∈ out /\ d !! "id" = Some (VStr (Business.id b))) /\
  (forall d, d ∈ out ->
     exists b, b ∈ businesses db /\ (distance_to lat lon b <= IZR radius)%R /\
       d !! "id" = Some (VStr (Business.id b)) /\
       d !! "name" = Some (VStr (Business.name b)) /\
       d !! "iae_code" = Some (VStr (Business.iae_code b)) /\
       d !! "rentability" = Some (VNum (Business.rentability b)) /\
       d !! "proximity_to_urban_center_m"
         = Some (VNum (Business.proximity_to_urban_center_m b)) /\
       d !! "coordinates"
         = Some (VDict {[ "lat" := VNum (Business.latitude b);
                          "lon" := VNum (Business.longitude b) ]})).
Proof.
  unfold get_processed_businesses. intros H. split_and!.
  - by apply rank_Ok_length in H.
  - intros b Hb Hd. split; [apply haversine_distance_to |].
    exists (scored_item db lat lon b). split; [| reflexivity].
    apply (rank_Ok_elem _ _ _ _ _ _ _ H). by exists b.
  - intros d (b & Hb & Hin & ->)%(rank_Ok_elem _ _ _ _ _ _ _ H).
    exists b. split_and!; try done; reflexivity.
Qed.

Lemma X8_search_keeps_exactly_the_venues_in_radius_witness :
  length [ <[ "metric" := VNum scenario_metric ]> (biz_data biz_001 0) ]
  = length (filter (in_radius 40.4167 (-3.7037) 0) (businesses seed_database)).
Proof.
  destruct (X8_search_keeps_exactly_the_venues_in_radius
              seed_database 40.4167 (-3.7037) 0 _ seed_search) as (Hlen & _).
  exact Hlen.
Defined.

(** X9: the distance an item reports is the great-circle distance of its
    venue rounded to two decimals: it is within 0.005 of that distance, not
    negative, and at most the radius plus 0.005. *)
Theorem X9_reported_distance (db : Database) (lat lon : R) (radius : Z)
    (out : list dict) (d : dict) :
  get_processed_businesses db lat lon radius = Ok out -> d ∈ out ->
  exists b dist reported,
    b ∈ businesses db /\
    d !! "id" = Some (VStr (Business.id b)) /\
    haversine_distance lat lon (Business.latitude b) (Business.longitude b) = Ok dist /\
    d !! "distance_from_search_m" = Some (VNum reported) /\
    reported = round dist 2 /\
    (Rabs (reported - dist) <= 0.005)%R /\
    (0 <= reported <= IZR radius + 0.005)%R.
Proof.
  unfold get_processed_businesses.
  intros H (b & Hb & Hin & ->)%(rank_Ok_elem _ _ _ _ _ _ _ H).
  exists b, (distance_to lat lon b), (round (distance_to lat lon b) 2).
  destruct (round_error (distance_to lat lon b) 2) as [He Hn].
  pose proof (distance_to_nonneg lat lon b) as H0.
  assert (Hc : (/ (2 * 10 ^ 2) = 0.005)%R) by lra.
  rewrite Hc in He. unfold in_radius in Hin.
  split_and!; try done.
  - apply haversine_distance_to.
  - by apply Hn.
  - assert (Hr : (round (distance_to lat lon b) 2 - distance_to lat lon b <= 0.005)%R).
    { eapply Rle_trans; [apply Rle_abs | exact He]. }
    lra.
Qed.

Lemma X9_reported_distance_witness :
  exists b dist reported,
    b ∈ businesses seed_database /\
    (<[ "metric" := VNum scenario_metric ]> (biz_data biz_001 0) : dict) !! "id"
      = Some (VStr (Business.id b)) /\
    haversine_distance 40.4167 (-3.7037) (Business.latitude b) (Business.longitude b)
      = Ok dist /\
    (<[ "metric" := VNum scenario_metric ]> (biz_data biz_001 0) : dict)
      !! "distance_from_search_m" = Some (VNum reported) /\
    reported = round dist 2 /\
    (Rabs (reported - dist) <= 0.005)%R /\
    (0 <= reported <= IZR 0 + 0.005)%R.
Proof.
  apply (X9_reported_distance seed_database 40.4167 (-3.7037) 0 _ _ seed_search).
  left.
Defined.

(** X10: a negative radius is not rejected, and no venue is within it: a
    search that returns, returns the empty list, whatever the table
    holds. *)
Theorem X10_negative_radius_is_empty (db : Database) (lat lon : R) (radius : Z) :
  (radius < 0)%Z ->
  (forall out, get_processed_businesses db lat lon radius = Ok out -> out = []) /\
  (forall business_id r,
     get_processed_businesses_by_id db business_id lat lon radius = Ok r ->
     r = None \/ r = Some []).
Proof.
  intros Hr.
  assert (Hrank : forall rows out, rank db rows lat lon radius = Ok out -> out = []).
  { intros rows out [_ ->]%rank_Ok_exact.
    by rewrite (kept_rows_negative rows lat lon radius Hr). }
  split; [apply Hrank |].
  intros business_id [out |] H; [right | by left].
  apply by_id_Some in H as (target & _ & _ & H).
  by rewrite (Hrank _ _ H).
Qed.

Lemma X10_negative_radius_is_empty_witness :
  exists out,
    get_processed_businesses seed_database 40.4167 (-3.7037) (-1) = Ok out /\ out = [].
Proof.
  assert (Hk : kept_rows (businesses seed_database) 40.4167 (-3.7037) (-1) = []).
  { apply kept_rows_negative. lia. }
  assert (Hout : get_processed_businesses seed_database 40.4167 (-3.7037) (-1) = Ok []).
  { unfold get_processed_businesses. rewrite rank_exact; rewrite Hk; [reflexivity |].
    constructor. }
  exists []. split; [exact Hout |].
  destruct (X10_negative_radius_is_empty seed_database 40.4167 (-3.7037) (-1)) as [H _];
    [lia | exact (H _ Hout)].
Defined.

(** X11: a stored venue that lies exactly at the query point is in the
    result of every search with a radius of 0 or more that returns, with a
    reported distance of 0. *)
Theorem X11_venue_at_the_query_point (db : Database) (b : Business.t) (radius : Z)
    (out : list dict) :
  b ∈ businesses db -> (0 <= radius)%Z ->
  get_processed_businesses db (Business.latitude b) (Business.longitude b) radius = Ok out ->
  exists d, d ∈ out /\
            d !! "id" = Some (VStr (Business.id b)) /\
            d !! "distance_from_search_m" = Some (VNum 0).
Proof.
  unfold get_processed_businesses. intros Hb Hr H.
  exists (scored_item db (Business.latitude b) (Business.longitude b) b). split_and!.
  - apply (rank_Ok_elem _ _ _ _ _ _ _ H). exists b. split_and!; try done.
    unfold in_radius. rewrite distance_to_same_point. apply IZR_le in Hr. lra.
  - reflexivity.
  - destruct (scored_item_fields db (Business.latitude b) (Business.longitude b) b)
      as (_ & _ & _ & _ & _ & Hd & _).
    by rewrite Hd, distance_to_same_point, round_0.
Qed.

Lemma X11_venue_at_the_query_point_witness :
  exists d, d ∈ [ <[ "metric" := VNum scenario_metric ]> (biz_data biz_001 0) ] /\
            d !! "id" = Some (VStr "biz_001") /\
            d !! "distance_from_search_m" = Some (VNum 0).
Proof.
  apply (X11_venue_at_the_query_point seed_database biz_001 0).
  - left.
  - lia.
  - exact seed_search.
Defined.

(** X12: with a radius of at least half the circumference, 6371000 * pi, a
    search keeps every stored venue. *)
Theorem X12_radius_beyond_the_antipode (db : Database) (lat lon : R) (radius : Z)
    (out : list dict) :
  (6371000 * PI <= IZR radius)%R ->
  get_processed_businesses db lat lon radius = Ok out ->
  length out = length (businesses db) /\
  forall b, b ∈ businesses db ->
    exists d, d ∈ out /\ d !! "id" = Some (VStr (Business.id b)).
Proof.
  unfold get_processed_businesses. intros Hr H. split.
  - rewrite (rank_Ok_length _ _ _ _ _ _ H). by rewrite kept_rows_everything.
  - intros b Hb. exists (scored_item db lat lon b). split; [| reflexivity].
    apply (rank_Ok_elem _ _ _ _ _ _ _ H). exists b. split_and!; try done.
    unfold in_radius. pose proof (distance_to_le lat lon b). lra.
Qed.

Lemma X12_radius_beyond_the_antipode_witness :
  exists out,
    get_processed_businesses seed_database 0 0 30000000 = Ok out /\
    length out = length (businesses seed_database) /\
    forall b, b ∈ businesses seed_database ->
      exists d, d ∈ out /\ d !! "id" = Some (VStr (Business.id b)).
Proof.
  destruct (seed_search_everywhere 0 0) as (d1 & d2 & d3 & d4 & H).
  eexists. split; [exact H |].
  exact (X12_radius_beyond_the_antipode seed_database 0 0 30000000 _ PI_radius H).
Defined.

(** X13: enlarging the radius only adds results: whatever a search returns
    is returned, dict for dict, by the search from the same point with a
    larger radius. *)
Theorem X13_results_grow_with_the_radius (db : Database) (lat lon : R) (r1 r2 : Z)
    (out1 out2 : list dict) :
  (r1 <= r2)%Z ->
  get_processed_businesses db lat lon r1 = Ok out1 ->
  get_processed_businesses db lat lon r2 = Ok out2 ->
  out1 ⊆ out2.
Proof.
  unfold get_processed_businesses. intros Hr H1 H2 d.
  intros (b & Hb & Hin & ->)%(rank_Ok_elem _ _ _ _ _ _ _ H1).
  apply (rank_Ok_elem _ _ _ _ _ _ _ H2). exists b. split_and!; try done.
  unfold in_radius in *. apply IZR_le in Hr. lra.
Qed.

Lemma X13_results_grow_with_the_radius_witness :
  exists out2,
    get_processed_businesses seed_database 40.4167 (-3.7037) 30000000 = Ok out2 /\
    [ <[ "metric" := VNum scenario_metric ]> (biz_data biz_001 0) ] ⊆ out2.
Proof.
  destruct (seed_search_everywhere 40.4167 (-3.7037)) as (d1 & d2 & d3 & d4 & H).
  eexists. split; [exact H |].
  apply (X13_results_grow_with_the_radius seed_database 40.4167 (-3.7037) 0 30000000).
  - lia.
  - exact seed_search.
  - exact H.
Defined.

(** X14: one venue inside the radius with a proximity of -1 makes the whole
    search fail: it raises instead of returning a list, whatever the other
    venues are. *)
Theorem X14_one_pole_fails_the_search (db : Database) (lat lon : R) (radius : Z)
    (b : Business.t) (dist : R) :
  b ∈ businesses db ->
  haversine_distance lat lon (Business.latitude b) (Business.longitude b) = Ok dist ->
  (dist <= IZR radius)%R ->
  Business.proximity_to_urban_center_m b = (-1)%R ->
  exists e, get_processed_businesses db lat lon radius = Raise e.
Proof.
  intros Hb Hd Hle Hp. unfold get_processed_businesses. apply rank_raise.
  apply Exists_exists. exists b. split.
  - apply list_elem_of_filter. split; [| exact Hb].
    unfold in_radius. rewrite haversine_distance_to in Hd. by injection Hd as ->.
  - destruct (venue_metric_cases db b) as [Hs | He]; [| exact He].
    unfold scorable, venue_metric in Hs.
    apply calculate_conversion_metric_Ok_inv in Hs as [Hne _]. contradiction.
Qed.

Lemma X14_one_pole_fails_the_search_witness :
  exists e,
    get_processed_businesses (twin_database [biz_001; pole_venue]) 0 0 0 = Raise e.
Proof.
  apply (X14_one_pole_fails_the_search (twin_database [biz_001; pole_venue])
           0 0 0 pole_venue 0).
  - right. left.
  - apply haversine_distance_same_point.
  - apply Rle_refl.
  - reflexivity.
Defined.

(** ** The typology dict *)

Lemma dict_comprehension_other (rows : list IAECategory.t) (m : gmap string Z) (c : string) :
  Forall (fun row => IAECategory.iae_code row <> c) rows ->
  foldl (fun m row => <[ IAECategory.iae_code row := IAECategory.valor_tipologia row ]> m)
        m rows !! c = m !! c.
Proof.
  revert m. induction rows as [| row rows IH]; intros m Hall; [reflexivity |].
  apply Forall_cons in Hall as [Hrow Hall]. cbn [foldl].
  rewrite IH by exact Hall. by rewrite lookup_insert_ne.
Qed.

Lemma iae_table_unknown (db : Database) (c : string) :
  Forall (fun row => IAECategory.iae_code row <> c) (iae_categories db) ->
  iae_table db !! c = None.
Proof. intros H. unfold iae_table. by rewrite dict_comprehension_other. Qed.

Lemma iae_table_stored (db : Database) (row : IAECategory.t) :
  NoDup (IAECategory.iae_code <$> iae_categories db) ->
  row ∈ iae_categories db ->
  iae_table db !! IAECategory.iae_code row = Some (IAECategory.valor_tipologia row).
Proof.
  intros Hnd Hin. unfold iae_table.
  apply list_elem_of_split in Hin as (l1 & l2 & Heq). rewrite Heq in Hnd |- *.
  rewrite foldl_app. cbn [foldl].
  rewrite dict_comprehension_other; [apply lookup_insert_eq |].
  rewrite fmap_app, fmap_cons in Hnd.
  apply NoDup_app in Hnd as (_ & _ & Hnd). apply NoDup_cons in Hnd as [Hnotin _].
  apply Forall_forall. intros row' Hrow' Heq'. apply Hnotin.
  apply list_elem_of_fmap. by exists row'.
Qed.

(** What the typology dict holds is the value of a stored row. *)
Lemma dict_comprehension_lookup (rows : list IAECategory.t) (m : gmap string Z) c v :
  foldl (fun m row => <[ IAECategory.iae_code row := IAECategory.valor_tipologia row ]> m)
        m rows !! c = Some v ->
  m !! c = Some v
  \/ exists row, row ∈ rows /\ IAECategory.iae_code row = c
                 /\ IAECategory.valor_tipologia row = v.
Proof.
  revert m. induction rows as [| r rows IH]; intros m H; [by left |].
  cbn [foldl] in H. apply IH in H as [H | (row & Hin & Hc & Hv)].
  - destruct (decide (IAECategory.iae_code r = c)) as [Hr | Hr].
    + rewrite Hr, lookup_insert_eq in H. injection H as Hv.
      right. exists r. split_and!; [left | done | done].
    + rewrite lookup_insert_ne in H by done. by left.
  - right. exists row. split_and!; [by right | done | done].
Qed.

Lemma iae_table_lookup (db : Database) c v :
  iae_table db !! c = Some v ->
  exists row, row ∈ iae_categories db /\ IAECategory.iae_code row = c
              /\ IAECategory.valor_tipologia row = v.
Proof.
  unfold iae_table. intros [H | H]%dict_comprehension_lookup; [| exact H].
  by rewrite lookup_empty in H.
Qed.

Lemma typology_of_range (db : Database) (b : Business.t) :
  typology_in_range db -> (0 <= typology_of db b <= 1000)%Z.
Proof.
  intros Hrange. unfold typology_of.
  destruct (iae_table db !! Business.iae_code b) as [v |] eqn:Hv; cbn; [| lia].
  apply iae_table_lookup in Hv as (row & Hrow & _ & <-).
  unfold typology_in_range in Hrange. rewrite Forall_forall in Hrange.
  specialize (Hrange row Hrow). lia.
Qed.

(** A venue within the domain of the metric can be scored. *)
Lemma scorable_in_domain (db : Database) (b : Business.t) :
  typology_in_range db ->
  (0 <= Business.rentability b <= 100)%R ->
  (0 <= Business.proximity_to_urban_center_m b)%R ->
  scorable db b.
Proof.
  intros Hrange Hr Hp. unfold scorable, venue_metric, metric_value.
  pose proof (typology_of_range db b Hrange) as [Ht0 Ht1].
  apply IZR_le in Ht0, Ht1. fold (typology_of db b).
  apply calculate_conversion_metric_in_domain; [done | lra | done].
Qed.

Lemma seed_typology_in_range : typology_in_range seed_database.
Proof. unfold typology_in_range. repeat constructor; cbn; lia. Qed.

Lemma seed_in_domain :
  Forall (fun b => (0 <= Business.rentability b <= 100)%R /\
                   (0 <= Business.proximity_to_urban_center_m b)%R)
         (businesses seed_database).
Proof. repeat constructor; cbn; lra. Qed.

Lemma seed_scorable : Forall (scorable seed_database) (businesses seed_database).
Proof.
  eapply Forall_impl; [exact seed_in_domain |].
  intros b [Hr Hp]. apply scorable_in_domain; [exact seed_typology_in_range | done | done].
Qed.

Lemma seed_codes_NoDup : NoDup (IAECategory.iae_code <$> iae_categories seed_database).
Proof. apply (bool_decide_unpack _). reflexivity. Qed.

Lemma seed_keys_NoDup : NoDup (IAECategory.id <$> iae_categories seed_database).
Proof. apply (bool_decide_unpack _). reflexivity. Qed.

(** X15: the typology value behind a returned metric is the one stored for
    the venue's sector code, and 0 when the code has no row: an unknown
    sector code is not an error. *)
Theorem X15_typology_of_a_result (db : Database) (q : query) (out : list dict) (d : dict) :
  results db q = Ok out -> d ∈ out ->
  exists b m,
    b ∈ businesses db /\
    d !! "id" = Some (VStr (Business.id b)) /\
    d !! "metric" = Some (VNum m) /\
    (Forall (fun row => IAECategory.iae_code row <> Business.iae_code b)
            (iae_categories db) ->
     calculate_conversion_metric (Business.rentability b) 0
       (Business.proximity_to_urban_center_m b) = Ok m) /\
    (NoDup (IAECategory.iae_code <$> iae_categories db) ->
     forall row, row ∈ iae_categories db ->
       IAECategory.iae_code row = Business.iae_code b ->
       calculate_conversion_metric (Business.rentability b)
         (IZR (IAECategory.valor_tipologia row))
         (Business.proximity_to_urban_center_m b) = Ok m).
Proof.
  intros H Hd.
  destruct (results_items _ _ _ _ H Hd) as (b & dist & m & Hb & Hm & ->).
  exists b, m. split_and!; try done.
  - intros Hnone. unfold venue_metric in Hm.
    by rewrite (iae_table_unknown db _ Hnone) in Hm.
  - intros Hnd row Hrow Hcode. unfold venue_metric in Hm.
    by rewrite <- Hcode, (iae_table_stored db row Hnd Hrow) in Hm.
Qed.

Lemma untyped_search :
  results untyped_database (QSearch 0 0 0)
  = Ok [scored_item untyped_database 0 0 fractional_venue].
Proof.
  cbn [results]. unfold get_processed_businesses.
  assert (Hk : kept_rows (businesses untyped_database) 0 0 0 = [fractional_venue]).
  { unfold kept_rows. cbn [businesses untyped_database].
    rewrite filter_cons, decide_True; [reflexivity |].
    unfold in_radius. pose proof (distance_to_same_point fractional_venue) as Hd.
    change (distance_to 0 0 fractional_venue = 0%R) in Hd. rewrite Hd. apply Rle_refl. }
  rewrite rank_exact; rewrite Hk; [reflexivity |].
  constructor; [| constructor].
  apply scorable_in_domain; [constructor | cbn; lra | cbn; lra].
Qed.

Lemma X15_typology_of_a_result_witness :
  exists m,
    scored_item untyped_database 0 0 fractional_venue !! "metric" = Some (VNum m) /\
    calculate_conversion_metric (Business.rentability fractional_venue) 0
      (Business.proximity_to_urban_center_m fractional_venue) = Ok m.
Proof.
  destruct (X15_typology_of_a_result untyped_database (QSearch 0 0 0) _
              (scored_item untyped_database 0 0 fractional_venue) untyped_search)
    as (b & m & Hb & Hid & Hm & Hnone & _); [left |].
  apply list_elem_of_singleton in Hb as ->.
  exists m. split; [exact Hm | apply Hnone; constructor].
Defined.

(** ** The competitor search *)

Lemma NoDup_fmap_eq {A B} (f : A -> B) (l : list A) (x y : A) :
  NoDup (f <$> l) -> x ∈ l -> y ∈ l -> f x = f y -> x = y.
Proof.
  induction l as [| a l IH]; [by intros _ ?%elem_of_nil |].
  rewrite fmap_cons, NoDup_cons. intros [Hnotin Hnd] Hx Hy Hf.
  apply elem_of_cons in Hx as [-> | Hx]; apply elem_of_cons in Hy as [-> | Hy].
  - done.
  - exfalso. apply Hnotin. rewrite Hf. apply list_elem_of_fmap. by exists y.
  - exfalso. apply Hnotin. rewrite <- Hf. apply list_elem_of_fmap. by exists x.
  - by apply IH.
Qed.

(** The competitor search finds a stored venue when identifiers are unique
    and every venue can be scored. *)
Lemma by_id_found db (target : Business.t) lat lon radius :
  NoDup (Business.id <$> businesses db) ->
  Forall (scorable db) (businesses db) ->
  target ∈ businesses db ->
  exists out,
    get_processed_businesses_by_id db (Business.id target) lat lon radius = Ok (Some out).
Proof.
  intros Hnd Hall Hin. unfold get_processed_businesses_by_id.
  destruct (filter_id_NoDup (businesses db) (Business.id target) Hnd) as [Hf | [b Hf]].
  - assert (Ht : target ∈ filter (fun b => Business.id b = Business.id target)
                            (businesses db)) by by apply list_elem_of_filter.
    rewrite Hf in Ht. by apply elem_of_nil in Ht.
  - rewrite Hf. cbn [scalar_one_or_none]. result_simpl.
    match goal with
    | |- context [rank db ?rows lat lon radius] =>
        destruct (rank_total db rows lat lon radius) as [out ->]
    end.
    + apply Forall_forall. intros c [_ Hc]%list_elem_of_filter.
      rewrite Forall_forall in Hall. by apply Hall.
    + result_simpl. by eexists.
Qed.

Lemma wildcard_ids_NoDup : NoDup (Business.id <$> businesses wildcard_database).
Proof. apply (bool_decide_unpack _). reflexivity. Qed.

Lemma wildcard_scorable : Forall (scorable wildcard_database) (businesses wildcard_database).
Proof.
  assert (Hrange : typology_in_range wildcard_database) by exact seed_typology_in_range.
  repeat constructor; apply scorable_in_domain; first [exact Hrange | cbn; lra].
Qed.

(** X16: a competitor search that finds its reference venue returns exactly
    the stored venues, other than the reference venue, whose sector code
    the database matches against the first two characters of the
    reference venue's code followed by [%] (so that a [%] or [_] among the
    two characters matches any character) and whose distance from the
    query point is at most the radius.  Each of its dicts is also returned
    by the general search from the same point with the same radius. *)
Theorem X16_competitors_are_same_sector_peers (db : Database) (business_id : string)
    (lat lon : R) (radius : Z) (out : list dict) :
  get_processed_businesses_by_id db business_id lat lon radius = Ok (Some out) ->
  exists target,
    target ∈ businesses db /\ Business.id target = business_id /\
    (forall d, d ∈ out ->
       exists b dist,
         b ∈ businesses db /\
         d !! "id" = Some (VStr (Business.id b)) /\
         Business.id b <> business_id /\
         startswith (Business.iae_code b)
                    (String.substring 0 2 (Business.iae_code target)) = true /\
         haversine_distance lat lon (Business.latitude b) (Business.longitude b) = Ok dist /\
         (dist <= IZR radius)%R) /\
    (forall b dist,
       b ∈ businesses db -> Business.id b <> business_id ->
       startswith (Business.iae_code b)
                  (String.substring 0 2 (Business.iae_code target)) = true ->
       haversine_distance lat lon (Business.latitude b) (Business.longitude b) = Ok dist ->
       (dist <= IZR radius)%R ->
       exists d, d ∈ out /\ d !! "id" = Some (VStr (Business.id b))) /\
    (forall out', get_processed_businesses db lat lon radius = Ok out' -> out ⊆ out').
Proof.
  intros (target & Ht & Hid & H)%by_id_Some.
  exists target. split_and!; try done.
  - intros d (b & Hb & Hin & ->)%(rank_Ok_elem _ _ _ _ _ _ _ H).
    unfold competitor_rows in Hb. apply list_elem_of_filter in Hb as [[Hp Hne] Hb].
    exists b, (distance_to lat lon b). split_and!; try done.
    + by rewrite <- Hid.
    + apply haversine_distance_to.
  - intros b dist Hb Hne Hp Hd Hle.
    exists (scored_item db lat lon b). split; [| reflexivity].
    apply (rank_Ok_elem _ _ _ _ _ _ _ H). exists b. split_and!; try done.
    + unfold competitor_rows. apply list_elem_of_filter. split; [| done].
      split; [done | by rewrite Hid].
    + unfold in_radius. rewrite haversine_distance_to in Hd. by injection Hd as ->.
  - intros out' H' d (b & Hb & Hin & ->)%(rank_Ok_elem _ _ _ _ _ _ _ H).
    unfold get_processed_businesses in H'.
    apply (rank_Ok_elem _ _ _ _ _ _ _ H'). exists b. split_and!; try done.
    unfold competitor_rows in Hb. by apply list_elem_of_filter in Hb as [_ Hb].
Qed.

Lemma X16_competitors_are_same_sector_peers_witness :
  exists out,
    get_processed_businesses_by_id wildcard_database "biz_011" 0 0 30000000
    = Ok (Some out) /\
    (exists d, d ∈ out /\ d !! "id" = Some (VStr "biz_002")) /\
    (forall d, d ∈ out ->
       d !! "id" <> Some (VStr "biz_011") /\ d !! "id" <> Some (VStr "biz_001")).
Proof.
  destruct (by_id_found wildcard_database wildcard_venue 0 0 30000000
              wildcard_ids_NoDup wildcard_scorable) as [out Hout]; [left |].
  exists out. split; [exact Hout |].
  destruct (X16_competitors_are_same_sector_peers wildcard_database "biz_011" 0 0 30000000
              out Hout) as (target & Ht & Hid & Hsound & Hcomplete & _).
  assert (target = wildcard_venue) as ->.
  { apply (NoDup_fmap_eq Business.id (businesses wildcard_database));
      [exact wildcard_ids_NoDup | exact Ht | left | exact Hid]. }
  split.
  - destruct (haversine_distance_le 0 0 (Business.latitude biz_002)
                (Business.longitude biz_002)) as (dist & Hd & Hle).
    apply (Hcomplete biz_002 dist); [right; left | discriminate | reflexivity
                                    | exact Hd | lra].
  - intros d (b & dist & Hb & Hd & Hne & Hlike & _)%Hsound.
    rewrite Hd. split; intros [= Heq]; [contradiction |].
    assert (b = biz_001) as ->.
    { apply (NoDup_fmap_eq Business.id (businesses wildcard_database));
        [exact wildcard_ids_NoDup | exact Hb | right; right; left | exact Heq]. }
    discriminate Hlike.
Defined.

(** ** The order of the rows *)

Lemma iae_table_Permutation (db db' : Database) :
  NoDup (IAECategory.iae_code <$> iae_categories db) ->
  iae_categories db ≡ₚ iae_categories db' ->
  iae_table db = iae_table db'.
Proof.
  intros Hnd Hperm. apply map_eq. intros c.
  assert (Hnd' : NoDup (IAECategory.iae_code <$> iae_categories db')) by by rewrite <- Hperm.
  destruct (decide (c ∈ IAECategory.iae_code <$> iae_categories db)) as [Hin | Hout].
  - apply list_elem_of_fmap in Hin as (row & -> & Hrow).
    rewrite (iae_table_stored db row Hnd Hrow).
    rewrite Hperm in Hrow. by rewrite (iae_table_stored db' row Hnd' Hrow).
  - assert (Hall : Forall (fun row => IAECategory.iae_code row <> c) (iae_categories db)).
    { apply Forall_forall. intros row Hrow Heq. apply Hout.
      apply list_elem_of_fmap. by exists row. }
    rewrite (iae_table_unknown db c Hall).
    rewrite Hperm in Hall. by rewrite (iae_table_unknown db' c Hall).
Qed.

Lemma scored_item_table (db db' : Database) lat lon b :
  iae_table db = iae_table db' -> scored_item db lat lon b = scored_item db' lat lon b.
Proof.
  intros H. unfold scored_item, metric_value, typology_of. by rewrite H.
Qed.

Lemma scorable_table (db db' : Database) b :
  iae_table db = iae_table db' -> scorable db b -> scorable db' b.
Proof.
  unfold scorable, venue_metric, metric_value, typology_of. by intros <-.
Qed.

(** Two rankings of the same rows in two orders agree when the metrics of
    the output are pairwise distinct. *)
Lemma rank_Permutation (db db' : Database) rows rows' lat lon radius out :
  iae_table db = iae_table db' ->
  rows ≡ₚ rows' ->
  rank db rows lat lon radius = Ok out ->
  NoDup (metric_of <$> out) ->
  rank db' rows' lat lon radius = Ok out.
Proof.
  intros Htab Hperm Hout Hnd.
  pose proof (rank_Ok_exact _ _ _ _ _ _ Hout) as [Hpole Heq].
  assert (Hk : kept_rows rows lat lon radius ≡ₚ kept_rows rows' lat lon radius).
  { unfold kept_rows. by rewrite Hperm. }
  rewrite (rank_exact db' rows' lat lon radius).
  2:{ rewrite <- Hk. eapply Forall_impl; [exact Hpole |].
      intros b Hb. by apply (scorable_table db db'). }
  f_equal. symmetry.
  assert (Hp : out ≡ₚ (sort_desc (keyed metric_of
                 (scored_item db' lat lon <$> kept_rows rows' lat lon radius))).*2).
  { rewrite Heq, !sort_keyed_Permutation. rewrite <- Hk.
    erewrite list_fmap_ext; [reflexivity |].
    intros i b _. by apply scored_item_table. }
  apply (StronglySorted_unique_strong (fun x y : dict => (metric_of y <= metric_of x)%R));
    [| rewrite Heq; apply sort_keyed_descending | apply sort_keyed_descending | exact Hp].
  intros x1 x2 H1 H2 Hle1 Hle2.
  apply (NoDup_fmap_eq metric_of out); [done | done | by rewrite Hp | lra].
Qed.

(** X17: a [select] without [ORDER BY] may return the rows in any order.
    When the metrics of a search result are pairwise distinct, the result
    is the same for every order of the two tables. *)
Theorem X17_table_order_is_irrelevant (db db' : Database) (lat lon : R) (radius : Z)
    (out : list dict) :
  businesses db ≡ₚ businesses db' ->
  iae_categories db ≡ₚ iae_categories db' ->
  NoDup (IAECategory.iae_code <$> iae_categories db) ->
  get_processed_businesses db lat lon radius = Ok out ->
  NoDup (metric_of <$> out) ->
  get_processed_businesses db' lat lon radius = Ok out.
Proof.
  unfold get_processed_businesses. intros Hb Hi Hnd Hout Hm.
  eapply rank_Permutation; [| exact Hb | exact Hout | exact Hm].
  by apply iae_table_Permutation.
Qed.

Lemma X17_table_order_is_irrelevant_witness :
  exists out,
    get_processed_businesses seed_database 0 0 30000000 = Ok out /\
    get_processed_businesses reordered_seed_database 0 0 30000000 = Ok out.
Proof.
  destruct (seed_search_everywhere 0 0) as (d1 & d2 & d3 & d4 & H).
  eexists. split; [exact H |].
  apply (X17_table_order_is_irrelevant seed_database reordered_seed_database
           0 0 30000000 _).
  - apply perm_swap.
  - reflexivity.
  - exact seed_codes_NoDup.
  - exact H.
  - destruct seed_metric_order as (O1 & O2 & O3).
    change (NoDup [seed_metric biz_001 800; seed_metric biz_003 470;
                   seed_metric biz_004 490; seed_metric biz_002 450]).
    rewrite !NoDup_cons, !not_elem_of_cons.
    split_and!; try lra; try apply not_elem_of_nil. apply NoDup_nil_2.
Defined.

(** ** The handlers, case by case *)

Section HandlersMore.
Variable format_float : R -> string.

Lemma search_cases (w : World) lat lon radius :
  let key := search_cache_key format_float lat lon radius in
  let cached := RedisClient.get_cache (redis_client w) (now w) key in
  search_nearby_businesses format_float lat lon radius w
  = if truthy cached then (Ok cached, w)
    else match get_processed_businesses (db w) lat lon radius with
         | Ok l =>
             (Ok (search_response l),
              mkWorld (db w)
                (RedisClient.set_cache (redis_client w) (now w) key (search_response l) 300)
                (now w) (S (db_reads w)))
         | Raise e => (Raise e, mkWorld (db w) (redis_client w) (now w) (S (db_reads w)))
         end.
Proof.
  intros key cached. subst key cached.
  destruct (truthy _) eqn:Ht.
  - by apply search_hit.
  - destruct (get_processed_businesses (db w) lat lon radius) as [l | e] eqn:Hp.
    + unfold search_nearby_businesses. io_simpl. rewrite Ht. io_simpl. rewrite Hp.
      io_simpl. cbn [len]. io_simpl. rewrite length_fmap. reflexivity.
    + by apply search_raises.
Qed.

Lemma competitors_cases (w : World) business_id lat lon radius :
  let key := competitors_cache_key format_float business_id lat lon radius in
  let cached := RedisClient.get_cache (redis_client w) (now w) key in
  get_business_competitors format_float business_id lat lon radius w
  = if truthy cached then (Ok cached, w)
    else match get_processed_businesses_by_id (db w) business_id lat lon radius with
         | Ok (Some l) =>
             (Ok (competitors_response l),
              mkWorld (db w)
                (RedisClient.set_cache (redis_client w) (now w) key
                   (competitors_response l) 300)
                (now w) (S (db_reads w)))
         | Ok None =>
             (Raise TypeError, mkWorld (db w) (redis_client w) (now w) (S (db_reads w)))
         | Raise e => (Raise e, mkWorld (db w) (redis_client w) (now w) (S (db_reads w)))
         end.
Proof.
  intros key cached. subst key cached.
  destruct (truthy _) eqn:Ht.
  - by apply competitors_hit.
  - destruct (get_processed_businesses_by_id (db w) business_id lat lon radius)
      as [[l |] | e] eqn:Hp.
    + unfold get_business_competitors. io_simpl. rewrite Ht. io_simpl. rewrite Hp.
      io_simpl. cbn [len]. io_simpl. rewrite length_fmap. reflexivity.
    + by apply competitors_not_found.
    + by apply competitors_raises.
Qed.

(** X20: while the Redis client is not initialised nothing is cached: every
    search request runs the pipeline on the database, and the client is
    still uninitialised afterwards. *)
Theorem X20_uninitialised_client_never_caches (w : World) (lat lon : R) (radius : Z) :
  RedisClient.client (redis_client w) = None ->
  search_nearby_businesses format_float lat lon radius w
  = (search_response <$> get_processed_businesses (db w) lat lon radius,
     mkWorld (db w) (redis_client w) (now w) (S (db_reads w))).
Proof.
  intros Hc. rewrite search_cases. cbv zeta.
  unfold RedisClient.get_cache, RedisClient.set_cache. rewrite Hc. cbn [truthy].
  by destruct (get_processed_businesses _ _ _ _).
Qed.

End HandlersMore.

Lemma X20_uninitialised_client_never_caches_witness :
  search_nearby_businesses format_int_part 40.4167 (-3.7037) 0
    (mkWorld seed_database RedisClient.new 0 0)
  = (Ok (search_response [<[ "metric" := VNum scenario_metric ]> (biz_data biz_001 0)]),
     mkWorld seed_database RedisClient.new 0 1).
Proof.
  rewrite (X20_uninitialised_client_never_caches format_int_part
             (mkWorld seed_database RedisClient.new 0 0) 40.4167 (-3.7037) 0 eq_refl).
  cbn [db]. rewrite seed_search. reflexivity.
Defined.

(** ** Responses *)

Lemma integral_IZR (x : R) : integral x -> x = IZR (Int_part x).
Proof.
  unfold integral. intros H. pose proof (Rplus_Int_part_frac_part x) as Hx.
  rewrite H in Hx. lra.
Qed.

Lemma integral_of_IZR (x : R) (z : Z) : x = IZR z -> integral x.
Proof. intros ->. apply frac_part_IZR. Qed.

Lemma frac_part_half : frac_part 0.5 <> 0%R.
Proof.
  assert (Hi : Int_part 0.5 = 0%Z).
  { symmetry. apply (Int_part_spec 0.5 0). simpl. lra. }
  unfold frac_part. rewrite Hi. simpl. lra.
Qed.

Lemma serialize_SInt_fractional (x : R) :
  ~ integral x -> serialize SInt (VNum x) = Raise ResponseValidationError.
Proof.
  intros H. cbn [serialize]. destruct (Req_dec_T (frac_part x) 0); [contradiction | reflexivity].
Qed.

Lemma serialize_model_cons_raise k s fields (d : dict) v e :
  d !! k = Some v ->
  serialize s v = Raise e ->
  serialize (SModel ((k, s) :: fields)) (VDict d) = Raise e.
Proof. intros Hk Hv. cbn [serialize]. rewrite Hk, Hv. reflexivity. Qed.

Lemma serialize_model_cons_then_raise k s fields (d : dict) v v' e :
  d !! k = Some v ->
  serialize s v = Ok v' ->
  serialize (SModel fields) (VDict d) = Raise e ->
  serialize (SModel ((k, s) :: fields)) (VDict d) = Raise e.
Proof.
  intros Hk Hv Hrest. rewrite serialize_SModel in *.
  cbn [serialize_fields]. fold (serialize_fields d). rewrite Hk, Hv. result_simpl.
  destruct (serialize_fields d fields); [discriminate |].
  result_simpl. by injection Hrest as ->.
Qed.

Lemma serialize_scored_item db lat lon b :
  integral (Business.rentability b) ->
  serialize BusinessResponse (VDict (scored_item db lat lon b))
  = Ok (shown (scored_item db lat lon b)).
Proof.
  intros Hi. unfold scored_item.
  rewrite (serialize_BusinessResponse b _ _ (Int_part (Business.rentability b)))
    by by apply integral_IZR.
  reflexivity.
Qed.

Lemma serialize_scored_item_fractional db lat lon b :
  ~ integral (Business.rentability b) ->
  serialize BusinessResponse (VDict (scored_item db lat lon b))
  = Raise ResponseValidationError.
Proof.
  intros Hi. unfold BusinessResponse, BusinessBase. cbn [app].
  do 3 (eapply serialize_model_cons_then_raise; [reflexivity | reflexivity |]).
  eapply serialize_model_cons_raise; [reflexivity |].
  by apply serialize_SInt_fractional.
Qed.

Lemma mapM_serialize_items db lat lon (l : list Business.t) :
  Forall (fun b => integral (Business.rentability b)) l ->
  mapM (serialize BusinessResponse) (VDict <$> (scored_item db lat lon <$> l))
  = Ok (shown <$> (scored_item db lat lon <$> l)).
Proof.
  intros Hall. apply mapM_Ok. rewrite <- !list_fmap_compose.
  apply Forall2_fmap, Forall_Forall2_diag.
  eapply Forall_impl; [exact Hall |]. intros b Hb. by apply serialize_scored_item.
Qed.

Lemma mapM_serialize_items_fractional db lat lon (l : list Business.t) :
  Exists (fun b => ~ integral (Business.rentability b)) l ->
  mapM (serialize BusinessResponse) (VDict <$> (scored_item db lat lon <$> l))
  = Raise ResponseValidationError.
Proof.
  induction l as [| b l IH]; intros Hex; [by apply Exists_nil in Hex |].
  destruct (Req_dec_T (frac_part (Business.rentability b)) 0) as [Hb | Hb].
  - apply Exists_cons in Hex as [Hex | Hex]; [contradiction |].
    pose proof (IH Hex) as Hm.
    cbn [fmap list_fmap mapM] in Hm |- *.
    rewrite serialize_scored_item by exact Hb. result_simpl.
    rewrite Hm. reflexivity.
  - cbn [fmap list_fmap mapM]. by rewrite serialize_scored_item_fractional.
Qed.

(** The output of a ranking is the list of the scored items of some
    arrangement of the kept rows. *)
Lemma rank_Ok_arrangement db rows lat lon radius out :
  rank db rows lat lon radius = Ok out ->
  exists order, order ≡ₚ kept_rows rows lat lon radius /\
                out = scored_item db lat lon <$> order.
Proof.
  intros [_ ->]%rank_Ok_exact.
  pose proof (sort_keyed_Permutation metric_of
                (scored_item db lat lon <$> kept_rows rows lat lon radius)) as Hperm.
  apply Permutation_map_inv in Hperm as (order & Heq & Hp).
  exists order. split; [by symmetry | exact Heq].
Qed.

Lemma serialize_list_response (field : string) (items : list pyval) (shown_items : list pyval) :
  field <> "count" ->
  mapM (serialize BusinessResponse) items = Ok shown_items ->
  serialize (SModel [("count", SInt); (field, SList BusinessResponse)])
    (VDict {[ "count" := VNum (INR (length items)); field := VList items ]})
  = Ok (VDict {[ "count" := VNum (INR (length items)); field := VList shown_items ]}).
Proof.
  intros Hne Hitems.
  assert (Hcount : ({[ "count" := VNum (INR (length items)); field := VList items ]} : dict)
                   !! "count" = Some (VNum (INR (length items)))).
  { apply lookup_insert_eq. }
  assert (Hfield : ({[ "count" := VNum (INR (length items)); field := VList items ]} : dict)
                   !! field = Some (VList items)).
  { rewrite lookup_insert_ne by done. apply lookup_insert_eq. }
  rewrite (serialize_model_cons "count" SInt _ _
             (<[ field := VList shown_items ]> ∅) _ (VNum (INR (length items))) Hcount).
  - reflexivity.
  - rewrite INR_IZR_INZ. apply serialize_SInt.
  - rewrite (serialize_model_cons field (SList BusinessResponse) [] _ ∅ _
               (VList shown_items) Hfield); [reflexivity | | apply serialize_model_nil].
    cbn [serialize]. rewrite Hitems. reflexivity.
Qed.

Lemma serialize_list_response_raise (field : string) (items : list pyval) e :
  field <> "count" ->
  mapM (serialize BusinessResponse) items = Raise e ->
  serialize (SModel [("count", SInt); (field, SList BusinessResponse)])
    (VDict {[ "count" := VNum (INR (length items)); field := VList items ]})
  = Raise e.
Proof.
  intros Hne Hitems.
  eapply serialize_model_cons_then_raise.
  - apply lookup_insert_eq.
  - rewrite INR_IZR_INZ. apply serialize_SInt.
  - eapply serialize_model_cons_raise.
    + rewrite lookup_insert_ne by done. apply lookup_insert_eq.
    + cbn [serialize]. rewrite Hitems. reflexivity.
Qed.

Lemma search_response_length (out : list dict) :
  search_response out
  = VDict {[ "count" := VNum (INR (length (VDict <$> out)));
             "businesses" := VList (VDict <$> out) ]}.
Proof. unfold search_response. by rewrite length_fmap. Qed.

Lemma competitors_response_length (out : list dict) :
  competitors_response out
  = VDict {[ "count" := VNum (INR (length (VDict <$> out)));
             "competitors" := VList (VDict <$> out) ]}.
Proof. unfold competitors_response. by rewrite length_fmap. Qed.

Lemma serialize_ranked db rows lat lon radius out :
  rank db rows lat lon radius = Ok out ->
  (Forall (fun b => integral (Business.rentability b)) (kept_rows rows lat lon radius) ->
   mapM (serialize BusinessResponse) (VDict <$> out) = Ok (shown <$> out)) /\
  (Exists (fun b => ~ integral (Business.rentability b)) (kept_rows rows lat lon radius) ->
   mapM (serialize BusinessResponse) (VDict <$> out) = Raise ResponseValidationError).
Proof.
  intros (order & Hperm & ->)%rank_Ok_arrangement. split.
  - intros Hall. apply mapM_serialize_items. by rewrite Hperm.
  - intros Hex. apply mapM_serialize_items_fractional. by rewrite Hperm.
Qed.

Lemma started_miss (d : Database) (t : Z) (key : string) :
  truthy (RedisClient.get_cache (redis_client (started d t)) (now (started d t)) key)
  = false.
Proof.
  unfold started, RedisClient.get_cache, RedisClient.init, RedisClient.redis_get.
  cbn [redis_client now RedisClient.client]. rewrite lookup_empty. reflexivity.
Qed.

Lemma seed_rentability_integral (lat lon : R) (radius : Z) :
  Forall (fun b => frac_part (Business.rentability b) = 0%R)
         (filter (in_radius lat lon radius) (businesses seed_database)).
Proof.
  apply Forall_forall. intros b [_ Hb]%list_elem_of_filter. revert b Hb.
  apply Forall_forall. cbn [businesses seed_database].
  repeat constructor.
  - apply (integral_of_IZR _ 85). cbn. lra.
  - apply (integral_of_IZR _ 65). cbn. lra.
  - apply (integral_of_IZR _ 68). cbn. lra.
  - apply (integral_of_IZR _ 62). cbn. lra.
Qed.

Lemma seed_no_competitor (lat lon : R) (radius : Z) :
  get_processed_businesses_by_id seed_database "biz_001" lat lon radius = Ok (Some []).
Proof.
  destruct (by_id_found seed_database biz_001 lat lon radius seed_ids_NoDup seed_scorable)
    as [out Hout]; [left |].
  change (Business.id biz_001) with "biz_001" in Hout. rewrite Hout.
  apply by_id_Some in Hout as (target & Ht & Hid & Hrank).
  assert (target = biz_001) as ->.
  { apply (NoDup_fmap_eq Business.id (businesses seed_database));
      [exact seed_ids_NoDup | exact Ht | left | exact Hid]. }
  assert (Hrows : competitor_rows seed_database biz_001 = []) by reflexivity.
  rewrite Hrows in Hrank. cbn in Hrank. by injection Hrank as <-.
Qed.

Section RoutesMore.
Variable format_float : R -> string.

(** The response of a computed search. *)
Lemma search_route_computed (w : World) (lat lon : R) (radius : Z) (out : list dict) :
  truthy (RedisClient.get_cache (redis_client w) (now w)
            (search_cache_key format_float lat lon radius)) = false ->
  get_processed_businesses (db w) lat lon radius = Ok out ->
  Forall (fun b => frac_part (Business.rentability b) = 0%R)
         (filter (in_radius lat lon radius) (businesses (db w))) ->
  (GET_businesses_search format_float lat lon radius w).1
  = Ok (VDict {[ "count" := VNum (INR (length out));
                 "businesses" :=
                   VList ((fun d => VDict (delete "distance_from_search_m" d)) <$> out) ]}).
Proof.
  intros Hmiss Hout Hint. unfold GET_businesses_search.
  erewrite route_Ok; [| rewrite search_cases; cbv zeta; rewrite Hmiss, Hout; reflexivity].
  cbn [fst]. rewrite search_response_length.
  unfold BusinessList.
  rewrite (serialize_list_response "businesses" _ (shown <$> out)); [| done |].
  - by rewrite length_fmap.
  - by apply (serialize_ranked _ _ _ _ _ _ Hout).
Qed.

(** X21: when every venue within the radius has an integral rentability,
    the response of a computed search is the count and, in ranking order,
    the pipeline's dicts without their distance field. *)
Theorem X21_search_response_shape (w : World) (lat lon : R) (radius : Z)
    (out : list dict) :
  truthy (RedisClient.get_cache (redis_client w) (now w)
            (search_cache_key format_float lat lon radius)) = false ->
  get_processed_businesses (db w) lat lon radius = Ok out ->
  Forall (fun b => frac_part (Business.rentability b) = 0%R)
         (filter (in_radius lat lon radius) (businesses (db w))) ->
  (GET_businesses_search format_float lat lon radius w).1
  = Ok (VDict {[ "count" := VNum (INR (length out));
                 "businesses" :=
                   VList ((fun d => VDict (delete "distance_from_search_m" d)) <$> out) ]}).
Proof. apply search_route_computed. Qed.

(** X22: the schema declares [rentability: int] while the column is a
    float: one venue within the radius with a fractional rentability makes
    a computed search end in a response validation error, after the payload
    has been written to the cache. *)
Theorem X22_fractional_rentability_fails_the_response (w : World)
    (srv : RedisClient.server) (lat lon : R) (radius : Z) (out : list dict)
    (b : Business.t) (dist : R) :
  redis_client w = RedisClient.mk (Some srv) ->
  truthy (RedisClient.get_cache (redis_client w) (now w)
            (search_cache_key format_float lat lon radius)) = false ->
  get_processed_businesses (db w) lat lon radius = Ok out ->
  b ∈ businesses (db w) ->
  haversine_distance lat lon (Business.latitude b) (Business.longitude b) = Ok dist ->
  (dist <= IZR radius)%R ->
  frac_part (Business.rentability b) <> 0%R ->
  GET_businesses_search format_float lat lon radius w
  = (Raise ResponseValidationError,
     mkWorld (db w)
       (RedisClient.mk (Some
          (<[ search_cache_key format_float lat lon radius
              := (json_dumps (search_response out), (now w + 300)%Z) ]> srv)))
       (now w) (S (db_reads w))).
Proof.
  intros Hc Hmiss Hout Hb Hd Hle Hfrac. unfold GET_businesses_search.
  erewrite route_Ok; [| by apply (search_miss format_float w srv)].
  f_equal. rewrite search_response_length. unfold BusinessList.
  apply serialize_list_response_raise; [done |].
  apply (serialize_ranked _ _ _ _ _ _ Hout).
  apply Exists_exists. exists b. split; [| exact Hfrac].
  apply list_elem_of_filter. split; [| exact Hb].
  unfold in_radius. rewrite haversine_distance_to in Hd. by injection Hd as ->.
Qed.

(** X23: nothing invalidates a cached response: for 300 seconds after a
    search was computed and answered, the same request gets the same
    response without a trip to the database, whatever the database holds
    by then. *)
Theorem X23_cached_response_outlives_the_data (w : World) (srv : RedisClient.server)
    (lat lon : R) (radius : Z) (response : pyval) (w1 : World) :
  redis_client w = RedisClient.mk (Some srv) ->
  truthy (RedisClient.get_cache (redis_client w) (now w)
            (search_cache_key format_float lat lon radius)) = false ->
  GET_businesses_search format_float lat lon radius w = (Ok response, w1) ->
  forall (db' : Database) (t' : Z) (n : nat),
    (t' < now w + 300)%Z ->
    GET_businesses_search format_float lat lon radius
      (mkWorld db' (redis_client w1) t' n)
    = (Ok response, mkWorld db' (redis_client w1) t' n).
Proof.
  intros Hc Hmiss Hget db' t' n Ht.
  unfold GET_businesses_search, route in Hget. rewrite IO_bind_unfold in Hget.
  rewrite search_cases in Hget. cbv zeta in Hget. rewrite Hmiss in Hget.
  destruct (get_processed_businesses (db w) lat lon radius) as [l | e]; [| discriminate].
  unfold lift in Hget. apply pair_equal_spec in Hget as [Hser <-].
  cbn [redis_client]. unfold RedisClient.set_cache. rewrite Hc. cbn [RedisClient.client].
  unfold GET_businesses_search.
  erewrite route_Ok.
  2:{ apply search_hit; [| apply (search_response_truthy l)].
      cbn [redis_client now].
      unfold RedisClient.get_cache, RedisClient.redis_get, RedisClient.redis_set.
      cbn [RedisClient.client].
      rewrite lookup_insert_eq, bool_decide_eq_true_2 by lia. reflexivity. }
  by rewrite Hser.
Qed.

(** X24: a competitor search whose reference venue exists and has no peer
    within the radius answers with a count of 0 and an empty list. *)
Theorem X24_no_competitors_is_an_empty_answer (w : World) (business_id : string)
    (lat lon : R) (radius : Z) :
  truthy (RedisClient.get_cache (redis_client w) (now w)
            (competitors_cache_key format_float business_id lat lon radius)) = false ->
  get_processed_businesses_by_id (db w) business_id lat lon radius = Ok (Some []) ->
  (GET_business_competitors format_float business_id lat lon radius w).1
  = Ok (VDict {[ "count" := VNum 0; "competitors" := VList [] ]}).
Proof.
  intros Hmiss Hout. unfold GET_business_competitors.
  erewrite route_Ok; [| rewrite competitors_cases; cbv zeta; rewrite Hmiss, Hout; reflexivity].
  cbn [fst]. rewrite competitors_response_length. unfold CompetitorList.
  by rewrite (serialize_list_response "competitors" _ []).
Qed.

End RoutesMore.

Lemma X21_search_response_shape_witness :
  (GET_businesses_search format_int_part 40.4167 (-3.7037) 0 (started seed_database 0)).1
  = Ok (VDict {[ "count" := VNum (INR 1);
                 "businesses" :=
                   VList [VDict (delete "distance_from_search_m"
                            (<[ "metric" := VNum scenario_metric ]> (biz_data biz_001 0)))] ]}).
Proof.
  apply (X21_search_response_shape format_int_part (started seed_database 0)
           40.4167 (-3.7037) 0
           [ <[ "metric" := VNum scenario_metric ]> (biz_data biz_001 0) ]).
  - apply started_miss.
  - exact seed_search.
  - apply seed_rentability_integral.
Defined.

Lemma X22_fractional_rentability_fails_the_response_witness :
  (GET_businesses_search format_int_part 0 0 0 (started untyped_database 0)).1
  = Raise ResponseValidationError.
Proof.
  rewrite (X22_fractional_rentability_fails_the_response format_int_part
             (started untyped_database 0) ∅ 0 0 0
             [scored_item untyped_database 0 0 fractional_venue] fractional_venue 0).
  - reflexivity.
  - reflexivity.
  - apply started_miss.
  - exact untyped_search.
  - left.
  - apply haversine_distance_same_point.
  - apply Rle_refl.
  - exact frac_part_half.
Defined.

Lemma X23_cached_response_outlives_the_data_witness :
  exists response w1,
    GET_businesses_search format_int_part 40.4167 (-3.7037) 0 (started seed_database 0)
    = (Ok response, w1) /\
    forall (db' : Database) (t' : Z) (n : nat),
      (t' < 0 + 300)%Z ->
      GET_businesses_search format_int_part 40.4167 (-3.7037) 0
        (mkWorld db' (redis_client w1) t' n)
      = (Ok response, mkWorld db' (redis_client w1) t' n).
Proof.
  pose proof (search_route_computed format_int_part (started seed_database 0)
                40.4167 (-3.7037) 0 _ (started_miss _ _ _) seed_search
                (seed_rentability_integral _ _ _)) as Hshape.
  destruct (GET_businesses_search format_int_part 40.4167 (-3.7037) 0
              (started seed_database 0)) as [r w1] eqn:Hget.
  cbn [fst] in Hshape. subst r.
  eexists _, w1. split; [reflexivity |].
  apply (X23_cached_response_outlives_the_data format_int_part
           (started seed_database 0) ∅ 40.4167 (-3.7037) 0 _ w1).
  - reflexivity.
  - apply started_miss.
  - exact Hget.
Defined.

Lemma X24_no_competitors_is_an_empty_answer_witness :
  (GET_business_competitors format_int_part "biz_001" 40.4167 (-3.7037) 500
     (started seed_database 0)).1
  = Ok (VDict {[ "count" := VNum 0; "competitors" := VList [] ]}).
Proof.
  apply (X24_no_competitors_is_an_empty_answer format_int_part (started seed_database 0)).
  - apply started_miss.
  - apply seed_no_competitor.
Defined.

(** ** Keys of different requests *)

Lemma append_cons (c : ascii) (s t : string) : String c s +:+ t = String c (s +:+ t).
Proof. reflexivity. Qed.

Lemma append_assoc (s1 s2 s3 : string) : (s1 +:+ s2) +:+ s3 = s1 +:+ s2 +:+ s3.
Proof.
  induction s1 as [| c s1 IH]; [reflexivity |].
  rewrite !append_cons. by rewrite IH.
Qed.

(** The last field of a key is what follows its last delimiter. *)
Lemma last_field (s s' t t' : string) :
  colons t = 0%nat -> colons t' = 0%nat ->
  s +:+ String ":" t = s' +:+ String ":" t' -> s = s' /\ t = t'.
Proof.
  intros Ht Ht'. revert s'. induction s as [| c s IH]; intros [| c' s'] Heq.
  - change (String ":" t = String ":" t') in Heq. by injection Heq.
  - change (String ":" t = String c' (s' +:+ String ":" t')) in Heq.
    injection Heq as <- ->. rewrite colons_app in Ht. cbn in Ht. lia.
  - change (String c (s +:+ String ":" t) = String ":" t') in Heq.
    injection Heq as -> <-. rewrite colons_app in Ht'. cbn in Ht'. lia.
  - rewrite !append_cons in Heq.
    injection Heq as -> Heq. apply IH in Heq as [-> ->]. done.
Qed.

Section KeysOfRequests.
Variable format_float : R -> string.
Hypothesis format_float_colons : forall x, colons (format_float x) = 0%nat.

Lemma competitors_cache_key_fields business_id lat lon radius :
  competitors_cache_key format_float business_id lat lon radius
  = ((("search:" +:+ business_id) +:+ String ":" (format_float lat))
       +:+ String ":" (format_float lon)) +:+ String ":" (pretty radius).
Proof. unfold competitors_cache_key. by rewrite !append_assoc. Qed.

Lemma search_cache_key_fields lat lon radius :
  search_cache_key format_float lat lon radius
  = (("search" +:+ String ":" (format_float lat))
       +:+ String ":" (format_float lon)) +:+ String ":" (pretty radius).
Proof. unfold search_cache_key. by rewrite !append_assoc. Qed.

Lemma search_cache_key_inj lat lon radius lat' lon' radius' :
  search_cache_key format_float lat lon radius
    = search_cache_key format_float lat' lon' radius' ->
  format_float lat = format_float lat' /\ format_float lon = format_float lon' /\
  radius = radius'.
Proof.
  rewrite !search_cache_key_fields. intros H.
  apply last_field in H as [H Hr]; [| apply colons_pretty_Z ..].
  apply last_field in H as [H Hlon]; [| apply format_float_colons ..].
  apply last_field in H as [_ Hlat]; [| apply format_float_colons ..].
  split_and!; try done. by apply (inj pretty).
Qed.

Lemma competitors_cache_key_inj business_id lat lon radius business_id' lat' lon' radius' :
  competitors_cache_key format_float business_id lat lon radius
    = competitors_cache_key format_float business_id' lat' lon' radius' ->
  business_id = business_id' /\
  format_float lat = format_float lat' /\ format_float lon = format_float lon' /\
  radius = radius'.
Proof.
  rewrite !competitors_cache_key_fields. intros H.
  apply last_field in H as [H Hr]; [| apply colons_pretty_Z ..].
  apply last_field in H as [H Hlon]; [| apply format_float_colons ..].
  apply last_field in H as [H Hlat]; [| apply format_float_colons ..].
  apply (inj (String.app "search:")) in H.
  split_and!; try done. by apply (inj pretty).
Qed.

End KeysOfRequests.

(** X25: when floats are rendered without [:], two requests of the same
    operation have the same cache key exactly when their radii are equal,
    their coordinates are rendered by the same text and, for competitors,
    their venue identifiers are equal (an identifier may itself contain
    [:]): no other two requests share a cache entry. *)
Theorem X25_cache_keys_separate_requests (format_float : R -> string)
    (business_id business_id' : string) (lat lon lat' lon' : R) (radius radius' : Z) :
  (forall x, colons (format_float x) = 0%nat) ->
  (search_cache_key format_float lat lon radius
     = search_cache_key format_float lat' lon' radius'
   <-> format_float lat = format_float lat' /\ format_float lon = format_float lon' /\
       radius = radius') /\
  (competitors_cache_key format_float business_id lat lon radius
     = competitors_cache_key format_float business_id' lat' lon' radius'
   <-> business_id = business_id' /\
       format_float lat = format_float lat' /\ format_float lon = format_float lon' /\
       radius = radius').
Proof.
  intros Hfmt. split; split.
  - by apply search_cache_key_inj.
  - intros (Hlat & Hlon & ->). unfold search_cache_key. by rewrite Hlat, Hlon.
  - by apply competitors_cache_key_inj.
  - intros (-> & Hlat & Hlon & ->). unfold competitors_cache_key. by rewrite Hlat, Hlon.
Qed.

Lemma X25_cache_keys_separate_requests_witness :
  search_cache_key format_int_part 40.4167 (-3.7037) 500
    <> search_cache_key format_int_part 40.4167 (-3.7037) 501 /\
  competitors_cache_key format_int_part "a:b" 40.4167 (-3.7037) 500
    <> competitors_cache_key format_int_part "a" 40.4167 (-3.7037) 500.
Proof.
  destruct (X25_cache_keys_separate_requests format_int_part "a:b" "a"
              40.4167 (-3.7037) 40.4167 (-3.7037) 500 501 colons_format_int_part)
    as [[Hs _] _].
  destruct (X25_cache_keys_separate_requests format_int_part "a:b" "a"
              40.4167 (-3.7037) 40.4167 (-3.7037) 500 500 colons_format_int_part)
    as [_ [Hc _]].
  split.
  - intros (_ & _ & Hr)%Hs. discriminate.
  - intros (Hid & _)%Hc. discriminate.
Defined.

(** ** The typology endpoint *)

Lemma filter_code_NoDup (rows : list IAECategory.t) (c : string) :
  NoDup (IAECategory.iae_code <$> rows) ->
  (filter (fun row => IAECategory.iae_code row = c) rows = []
   /\ Forall (fun row => IAECategory.iae_code row <> c) rows)
  \/ exists row, filter (fun row => IAECategory.iae_code row = c) rows = [row]
                 /\ row ∈ rows /\ IAECategory.iae_code row = c.
Proof.
  induction rows as [| r rows IH]; [left; split; [done | constructor] |].
  rewrite fmap_cons, NoDup_cons. intros [Hnotin Hnd].
  rewrite filter_cons. case_decide as Hr.
  - right. exists r. split_and!; [| left | done]. f_equal.
    clear IH Hnd. induction rows as [| r' rows IH]; [reflexivity |].
    rewrite fmap_cons, not_elem_of_cons in Hnotin. destruct Hnotin as [Hne Hnotin].
    rewrite filter_cons. case_decide as Hc; [congruence | by apply IH].
  - destruct (IH Hnd) as [[Hnil Hall] | (row & Hrow & Hin & Hc)].
    + left. split; [done | by constructor].
    + right. exists row. split_and!; [done | by right | done].
Qed.

Lemma set_valor_tipologia_codes db_entry v rows :
  IAECategory.iae_code <$> set_valor_tipologia db_entry v rows
  = IAECategory.iae_code <$> rows.
Proof.
  unfold set_valor_tipologia. rewrite <- list_fmap_compose.
  apply list_fmap_ext. intros i row _. cbn. by case_decide.
Qed.

Lemma set_valor_tipologia_ids db_entry v rows :
  IAECategory.id <$> set_valor_tipologia db_entry v rows = IAECategory.id <$> rows.
Proof.
  unfold set_valor_tipologia. rewrite <- list_fmap_compose.
  apply list_fmap_ext. intros i row _. cbn. by case_decide.
Qed.

Lemma set_valor_tipologia_elem db_entry v rows row :
  row ∈ set_valor_tipologia db_entry v rows <->
  exists old, old ∈ rows /\
    row = if decide (IAECategory.id old = IAECategory.id db_entry)
          then IAECategory.mk (IAECategory.id old) (IAECategory.iae_code old) v
          else old.
Proof.
  unfold set_valor_tipologia. rewrite list_elem_of_fmap.
  split; [intros (old & -> & Hin) | intros (old & Hin & ->)]; by exists old.
Qed.

(** With one row per key, the update touches the row of [old] only. *)
Lemma set_valor_tipologia_spec old v rows row :
  NoDup (IAECategory.id <$> rows) -> old ∈ rows ->
  row ∈ set_valor_tipologia old v rows <->
  row = IAECategory.mk (IAECategory.id old) (IAECategory.iae_code old) v
  \/ (row ∈ rows /\ row <> old).
Proof.
  intros Hnd Hold. rewrite set_valor_tipologia_elem. split.
  - intros (r & Hr & ->). case_decide as Hid.
    + left. assert (r = old) as -> by by apply (NoDup_fmap_eq IAECategory.id rows).
      done.
    + right. split; [done |]. by intros ->.
  - intros [-> | [Hr Hne]].
    + exists old. split; [done |]. by rewrite decide_True.
    + exists row. split; [done |]. rewrite decide_False; [done |].
      intros Hid. apply Hne. by apply (NoDup_fmap_eq IAECategory.id rows).
Qed.

(** The upsert, case by case, with one row per code. *)
Lemma upsert_cases (new_id : Z) (iae_data : IAECreate.t) (db : Database) :
  NoDup (IAECategory.iae_code <$> iae_categories db) ->
  (Forall (fun row => IAECategory.iae_code row <> IAECreate.iae_code iae_data)
          (iae_categories db) /\
   upsert_iae_category new_id iae_data db
   = Ok (IAECategory.mk new_id (IAECreate.iae_code iae_data)
                        (IAECreate.valor_tipologia iae_data),
         {| businesses := businesses db;
            iae_categories := iae_categories db ++
              [IAECategory.mk new_id (IAECreate.iae_code iae_data)
                              (IAECreate.valor_tipologia iae_data)] |}))
  \/ exists old, old ∈ iae_categories db /\
       IAECategory.iae_code old = IAECreate.iae_code iae_data /\
       upsert_iae_category new_id iae_data db
       = Ok (IAECategory.mk (IAECategory.id old) (IAECreate.iae_code iae_data)
                            (IAECreate.valor_tipologia iae_data),
             {| businesses := businesses db;
                iae_categories :=
                  set_valor_tipologia old (IAECreate.valor_tipologia iae_data)
                                      (iae_categories db) |}).
Proof.
  intros Hnd. unfold upsert_iae_category.
  destruct (filter_code_NoDup _ (IAECreate.iae_code iae_data) Hnd)
    as [[-> Hall] | (old & -> & Hin & Hc)].
  - left. split; [exact Hall | reflexivity].
  - right. exists old. split_and!; [done | done |].
    cbn [scalar_one_or_none]. result_simpl. by rewrite Hc.
Qed.

Lemma upsert_businesses (new_id : Z) (iae_data : IAECreate.t) (db db' : Database) row :
  upsert_iae_category new_id iae_data db = Ok (row, db') ->
  businesses db' = businesses db.
Proof.
  unfold upsert_iae_category. intros (entry & _ & H)%bind_Ok.
  destruct entry; injection H as _ <-; reflexivity.
Qed.

Lemma upsert_lookup (new_id : Z) (iae_data : IAECreate.t) (db db' : Database) row :
  NoDup (IAECategory.id <$> iae_categories db) ->
  NoDup (IAECategory.iae_code <$> iae_categories db) ->
  upsert_iae_category new_id iae_data db = Ok (row, db') ->
  NoDup (IAECategory.iae_code <$> iae_categories db') /\
  row ∈ iae_categories db' /\
  IAECategory.iae_code row = IAECreate.iae_code iae_data /\
  IAECategory.valor_tipologia row = IAECreate.valor_tipologia iae_data /\
  (forall r, r ∈ iae_categories db' ->
     r = row \/ (r ∈ iae_categories db /\
                 IAECategory.iae_code r <> IAECreate.iae_code iae_data)) /\
  (forall r, r ∈ iae_categories db ->
     IAECategory.iae_code r <> IAECreate.iae_code iae_data -> r ∈ iae_categories db').
Proof.
  intros Hids Hcodes Hup.
  destruct (upsert_cases new_id iae_data db Hcodes) as [[Hall H] | (old & Hold & Hc & H)];
    rewrite H in Hup; injection Hup as <- <-; cbn [iae_categories].
  - split_and!; try done.
    + rewrite fmap_app. apply NoDup_app. split_and!; [done | | apply NoDup_singleton].
      intros c Hin ->%list_elem_of_singleton. cbn [IAECategory.iae_code] in Hin.
      apply list_elem_of_fmap in Hin as (r & Hr & Hin).
      rewrite Forall_forall in Hall. by apply (Hall r).
    + apply elem_of_app. right. left.
    + intros r [Hr | ->%list_elem_of_singleton]%elem_of_app; [right | by left].
      split; [done |]. rewrite Forall_forall in Hall. by apply Hall.
    + intros r Hr _. apply elem_of_app. by left.
  - split_and!; try done.
    + by rewrite set_valor_tipologia_codes.
    + apply set_valor_tipologia_spec; [done | done |]. left. by rewrite Hc.
    + intros r [-> | [Hr Hne]]%set_valor_tipologia_spec; [left; by rewrite Hc | | done | done].
      right. split; [done |]. intros Hrc. apply Hne.
      apply (NoDup_fmap_eq IAECategory.iae_code (iae_categories db)); [done..|congruence].
    + intros r Hr Hne. apply set_valor_tipologia_spec; [done | done |].
      right. split; [done |]. intros ->. done.
Qed.

(** The typology dict after an upsert. *)
Lemma upsert_table (new_id : Z) (iae_data : IAECreate.t) (db db' : Database) row :
  NoDup (IAECategory.id <$> iae_categories db) ->
  NoDup (IAECategory.iae_code <$> iae_categories db) ->
  upsert_iae_category new_id iae_data db = Ok (row, db') ->
  iae_table db' !! IAECreate.iae_code iae_data = Some (IAECreate.valor_tipologia iae_data) /\
  (forall c, c <> IAECreate.iae_code iae_data -> iae_table db' !! c = iae_table db !! c).
Proof.
  intros Hids Hcodes Hup.
  destruct (upsert_lookup _ _ _ _ _ Hids Hcodes Hup)
    as (Hnd' & Hrow & Hc & Hv & Hsound & Hcomplete).
  split.
  - rewrite <- Hc, <- Hv. by apply iae_table_stored.
  - intros c Hne. destruct (iae_table db !! c) as [v |] eqn:Hold.
    + apply iae_table_lookup in Hold as (r & Hr & <- & <-).
      apply iae_table_stored; [done |]. by apply Hcomplete.
    + destruct (iae_table db' !! c) as [v' |] eqn:Hnew; [| done].
      apply iae_table_lookup in Hnew as (r & Hr & <- & <-).
      apply Hsound in Hr as [-> | [Hr _]]; [congruence |].
      by rewrite (iae_table_stored db r Hcodes Hr) in Hold.
Qed.

Lemma upsert_typology_in_range (new_id : Z) (iae_data : IAECreate.t)
    (db db' : Database) row :
  IAECreate.valid iae_data -> typology_in_range db ->
  upsert_iae_category new_id iae_data db = Ok (row, db') ->
  typology_in_range db'.
Proof.
  intros Hvalid Hrange. unfold upsert_iae_category. intros (entry & _ & H)%bind_Ok.
  unfold typology_in_range in *.
  destruct entry as [entry |]; injection H as _ <-; cbn [iae_categories].
  - unfold set_valor_tipologia. apply Forall_fmap.
    eapply Forall_impl; [exact Hrange |].
    intros r Hr. cbn. case_decide; [exact Hvalid | exact Hr].
  - apply Forall_app. split; [exact Hrange |]. constructor; [exact Hvalid | constructor].
Qed.

Lemma seed_upsert :
  exists row db',
    upsert_iae_category 5 (IAECreate.mk "E471.1" 850) seed_database = Ok (row, db').
Proof.
  destruct (upsert_cases 5 (IAECreate.mk "E471.1" 850) seed_database seed_codes_NoDup)
    as [[_ H] | (old & _ & _ & H)]; eauto.
Qed.

(** X26: with one row per code and per key, an upsert returns the row it
    wrote; afterwards the typology dict holds the body's value under the
    body's code, every other code has the value it had, and the venues are
    untouched. *)
Theorem X26_upsert_then_lookup (new_id : Z) (iae_data : IAECreate.t) (db : Database) :
  NoDup (IAECategory.id <$> iae_categories db) ->
  NoDup (IAECategory.iae_code <$> iae_categories db) ->
  exists row db',
    upsert_iae_category new_id iae_data db = Ok (row, db') /\
    IAECategory.iae_code row = IAECreate.iae_code iae_data /\
    IAECategory.valor_tipologia row = IAECreate.valor_tipologia iae_data /\
    row ∈ iae_categories db' /\
    businesses db' = businesses db /\
    iae_table db' !! IAECreate.iae_code iae_data
      = Some (IAECreate.valor_tipologia iae_data) /\
    (forall c, c <> IAECreate.iae_code iae_data ->
       iae_table db' !! c = iae_table db !! c).
Proof.
  intros Hids Hcodes.
  assert (Hex : exists row db', upsert_iae_category new_id iae_data db = Ok (row, db')).
  { destruct (upsert_cases new_id iae_data db Hcodes) as [[_ H] | (old & _ & _ & H)]; eauto. }
  destruct Hex as (row & db' & Hup). exists row, db'.
  destruct (upsert_lookup _ _ _ _ _ Hids Hcodes Hup) as (_ & Hrow & Hc & Hv & _).
  destruct (upsert_table _ _ _ _ _ Hids Hcodes Hup) as [Hnew Hother].
  split_and!; try done. by eapply upsert_businesses.
Qed.

Lemma X26_upsert_then_lookup_witness :
  exists row db',
    upsert_iae_category 5 (IAECreate.mk "E471.1" 850) seed_database = Ok (row, db') /\
    iae_table db' !! "E471.1" = Some 850%Z /\
    iae_table db' !! "G651.2" = iae_table seed_database !! "G651.2".
Proof.
  destruct (X26_upsert_then_lookup 5 (IAECreate.mk "E471.1" 850) seed_database
              seed_keys_NoDup seed_codes_NoDup)
    as (row & db' & Hup & _ & _ & _ & _ & Hnew & Hother).
  exists row, db'. split_and!; [exact Hup | exact Hnew | by apply Hother].
Defined.

(** X27: an upsert keeps the table well formed: still one row per code,
    still one row per key when the key given to an added row is new, and,
    for a body that passes validation, every value still within 1..1000.
    A code that is stored keeps its row, its key and the number of rows; a
    code that is not stored adds one row at the end. *)
Theorem X27_upsert_preserves_the_constraints (new_id : Z) (iae_data : IAECreate.t)
    (db db' : Database) (row : IAECategory.t) :
  NoDup (IAECategory.id <$> iae_categories db) ->
  NoDup (IAECategory.iae_code <$> iae_categories db) ->
  upsert_iae_category new_id iae_data db = Ok (row, db') ->
  NoDup (IAECategory.iae_code <$> iae_categories db') /\
  (new_id ∉ IAECategory.id <$> iae_categories db ->
   NoDup (IAECategory.id <$> iae_categories db')) /\
  (IAECreate.valid iae_data -> typology_in_range db -> typology_in_range db') /\
  (forall old, old ∈ iae_categories db ->
     IAECategory.iae_code old = IAECreate.iae_code iae_data ->
     IAECategory.id row = IAECategory.id old /\
     length (iae_categories db') = length (iae_categories db)) /\
  (Forall (fun old => IAECategory.iae_code old <> IAECreate.iae_code iae_data)
          (iae_categories db) ->
   IAECategory.id row = new_id /\ iae_categories db' = iae_categories db ++ [row]).
Proof.
  intros Hids Hcodes Hup.
  destruct (upsert_lookup _ _ _ _ _ Hids Hcodes Hup) as (Hnd' & _ & _ & Hv & Hsound & _).
  split_and!; [exact Hnd' | | | |].
  - intros Hnew.
    destruct (upsert_cases new_id iae_data db Hcodes) as [[Hall H] | (old & Hold & Hc & H)];
      rewrite H in Hup; injection Hup as <- <-; cbn [iae_categories].
    + rewrite fmap_app. apply NoDup_app. split_and!; [done | | apply NoDup_singleton].
      by intros k Hin ->%list_elem_of_singleton.
    + by rewrite set_valor_tipologia_ids.
  - intros Hvalid Hrange. unfold typology_in_range in *.
    apply Forall_forall. intros r [-> | [Hr _]]%Hsound.
    + rewrite Hv. exact Hvalid.
    + rewrite Forall_forall in Hrange. by apply Hrange.
  - intros old Hold Hc.
    destruct (upsert_cases new_id iae_data db Hcodes)
      as [[Hall H] | (old' & Hold' & Hc' & H)];
      rewrite H in Hup; injection Hup as <- <-; cbn [iae_categories IAECategory.id].
    + rewrite Forall_forall in Hall. by destruct (Hall old Hold).
    + assert (old' = old) as ->.
      { apply (NoDup_fmap_eq IAECategory.iae_code (iae_categories db));
          [done | done | done | congruence]. }
      split; [done |]. unfold set_valor_tipologia. by rewrite length_fmap.
  - intros Hall.
    destruct (upsert_cases new_id iae_data db Hcodes)
      as [[_ H] | (old' & Hold' & Hc' & H)];
      rewrite H in Hup; injection Hup as <- <-; cbn [iae_categories IAECategory.id].
    + done.
    + rewrite Forall_forall in Hall. by destruct (Hall old' Hold').
Qed.

Lemma X27_upsert_preserves_the_constraints_witness :
  exists row db',
    upsert_iae_category 5 (IAECreate.mk "E471.1" 850) seed_database = Ok (row, db') /\
    NoDup (IAECategory.iae_code <$> iae_categories db') /\
    NoDup (IAECategory.id <$> iae_categories db') /\
    typology_in_range db' /\
    IAECategory.id row = 1%Z /\
    length (iae_categories db') = 4%nat.
Proof.
  destruct seed_upsert as (row & db' & Hup). exists row, db'.
  destruct (X27_upsert_preserves_the_constraints 5 (IAECreate.mk "E471.1" 850)
              seed_database db' row seed_keys_NoDup seed_codes_NoDup Hup)
    as (Hcodes & Hkeys & Hrange & Hupdate & _).
  destruct (Hupdate (IAECategory.mk 1 "E471.1" 800)) as [Hid Hlen]; [left | reflexivity |].
  split_and!; [exact Hup | exact Hcodes | | | exact Hid | exact Hlen].
  - apply Hkeys. apply (bool_decide_unpack _). reflexivity.
  - apply Hrange; [unfold IAECreate.valid; cbn; lia | exact seed_typology_in_range].
Defined.

(** X28: an upsert takes effect on every search computed afterwards: a
    venue whose sector code is the body's code is scored with the body's
    value, every other venue has the metric the database gave it before. *)
Theorem X28_upsert_takes_effect_on_computed_searches (new_id : Z)
    (iae_data : IAECreate.t) (db db' : Database) (row : IAECategory.t)
    (q : query) (out : list dict) (d : dict) :
  NoDup (IAECategory.id <$> iae_categories db) ->
  NoDup (IAECategory.iae_code <$> iae_categories db) ->
  upsert_iae_category new_id iae_data db = Ok (row, db') ->
  results db' q = Ok out -> d ∈ out ->
  exists b m,
    b ∈ businesses db /\
    d !! "id" = Some (VStr (Business.id b)) /\
    d !! "metric" = Some (VNum m) /\
    (Business.iae_code b = IAECreate.iae_code iae_data ->
     calculate_conversion_metric (Business.rentability b)
       (IZR (IAECreate.valor_tipologia iae_data))
       (Business.proximity_to_urban_center_m b) = Ok m) /\
    (Business.iae_code b <> IAECreate.iae_code iae_data -> venue_metric db b = Ok m).
Proof.
  intros Hids Hcodes Hup Hout Hd.
  destruct (results_items _ _ _ _ Hout Hd) as (b & dist & m & Hb & Hm & ->).
  destruct (upsert_table _ _ _ _ _ Hids Hcodes Hup) as [Hnew Hother].
  exists b, m. split_and!; try done.
  - by rewrite <- (upsert_businesses _ _ _ _ _ Hup).
  - intros Hc. unfold venue_metric in Hm. by rewrite Hc, Hnew in Hm.
  - intros Hc. unfold venue_metric in Hm |- *. by rewrite <- (Hother _ Hc).
Qed.

Lemma X28_upsert_takes_effect_on_computed_searches_witness :
  exists row db' out d m,
    upsert_iae_category 5 (IAECreate.mk "E471.1" 850) seed_database = Ok (row, db') /\
    get_processed_businesses db' 40.4167 (-3.7037) 0 = Ok out /\
    d ∈ out /\
    d !! "id" = Some (VStr "biz_001") /\
    d !! "metric" = Some (VNum m) /\
    calculate_conversion_metric 85.0 850 100.0 = Ok m.
Proof.
  destruct seed_upsert as (row & db' & Hup).
  pose proof (upsert_businesses _ _ _ _ _ Hup) as Hbiz.
  assert (Hrange : typology_in_range db').
  { eapply upsert_typology_in_range; [| exact seed_typology_in_range | exact Hup].
    unfold IAECreate.valid. cbn. lia. }
  destruct (get_processed_businesses_total db' 40.4167 (-3.7037) 0) as [out Hout].
  { rewrite Hbiz. eapply Forall_impl; [exact seed_in_domain |].
    intros b [Hr Hp]. by apply scorable_in_domain. }
  assert (Hd : scored_item db' 40.4167 (-3.7037) biz_001 ∈ out).
  { apply (rank_Ok_elem _ _ _ _ _ _ _ Hout). exists biz_001. split_and!; [| | done].
    - rewrite Hbiz. left.
    - unfold in_radius. pose proof (distance_to_same_point biz_001) as H0.
      change (distance_to 40.4167 (-3.7037) biz_001 = 0%R) in H0. rewrite H0.
      apply Rle_refl. }
  destruct (X28_upsert_takes_effect_on_computed_searches 5 (IAECreate.mk "E471.1" 850)
              seed_database db' row (QSearch 40.4167 (-3.7037) 0) out _
              seed_keys_NoDup seed_codes_NoDup Hup Hout Hd)
    as (b & m & Hb & Hid & Hm & Hnew & _).
  assert (b = biz_001) as ->.
  { apply (NoDup_fmap_eq Business.id (businesses seed_database));
      [exact seed_ids_NoDup | exact Hb | left |].
    destruct (scored_item_fields db' 40.4167 (-3.7037) biz_001) as (Hid' & _).
    rewrite Hid' in Hid. by injection Hid as <-. }
  exists row, db', out, (scored_item db' 40.4167 (-3.7037) biz_001), m.
  split_and!; [exact Hup | exact Hout | exact Hd | reflexivity | exact Hm |].
  by apply Hnew.
Defined.

(** ** A database within the domain of the metric *)

(** X29: on a database within the domain of the metric (typology values
    within 1..1000, as the typology endpoint keeps them, rentabilities
    within 0..100 and proximities of 0 or more), every metric that a
    search of either kind returns is at least 1/2 and at most 3/4. *)
Theorem X29_metrics_of_a_valid_database (db : Database) (q : query)
    (out : list dict) (d : dict) :
  typology_in_range db ->
  Forall (fun b => (0 <= Business.rentability b <= 100)%R /\
                   (0 <= Business.proximity_to_urban_center_m b)%R) (businesses db) ->
  results db q = Ok out -> d ∈ out ->
  exists m, d !! "metric" = Some (VNum m) /\ (1 / 2 <= m <= 3 / 4)%R.
Proof.
  intros Hrange Hbiz Hout Hd.
  destruct (results_items _ _ _ _ Hout Hd) as (b & dist & m & Hb & Hm & ->).
  exists m. split; [reflexivity |].
  rewrite Forall_forall in Hbiz. destruct (Hbiz b Hb) as [Hr Hp].
  pose proof (typology_of_range db b Hrange) as [Ht0 Ht1].
  apply IZR_le in Ht0, Ht1.
  unfold venue_metric in Hm. fold (typology_of db b) in Hm.
  apply calculate_conversion_metric_Ok_inv in Hm as [_ ->].
  pose proof (sigmoid_value_domain (Business.rentability b) (IZR (typology_of db b))
                (Business.proximity_to_urban_center_m b)) as Hdom.
  lra.
Qed.

Lemma X29_metrics_of_a_valid_database_witness :
  exists out d m,
    get_processed_businesses seed_database 0 0 30000000 = Ok out /\
    d ∈ out /\
    d !! "metric" = Some (VNum m) /\ (1 / 2 <= m <= 3 / 4)%R.
Proof.
  destruct (seed_search_everywhere 0 0) as (d1 & d2 & d3 & d4 & H).
  destruct (X29_metrics_of_a_valid_database seed_database (QSearch 0 0 30000000) _
              (seed_item biz_001 800 d1) seed_typology_in_range seed_in_domain H)
    as (m & Hm & Hrange); [left |].
  eexists _, _, m.
  split; [exact H |]. split; [left |]. split; [exact Hm | exact Hrange].
Defined.

(** ** Seeding *)

(** X30: seeding fills the empty tables only: a table that has a row is
    left as it is, an empty one gets the seed rows, each table on its own;
    seeding a second time changes nothing. *)
Theorem X30_seeding_fills_empty_tables_only (db : Database) :
  Startup.seed_database (Startup.seed_database db) = Startup.seed_database db /\
  businesses (Startup.seed_database db)
    = (if decide (businesses db = []) then businesses seed_database else businesses db) /\
  iae_categories (Startup.seed_database db)
    = (if decide (iae_categories db = []) then iae_categories seed_database
       else iae_categories db).
Proof.
  destruct db as [[| b bs] [| c cs]]; split_and!; reflexivity.
Qed.
